(** * PreAssess: the title extractor and the chunk builder

    A shallow embedding of [src/data_processing/extract_title.py] (line
    normalisation, heading patterns, the hierarchy builder, the
    deduplication pass, the page-range locator and the composition that
    [main] makes of them) and of [src/data_processing/build_ground_truth.py]
    ([build_full_citation], [sanitize_citation], the two text splitters and
    the chunk generators), followed by the properties of the specification
    stated over that embedding and by further properties of the code.

    Conventions of the embedding.
    - Python [int] is [Z]; list indices and lengths are [nat].
    - Python [str] is [string].  Characters are modelled as ASCII: the
      character classes below ([\s], [\w], [\d], case mapping) are the ASCII
      restrictions of Python's Unicode classes, and a byte above 127 is a
      caseless symbol that is neither a space nor a word character.
    - [Optional[X]] is [option X]; a dataclass is a record; the nested
      closures of [build_title_structure] that share the four [current_*]
      variables become functions on an explicit [Builder] state.
    - [Dict[str, int]] is [gmap string nat]; a list indexed by position uses
      stdpp's lookup and insert, and an index out of range (an [IndexError]
      in Python) is the [None] of the option monad. *)

From Stdlib Require Import ZArith Lia Ascii String.
From stdpp Require Import base option list gmap strings pretty sorting.

(** ** Characters *)

Module Char.

Definition code (c : ascii) : N := N_of_ascii c.

Definition in_range (lo hi : N) (c : ascii) : bool :=
  ((lo <=? code c) && (code c <=? hi))%N.

(** [str.isspace] on ASCII, which is also [\s] of [re] on [str] patterns:
    TAB, LF, VT, FF, CR, the separators 0x1c-0x1f and the blank. *)
Definition is_space (c : ascii) : bool := in_range 9 13 c || in_range 28 32 c.

Definition is_digit (c : ascii) : bool := in_range 48 57 c.
Definition is_upper (c : ascii) : bool := in_range 65 90 c.
Definition is_lower (c : ascii) : bool := in_range 97 122 c.
Definition is_alpha (c : ascii) : bool := is_upper c || is_lower c.

(** The class [[0-9A-Za-z]]. *)
Definition is_alnum (c : ascii) : bool := is_digit c || is_alpha c.

(** The class [\w]. *)
Definition is_word (c : ascii) : bool := is_alnum c || Ascii.eqb c "_".

Definition is_newline (c : ascii) : bool := Ascii.eqb c "010".

Definition lower (c : ascii) : ascii :=
  if is_upper c then ascii_of_N (code c + 32) else c.

Definition upper (c : ascii) : ascii :=
  if is_lower c then ascii_of_N (code c - 32) else c.

(** Character comparison of a pattern, under [re.IGNORECASE] or not. *)
Definition eqb (ignorecase : bool) (a b : ascii) : bool :=
  if ignorecase then Ascii.eqb (lower a) (lower b) else Ascii.eqb a b.

(** A member of [[IVXLCDM]] under [re.IGNORECASE]. *)
Definition is_roman (c : ascii) : bool :=
  match lower c with
  | "i" | "v" | "x" | "l" | "c" | "d" | "m" => true
  | _ => false
  end%char.

End Char.

(** ** Strings: the [str] methods the program uses *)

Definition is_empty (s : string) : bool :=
  match s with EmptyString => true | String _ _ => false end.

Fixpoint lower (s : string) : string :=
  match s with
  | EmptyString => EmptyString
  | String c s' => String (Char.lower c) (lower s')
  end.

Fixpoint upper (s : string) : string :=
  match s with
  | EmptyString => EmptyString
  | String c s' => String (Char.upper c) (upper s')
  end.

(** [span p s]: the longest prefix of [s] whose characters satisfy [p], and
    what follows it. *)
Fixpoint span (p : ascii → bool) (s : string) : string * string :=
  match s with
  | EmptyString => (EmptyString, EmptyString)
  | String c s' =>
      if p c then let '(a, b) := span p s' in (String c a, b)
      else (EmptyString, s)
  end.

Definition lstrip (s : string) : string := (span Char.is_space s).2.

(** [rstrip_by p s] removes the longest suffix of [s] whose characters
    satisfy [p]. *)
Fixpoint rstrip_by (p : ascii → bool) (s : string) : string :=
  match s with
  | EmptyString => EmptyString
  | String c s' =>
      match rstrip_by p s' with
      | EmptyString => if p c then EmptyString else String c EmptyString
      | r => String c r
      end
  end.

Definition rstrip (s : string) : string := rstrip_by Char.is_space s.

(** [s.strip()] *)
Definition strip (s : string) : string := rstrip (lstrip s).

(** [s.startswith(p)] *)
Fixpoint startswith (s p : string) : bool :=
  match p, s with
  | EmptyString, _ => true
  | String _ _, EmptyString => false
  | String a p', String b s' => Ascii.eqb a b && startswith s' p'
  end.

(** [sep.join(parts)] *)
Fixpoint join (sep : string) (parts : list string) : string :=
  match parts with
  | [] => ""
  | [p] => p
  | p :: rest => p +:+ sep +:+ join sep rest
  end.

(** [s.replace(c, "")] for a single character [c]. *)
Fixpoint remove_char (c : ascii) (s : string) : string :=
  match s with
  | EmptyString => EmptyString
  | String d s' =>
      if Ascii.eqb d c then remove_char c s' else String d (remove_char c s')
  end.

(** [s.split(None, 2)]: at most three parts; runs of white space separate
    the first two, the third is the remainder from its first non-blank
    character on (trailing white space kept). *)
Definition split_ws_2 (s : string) : list string :=
  let s1 := lstrip s in
  if is_empty s1 then [] else
  let '(w1, r1) := span (λ c, negb (Char.is_space c)) s1 in
  let s2 := lstrip r1 in
  if is_empty s2 then [w1] else
  let '(w2, r2) := span (λ c, negb (Char.is_space c)) s2 in
  let s3 := lstrip r2 in
  if is_empty s3 then [w1; w2] else [w1; w2; s3].

(** ** Regular expressions

    Each pattern of the program is embedded as the deterministic matcher it
    denotes.  The patterns are such that Python's backtracking never finds a
    match the greedy first attempt misses: every repetition ([\s*], [\s+],
    [\d+], [[0-9A-Za-z]+]) is followed by an item that cannot start with a
    character of the repeated class, so only the longest repetition can be
    continued.  A matcher returns the text of the group(s) and, where the
    caller goes on, the rest of the subject. *)

Module Re.

(** A literal at the start of the subject: the text it matched (which differs
    from the literal in case only, under [re.IGNORECASE]) and the rest. *)
Fixpoint literal (ignorecase : bool) (lit s : string) : option (string * string) :=
  match lit, s with
  | EmptyString, _ => Some (EmptyString, s)
  | String _ _, EmptyString => None
  | String a lit', String b s' =>
      if Char.eqb ignorecase a b
      then '(m, r) ← literal ignorecase lit' s'; Some (String b m, r)
      else None
  end.

(** [\s*] *)
Definition spaces (s : string) : string := (span Char.is_space s).2.

(** [\s+] *)
Definition spaces1 (s : string) : option string :=
  let '(ws, r) := span Char.is_space s in
  if is_empty ws then None else Some r.

(** [(c+)] for a character class [c]. *)
Definition class1 (p : ascii → bool) (s : string) : option (string * string) :=
  let '(m, r) := span p s in
  if is_empty m then None else Some (m, r).

(** A group of [.*] followed by [$], without [re.MULTILINE]: [.] stops at
    a line feed, and [$] holds at the end of the subject or before a line
    feed that ends it. *)
Definition dot_star_eol (s : string) : option string :=
  let '(m, r) := span (λ c, negb (Char.is_newline c)) s in
  match r with
  | EmptyString => Some m
  | String _ EmptyString => Some m
  | _ => None
  end.

(** [[0-9A-Za-z]*(?:\.[0-9A-Za-z]+)*] read greedily: the leading run of
    alphanumerics (possibly empty), the dotted segments that follow it, and
    the rest.  A dot that no alphanumeric follows ends the repetition and
    stays in the rest. *)
Fixpoint dotted_segments (s : string) : string * (list string * string) :=
  match s with
  | EmptyString => (EmptyString, ([], EmptyString))
  | String c s' =>
      let '(run, (segs, rest)) := dotted_segments s' in
      if Char.is_alnum c then (String c run, (segs, rest))
      else if Ascii.eqb c "." then
        if is_empty run then (EmptyString, ([], s))
        else (EmptyString, (run :: segs, rest))
      else (EmptyString, ([], s))
  end.

(** The text of dotted segments: [.seg1.seg2...]. *)
Definition dotted_text (segs : list string) : string :=
  foldr (λ g acc, "." +:+ g +:+ acc) "" segs.

(** [\bword-boundary] right after a word character: the next character, if
    any, is not a word character. *)
Definition at_word_end (s : string) : bool :=
  match s with
  | EmptyString => true
  | String c _ => negb (Char.is_word c)
  end.

End Re.

(** ** LineNormalizer: [normalize_page_text] *)

(** [re.sub(r"\s+", " ", line)]: every run of white space becomes one blank.
    [in_run] tells that the previous character was white space. *)
Fixpoint condense_go (in_run : bool) (s : string) : string :=
  match s with
  | EmptyString => EmptyString
  | String c s' =>
      if Char.is_space c
      then (if in_run then condense_go true s' else String " " (condense_go true s'))
      else String c (condense_go false s')
  end.

Definition condense (s : string) : string := condense_go false s.

Fixpoint has_newline (s : string) : bool :=
  match s with
  | EmptyString => false
  | String c s' => Char.is_newline c || has_newline s'
  end.

(** The part of [(?<=\w)-\s*\n\s*(?=\w)] after the hyphen, on the text that
    follows the hyphen: the white space the match covers is the whole run up
    to the next character (which the look-ahead wants to be a word
    character, hence no white space), and the run must hold a line feed for
    [\n].  The result is the length of the run. *)
Definition hyphen_break (rest : string) : option nat :=
  let '(ws, r) := span Char.is_space rest in
  if has_newline ws && negb (Re.at_word_end r) && negb (is_empty r)
  then Some (String.length ws) else None.

(** [re.sub(r"(?<=\w)-\s*\n\s*(?=\w)", "", text)], left to right.
    [prev_word] tells that the character before the current one is a word
    character (the look-behind); [skip] counts the characters of a match
    still to be dropped. *)
Fixpoint mend_hyphens (prev_word : bool) (skip : nat) (s : string) : string :=
  match s with
  | EmptyString => EmptyString
  | String c s' =>
      match skip with
      | S k => mend_hyphens false k s'
      | O =>
          if Ascii.eqb c "-" && prev_word then
            match hyphen_break s' with
            | Some n => mend_hyphens false n s'
            | None => String c (mend_hyphens (Char.is_word c) 0 s')
            end
          else String c (mend_hyphens (Char.is_word c) 0 s')
      end
  end.

Definition normalize_page_text (raw : string) : string :=
  if is_empty raw then ""
  else mend_hyphens false 0 (remove_char "013" raw).

(** ** HeadingClassifier *)

(** [re.fullmatch(r"[IVXLCDM]+(?:[A-Z])?", token, re.IGNORECASE)] *)
Fixpoint roman_token (s : string) : bool :=
  match s with
  | EmptyString => false
  | String c s' =>
      Char.is_roman c &&
      match s' with
      | EmptyString => true
      | String d EmptyString => Char.is_alpha d
      | _ => roman_token s'
      end
  end.

Definition first_islower (s : string) : bool :=
  match s with
  | EmptyString => false
  | String c _ => Char.is_lower c
  end.

Definition parse_subtitle_line (line : string) : option (string * string) :=
  if negb (startswith (lower line) "subtitle") then None else
  match split_ws_2 line with
  | _ :: token :: rest =>
      (* re.sub(r"[.\-]+$", "", parts[1]) *)
      let number_token :=
        rstrip_by (λ c, Ascii.eqb c "." || Ascii.eqb c "-") token in
      if negb (roman_token number_token) then None else
      let subtitle_number := "Subtitle " +:+ upper number_token in
      let subtitle_title := match rest with t :: _ => strip t | [] => "" end in
      if negb (is_empty subtitle_title) && first_islower subtitle_title
      then None
      else Some (subtitle_number, subtitle_title)
  | _ => None
  end.

(** [DIVISION_PATTERN = ^Division\s+(\d+)\s+(REST)$] with [re.IGNORECASE],
    where [REST] is [.*]: groups 1 and 2. *)
Definition DIVISION_PATTERN (s : string) : option (string * string) :=
  '(_, r) ← Re.literal true "Division" s;
  r ← Re.spaces1 r;
  '(num, r) ← Re.class1 Char.is_digit r;
  r ← Re.spaces1 r;
  ttl ← Re.dot_star_eol r;
  Some (num, ttl).

(** The group [({prefix}\.[0-9A-Za-z]+)] of the chapter patterns: its text
    and the rest. *)
Definition chapter_citation (ignorecase : bool) (prefix s : string)
    : option (string * string) :=
  '(p, r) ← Re.literal ignorecase prefix s;
  '(d, r) ← Re.literal ignorecase "." r;
  '(seg, r) ← Re.class1 Char.is_alnum r;
  Some (p +:+ d +:+ seg, r).

(** [^\s*Chapter\s+({prefix}\.[0-9A-Za-z]+)\s+(REST)$] with
    [re.IGNORECASE], where [REST] is [.*]: groups 1 and 2. *)
Definition chapter_full (prefix s : string) : option (string * string) :=
  '(_, r) ← Re.literal true "Chapter" (Re.spaces s);
  r ← Re.spaces1 r;
  '(cit, r) ← chapter_citation true prefix r;
  r ← Re.spaces1 r;
  ttl ← Re.dot_star_eol r;
  Some (cit, ttl).

(** [^\s*Chapter\s+({prefix}\.[0-9A-Za-z]+)\s*$], case sensitive:
    group 1. *)
Definition chapter_short (prefix s : string) : option string :=
  '(_, r) ← Re.literal false "Chapter" (Re.spaces s);
  r ← Re.spaces1 r;
  '(cit, r) ← chapter_citation false prefix r;
  if is_empty (Re.spaces r) then Some cit else None.

(** [^\s*({prefix}\.[0-9A-Za-z]+(?:\.[0-9A-Za-z]+)+)\s+(REST)$], case
    sensitive, where [REST] is [.*]: groups 1 and 2. *)
Definition section_pattern (prefix s : string) : option (string * string) :=
  '(p, r) ← Re.literal false prefix (Re.spaces s);
  '(d, r) ← Re.literal false "." r;
  let '(seg, (segs, r)) := Re.dotted_segments r in
  if is_empty seg then None else
  match segs with
  | [] => None
  | _ :: _ =>
      r ← Re.spaces1 r;
      hd ← Re.dot_star_eol r;
      Some (p +:+ d +:+ seg +:+ Re.dotted_text segs, hd)
  end.

Record HeadingPatterns := {
  chapter_full_pattern : string → option (string * string);
  chapter_short_pattern : string → option string;
  section_pattern_of : string → option (string * string)
}.

(** [str(title_number)] is stdpp's [pretty] on [Z]; [re.escape] makes the
    pattern match it literally. *)
Definition compile_heading_patterns (title_number : Z) : HeadingPatterns :=
  let prefix := pretty title_number in
  {| chapter_full_pattern := chapter_full prefix;
     chapter_short_pattern := chapter_short prefix;
     section_pattern_of := section_pattern prefix |}.

(** ** DocumentModel: the dataclasses *)

Record Section := mkSection {
  sec_citation : string;
  sec_heading : string;
  sec_start_page : Z;
  sec_end_page : Z;
  sec_body_lines : list string
}.

Record Chapter := mkChapter {
  ch_citation : string;
  ch_title : string;
  ch_start_page : Z;
  ch_end_page : Z;
  ch_intro_lines : list string;
  ch_sections : list Section
}.

Record Division := mkDivision {
  div_number : string;
  div_title : string;
  div_start_page : Z;
  div_end_page : Z;
  div_intro_lines : list string;
  div_chapters : list Chapter
}.

Record Subtitle := mkSubtitle {
  sub_number : string;
  sub_title : string;
  sub_start_page : Z;
  sub_end_page : Z;
  sub_intro_lines : list string;
  sub_divisions : list Division;
  sub_chapters : list Chapter
}.

Record TitleData := mkTitleData {
  label : string;
  number : Z;
  start_page : Z;
  end_page : Z;
  preface_lines : list string;
  subtitles : list Subtitle
}.

(** [Section.has_body]: [any(line.strip() for line in self.body_lines)] *)
Definition has_body (s : Section) : bool :=
  existsb (λ line, negb (is_empty (strip line))) (sec_body_lines s).

(** The ["text"], ["intro"] and ["preface"] entries of the [to_dict]
    methods: ["\n".join(lines).strip()]. *)
Definition joined_text (lines : list string) : string :=
  strip (join (String "010" "") lines).

(** The [to_dict] methods: a dictionary with fixed keys is a record. *)
Record SectionDict := mkSectionDict {
  sd_citation : string; sd_heading : string;
  sd_start_page : Z; sd_end_page : Z; sd_text : string
}.

Record ChapterDict := mkChapterDict {
  cd_citation : string; cd_title : string;
  cd_start_page : Z; cd_end_page : Z; cd_intro : string;
  cd_sections : list SectionDict
}.

Record DivisionDict := mkDivisionDict {
  dd_number : string; dd_title : string;
  dd_start_page : Z; dd_end_page : Z; dd_intro : string;
  dd_chapters : list ChapterDict
}.

Record SubtitleDict := mkSubtitleDict {
  ud_number : string; ud_title : string;
  ud_start_page : Z; ud_end_page : Z; ud_intro : string;
  ud_divisions : list DivisionDict; ud_chapters : list ChapterDict
}.

Record TitleDict := mkTitleDict {
  td_label : string; td_number : Z;
  td_start_page : Z; td_end_page : Z; td_preface : string;
  td_subtitles : list SubtitleDict
}.

Definition Section_to_dict (s : Section) : SectionDict :=
  mkSectionDict (sec_citation s) (sec_heading s) (sec_start_page s)
    (sec_end_page s) (joined_text (sec_body_lines s)).

Definition Chapter_to_dict (c : Chapter) : ChapterDict :=
  mkChapterDict (ch_citation c) (ch_title c) (ch_start_page c) (ch_end_page c)
    (joined_text (ch_intro_lines c)) (Section_to_dict <$> ch_sections c).

Definition Division_to_dict (d : Division) : DivisionDict :=
  mkDivisionDict (div_number d) (div_title d) (div_start_page d)
    (div_end_page d) (joined_text (div_intro_lines d))
    (Chapter_to_dict <$> div_chapters d).

Definition Subtitle_to_dict (s : Subtitle) : SubtitleDict :=
  mkSubtitleDict (sub_number s) (sub_title s) (sub_start_page s)
    (sub_end_page s) (joined_text (sub_intro_lines s))
    (Division_to_dict <$> sub_divisions s) (Chapter_to_dict <$> sub_chapters s).

Definition TitleData_to_dict (t : TitleData) : TitleDict :=
  mkTitleDict (label t) (number t) (start_page t) (end_page t)
    (joined_text (preface_lines t)) (Subtitle_to_dict <$> subtitles t).

(** In-place updates of the dataclass fields the builder writes. *)

(** [target.body_lines.append(line); target.end_page = e] *)
Definition sec_append (line : string) (e : Z) (s : Section) : Section :=
  mkSection (sec_citation s) (sec_heading s) (sec_start_page s) e
    (sec_body_lines s ++ [line]).

(** [target.intro_lines.append(line); target.end_page = e] *)
Definition ch_append (line : string) (e : Z) (c : Chapter) : Chapter :=
  mkChapter (ch_citation c) (ch_title c) (ch_start_page c) e
    (ch_intro_lines c ++ [line]) (ch_sections c).

Definition div_append (line : string) (e : Z) (d : Division) : Division :=
  mkDivision (div_number d) (div_title d) (div_start_page d) e
    (div_intro_lines d ++ [line]) (div_chapters d).

Definition sub_append (line : string) (e : Z) (s : Subtitle) : Subtitle :=
  mkSubtitle (sub_number s) (sub_title s) (sub_start_page s) e
    (sub_intro_lines s ++ [line]) (sub_divisions s) (sub_chapters s).

(** [chapter.sections.append(section)] *)
Definition ch_add_section (c : Chapter) (s : Section) : Chapter :=
  mkChapter (ch_citation c) (ch_title c) (ch_start_page c) (ch_end_page c)
    (ch_intro_lines c) (ch_sections c ++ [s]).

(** [chapter.sections = sections] *)
Definition ch_set_sections (c : Chapter) (l : list Section) : Chapter :=
  mkChapter (ch_citation c) (ch_title c) (ch_start_page c) (ch_end_page c)
    (ch_intro_lines c) l.

(** [division.chapters.append(chapter)] *)
Definition div_add_chapter (d : Division) (c : Chapter) : Division :=
  mkDivision (div_number d) (div_title d) (div_start_page d) (div_end_page d)
    (div_intro_lines d) (div_chapters d ++ [c]).

(** [subtitle.chapters.append(chapter)] *)
Definition sub_add_chapter (s : Subtitle) (c : Chapter) : Subtitle :=
  mkSubtitle (sub_number s) (sub_title s) (sub_start_page s) (sub_end_page s)
    (sub_intro_lines s) (sub_divisions s) (sub_chapters s ++ [c]).

(** [subtitle.divisions.append(division)] *)
Definition sub_add_division (s : Subtitle) (d : Division) : Subtitle :=
  mkSubtitle (sub_number s) (sub_title s) (sub_start_page s) (sub_end_page s)
    (sub_intro_lines s) (sub_divisions s ++ [d]) (sub_chapters s).

(** [subtitle.title = line; subtitle.end_page = e] *)
Definition sub_set_title (line : string) (e : Z) (s : Subtitle) : Subtitle :=
  mkSubtitle (sub_number s) line (sub_start_page s) e
    (sub_intro_lines s) (sub_divisions s) (sub_chapters s).

(** [chapter.title = line; chapter.end_page = e] *)
Definition ch_set_title (line : string) (e : Z) (c : Chapter) : Chapter :=
  mkChapter (ch_citation c) line (ch_start_page c) e
    (ch_intro_lines c) (ch_sections c).

(** [title.preface_lines.extend(lines)] *)
Definition title_extend_preface (t : TitleData) (lines : list string) : TitleData :=
  mkTitleData (label t) (number t) (start_page t) (end_page t)
    (preface_lines t ++ lines) (subtitles t).

(** [title.subtitles.append(subtitle)] *)
Definition title_add_subtitle (t : TitleData) (s : Subtitle) : TitleData :=
  mkTitleData (label t) (number t) (start_page t) (end_page t)
    (preface_lines t) (subtitles t ++ [s]).

(** [title.subtitles = l] *)
Definition title_set_subtitles (t : TitleData) (l : list Subtitle) : TitleData :=
  mkTitleData (label t) (number t) (start_page t) (end_page t)
    (preface_lines t) l.

(** ** HierarchyBuilder: [build_title_structure]

    The local variables of [build_title_structure] that its closures share:
    [title] and the four open-context slots. *)

Record Builder := mkBuilder {
  title : TitleData;
  current_subtitle : option Subtitle;
  current_division : option Division;
  current_chapter : option Chapter;
  current_section : option Section
}.

Definition finalize_section (b : Builder) : Builder :=
  match current_section b, current_chapter b with
  | Some s, Some c =>
      mkBuilder (title b) (current_subtitle b) (current_division b)
        (Some (ch_add_section c s)) None
  | _, _ =>
      mkBuilder (title b) (current_subtitle b) (current_division b)
        (current_chapter b) None
  end.

Definition finalize_chapter (b : Builder) : Builder :=
  let b := finalize_section b in
  match current_chapter b with
  | Some c =>
      match current_division b with
      | Some d =>
          mkBuilder (title b) (current_subtitle b)
            (Some (div_add_chapter d c)) None (current_section b)
      | None =>
          match current_subtitle b with
          | Some s =>
              mkBuilder (title b) (Some (sub_add_chapter s c))
                (current_division b) None (current_section b)
          | None =>
              mkBuilder (title_extend_preface (title b) (ch_intro_lines c))
                (current_subtitle b) (current_division b) None
                (current_section b)
          end
      end
  | None => b
  end.

Definition finalize_division (b : Builder) : Builder :=
  let b := finalize_chapter b in
  match current_division b, current_subtitle b with
  | Some d, Some s =>
      mkBuilder (title b) (Some (sub_add_division s d)) None
        (current_chapter b) (current_section b)
  | _, _ =>
      mkBuilder (title b) (current_subtitle b) None
        (current_chapter b) (current_section b)
  end.

Definition finalize_subtitle (b : Builder) : Builder :=
  let b := finalize_division b in
  match current_subtitle b with
  | Some s =>
      mkBuilder (title_add_subtitle (title b) s) None
        (current_division b) (current_chapter b) (current_section b)
  | None => b
  end.

(** The two places of the loop that write to
    [target = current_section or current_chapter or current_division or
    current_subtitle], falling back on the preface: the line is appended to
    the target's buffer and the target's [end_page] becomes [new_end] of its
    old value.  The preface has no page. *)
Definition append_to_target (line : string) (new_end : Z → Z) (b : Builder)
    : Builder :=
  match current_section b with
  | Some s =>
      mkBuilder (title b) (current_subtitle b) (current_division b)
        (current_chapter b) (Some (sec_append line (new_end (sec_end_page s)) s))
  | None =>
  match current_chapter b with
  | Some c =>
      mkBuilder (title b) (current_subtitle b) (current_division b)
        (Some (ch_append line (new_end (ch_end_page c)) c)) None
  | None =>
  match current_division b with
  | Some d =>
      mkBuilder (title b) (current_subtitle b)
        (Some (div_append line (new_end (div_end_page d)) d)) None None
  | None =>
  match current_subtitle b with
  | Some s =>
      mkBuilder (title b)
        (Some (sub_append line (new_end (sub_end_page s)) s)) None None None
  | None =>
      mkBuilder (title_extend_preface (title b) [line]) None None None None
  end end end end.

(** The branch [raw_line is None]: a blank marker, and
    [target.end_page = page]. *)
Definition blank_line (page : Z) (b : Builder) : Builder :=
  append_to_target "" (λ _, page) b.

(** The last branch of the loop: the line itself, and
    [target.end_page = max(target.end_page, page)]. *)
Definition text_line (line : string) (page : Z) (b : Builder) : Builder :=
  append_to_target line (λ e, Z.max e page) b.

(** [re.match(r"^Subtitle\b", line, re.IGNORECASE)] *)
Definition subtitle_word (line : string) : bool :=
  match Re.literal true "Subtitle" line with
  | Some (_, r) => Re.at_word_end r
  | None => false
  end.

(** [line.lower() != "sections:"] *)
Definition not_sections_marker (line : string) : bool :=
  negb (bool_decide (lower line = "sections:")).

(** The guard of the deferred-subtitle-title branch, without the test on
    ["sections:"] that is nested in it. *)
Definition subtitle_title_pending (line : string) (b : Builder) : bool :=
  match current_subtitle b, current_chapter b with
  | Some s, None =>
      is_empty (sub_title s) && negb (subtitle_word line)
      && negb (startswith (lower line) "chapter ")
  | _, _ => false
  end.

(** The guard of the deferred-chapter-title branch. *)
Definition chapter_title_pending (line : string) (b : Builder) : bool :=
  match current_chapter b, current_section b with
  | Some c, None => is_empty (ch_title c) && not_sections_marker line
  | _, _ => false
  end.

(** The plain-text part of the loop body, reached when no heading branch
    took the line. *)
Definition plain_line (line : string) (page : Z) (b : Builder) : Builder :=
  if subtitle_title_pending line b && not_sections_marker line then
    match current_subtitle b with
    | Some s =>
        mkBuilder (title b)
          (Some (sub_set_title line (Z.max (sub_end_page s) page) s))
          (current_division b) (current_chapter b) (current_section b)
    | None => b
    end
  else if chapter_title_pending line b then
    match current_chapter b with
    | Some c =>
        mkBuilder (title b) (current_subtitle b) (current_division b)
          (Some (ch_set_title line (Z.max (ch_end_page c) page) c))
          (current_section b)
    | None => b
    end
  else text_line line page b.

(** One iteration of [for raw_line, page in lines]. *)
Definition step (pats : HeadingPatterns) (b : Builder)
    (item : option string * Z) : Builder :=
  let '(raw_line, page) := item in
  match raw_line with
  | None => blank_line page b
  | Some raw =>
      let line := strip raw in
      let condensed := condense line in
      match parse_subtitle_line condensed with
      | Some (subtitle_number, subtitle_title) =>
          let b := finalize_subtitle b in
          mkBuilder (title b)
            (Some (mkSubtitle subtitle_number subtitle_title page page [] [] []))
            None None None
      | None =>
      match DIVISION_PATTERN condensed, current_subtitle b with
      | Some (division_number, division_title), Some _ =>
          let b := finalize_division b in
          mkBuilder (title b) (current_subtitle b)
            (Some (mkDivision division_number (strip division_title) page page [] []))
            None None
      | _, _ =>
      let chapter_match := chapter_full_pattern pats condensed in
      let chapter_short_match := chapter_short_pattern pats condensed in
      match (match chapter_match with
             | Some (cit, ttl) => Some (cit, strip ttl)
             | None => (λ cit, (cit, "")) <$> chapter_short_match
             end) with
      | Some (chapter_citation, chapter_title) =>
          let b := finalize_chapter b in
          mkBuilder (title b) (current_subtitle b) (current_division b)
            (Some (mkChapter chapter_citation chapter_title page page [] []))
            None
      | None =>
      match section_pattern_of pats condensed, current_chapter b with
      | Some (section_citation, section_heading), Some _ =>
          let b := finalize_section b in
          mkBuilder (title b) (current_subtitle b) (current_division b)
            (current_chapter b)
            (Some (mkSection section_citation (strip section_heading) page page []))
      | _, _ => plain_line line page b
      end end end end
  end.

Definition initial_builder (title_label : string) (title_number : Z)
    (start_page end_page : Z) : Builder :=
  mkBuilder (mkTitleData title_label title_number start_page end_page [] [])
    None None None None.

(** The loop of [build_title_structure] and the [finalize_subtitle()] after
    it: the tree before [clean_title]. *)
Definition run_lines (pats : HeadingPatterns) (b : Builder)
    (lines : list (option string * Z)) : Builder :=
  foldl (step pats) b lines.

Definition raw_title (lines : list (option string * Z)) (title_label : string)
    (title_number : Z) (start_page end_page : Z) : TitleData :=
  title (finalize_subtitle
    (run_lines (compile_heading_patterns title_number)
       (initial_builder title_label title_number start_page end_page) lines)).

(** ** Deduplicator: [clean_title] *)

(** Under equal [has_body], the test on the number of body lines and the
    test on [end_page] follow each other, and each returns [True] on its
    own. *)
Definition should_replace_section (existing new : Section) : bool :=
  let existing_has_body := has_body existing in
  let new_has_body := has_body new in
  if new_has_body && negb existing_has_body then true
  else if eqb new_has_body existing_has_body then
    if (length (sec_body_lines existing) <? length (sec_body_lines new))%nat then true
    else if (sec_end_page existing <=? sec_end_page new)%Z then true
    else false
  else false.

(** [len(s.divisions) + len(s.chapters) + sum(len(d.chapters) for d in
    s.divisions)] *)
Definition subtitle_weight (s : Subtitle) : nat :=
  length (sub_divisions s) + length (sub_chapters s)
  + sum_list (length ∘ div_chapters <$> sub_divisions s).

Definition should_replace_subtitle (existing new : Subtitle) : bool :=
  let existing_weight := subtitle_weight existing in
  let new_weight := subtitle_weight new in
  if (existing_weight <? new_weight)%nat then true
  else if (new_weight =? existing_weight)%nat
          && (sub_end_page existing <=? sub_end_page new)%Z then true
  else false.

(** A loop whose body may raise: the option monad threaded through [foldl]. *)
Fixpoint foldlM {A B} (f : B → A → option B) (b : B) (l : list A) : option B :=
  match l with
  | [] => Some b
  | x :: l' => b' ← f b x; foldlM f b' l'
  end.

(** The body of the loop of [clean_chapter], on the pair of its local
    variables [deduped] and [index_map].  [deduped[idx]] raises when [idx] is
    out of range. *)
Definition clean_chapter_step (st : list Section * gmap string nat)
    (section : Section) : option (list Section * gmap string nat) :=
  let '(deduped, index_map) := st in
  let key := sec_citation section in
  match index_map !! key with
  | Some idx =>
      existing ← deduped !! idx;
      if should_replace_section existing section
      then Some (<[idx := section]> deduped, index_map)
      else Some (deduped, index_map)
  | None => Some (deduped ++ [section], <[key := length deduped]> index_map)
  end.

Definition clean_chapter (chapter : Chapter) : option Chapter :=
  '(deduped, _) ← foldlM clean_chapter_step ([], ∅) (ch_sections chapter);
  Some (ch_set_sections chapter deduped).

Definition clean_division (division : Division) : option Division :=
  chapters ← mapM clean_chapter (div_chapters division);
  Some (mkDivision (div_number division) (div_title division)
          (div_start_page division) (div_end_page division)
          (div_intro_lines division) chapters).

(** [clean_subtitle]: the chapters of the divisions first, then the
    subtitle's own. *)
Definition clean_subtitle (subtitle : Subtitle) : option Subtitle :=
  divisions ← mapM clean_division (sub_divisions subtitle);
  chapters ← mapM clean_chapter (sub_chapters subtitle);
  Some (mkSubtitle (sub_number subtitle) (sub_title subtitle)
          (sub_start_page subtitle) (sub_end_page subtitle)
          (sub_intro_lines subtitle) divisions chapters).

(** The body of the loop of [clean_title] after [clean_subtitle(subtitle)],
    on the pair of its local variables [cleaned] and [subtitle_map]. *)
Definition dedup_subtitle_step (st : list Subtitle * gmap string nat)
    (subtitle : Subtitle) : option (list Subtitle * gmap string nat) :=
  let '(cleaned, subtitle_map) := st in
  let key := lower (sub_number subtitle) in
  match subtitle_map !! key with
  | Some idx =>
      existing ← cleaned !! idx;
      if should_replace_subtitle existing subtitle
      then Some (<[idx := subtitle]> cleaned, subtitle_map)
      else Some (cleaned, subtitle_map)
  | None => Some (cleaned ++ [subtitle], <[key := length cleaned]> subtitle_map)
  end.

Definition clean_title_step (st : list Subtitle * gmap string nat)
    (subtitle : Subtitle) : option (list Subtitle * gmap string nat) :=
  subtitle ← clean_subtitle subtitle;
  dedup_subtitle_step st subtitle.

(** [cleaned.sort(key=lambda s: s.start_page)]: Python's sort is stable, as
    is insertion after the equal keys. *)
Fixpoint insert_by_start_page (s : Subtitle) (l : list Subtitle) : list Subtitle :=
  match l with
  | [] => [s]
  | x :: l' =>
      if (sub_start_page x <=? sub_start_page s)%Z
      then x :: insert_by_start_page s l'
      else s :: l
  end.

Definition sort_by_start_page (l : list Subtitle) : list Subtitle :=
  foldl (λ acc s, insert_by_start_page s acc) [] l.

Definition clean_title (t : TitleData) : option TitleData :=
  '(cleaned, _) ← foldlM clean_title_step ([], ∅) (subtitles t);
  Some (title_set_subtitles t (sort_by_start_page cleaned)).

Definition build_title_structure (lines : list (option string * Z))
    (title_label : string) (title_number : Z) (start_page end_page : Z)
    : option TitleData :=
  clean_title (raw_title lines title_label title_number start_page end_page).

(** ** Citation normalisation: [build_full_citation]
    ([src/data_processing/build_ground_truth.py]) *)

(** [not section_citation] holds of [None] and of the empty string.
    [re.sub(r"^0+", "", citation)] drops the leading zeros. *)
Definition build_full_citation (title_number : Z)
    (section_citation : option string) : option string :=
  match section_citation with
  | None => None
  | Some EmptyString => None
  | Some section_citation =>
      let citation := strip section_citation in
      if startswith (lower citation) "smc"
         || startswith (lower citation) "title"
         || startswith (lower citation) "chapter"
      then Some citation
      else
        let normalized := (span (λ c, Ascii.eqb c "0") citation).2 in
        Some ("SMC " +:+ normalized)
  end.

(** * Specification-side definitions *)

(** ** Citation normalisation as the specification words it *)

(** The citation normaliser of the specification: absent for an absent
    citation, the citation itself when it starts (ignoring case) with
    ["smc"], ["title"] or ["chapter"], and otherwise ["SMC "] before the
    citation without its leading zeros. *)
Definition build_full_citation_spec (section_citation : option string)
    : option string :=
  match section_citation with
  | None => None
  | Some citation =>
      if startswith (lower citation) "smc"
         || startswith (lower citation) "title"
         || startswith (lower citation) "chapter"
      then Some citation
      else Some ("SMC " +:+ (span (λ c, Ascii.eqb c "0") citation).2)
  end.

(** [s] starts, ignoring case, with one of the three known prefixes. *)
Definition known_prefix (s : string) : Prop :=
  ∃ p r, p ∈ ["smc"; "title"; "chapter"] ∧ lower s = p +:+ r.

(** [k] zeros. *)
Fixpoint zeros (k : nat) : string :=
  match k with
  | O => ""
  | S k' => String "0" (zeros k')
  end.

Definition starts_with_zero (s : string) : Prop :=
  ∃ r, s = String "0" r.

(** ** The builder seen from outside *)

(** The document preface while the builder runs. *)
Definition preface (b : Builder) : list string := preface_lines (title b).

(** The document the builder yields when the stream goes on with [lines]
    and then ends. *)
Definition finish (pats : HeadingPatterns) (b : Builder)
    (lines : list (option string * Z)) : option TitleData :=
  clean_title (title (finalize_subtitle (run_lines pats b lines))).

(** ** Strings made of one class of characters *)

Fixpoint all_chars (p : ascii → bool) (s : string) : bool :=
  match s with
  | EmptyString => true
  | String c s' => p c && all_chars p s'
  end.

(** The characters a match of the hyphen pattern still has to drop are at
    hand and are white space. *)
Fixpoint skip_ok (skip : nat) (s : string) : Prop :=
  match skip, s with
  | O, _ => True
  | S k, String c s' => Char.is_space c = true ∧ skip_ok k s'
  | S _, EmptyString => False
  end.

(** ** Deduplication, seen per group

    The two loops of [clean_title] have one shape: a list of kept
    candidates, a dictionary from the key of a candidate to its position in
    that list, and a test that tells whether a new candidate replaces the
    kept one of its key. *)

Section Dedup.
Context {A : Type} (key : A → string) (should_replace : A → A → bool).

Definition dedup_step (st : list A * gmap string nat) (x : A)
    : option (list A * gmap string nat) :=
  let '(kept, index) := st in
  match index !! key x with
  | Some idx =>
      existing ← kept !! idx;
      if should_replace existing x
      then Some (<[idx := x]> kept, index)
      else Some (kept, index)
  | None => Some (kept ++ [x], <[key x := length kept]> index)
  end.

(** The kept candidate of a group after one more candidate [x] of that
    group. *)
Definition choose (kept : option A) (x : A) : A :=
  match kept with
  | Some existing => if should_replace existing x then x else existing
  | None => x
  end.

(** The candidate of key [k] that is kept after the candidates [l], in
    their order, starting from [kept]. *)
Definition survivor_from (kept : option A) (k : string) (l : list A)
    : option A :=
  foldl (λ o x, if decide (key x = k) then Some (choose o x) else o) kept l.

Definition survivor (k : string) (l : list A) : option A :=
  survivor_from None k l.

(** The dictionary knows exactly the keys of the kept candidates, each at
    its position. *)
Definition dedup_inv (st : list A * gmap string nat) : Prop :=
  ∀ k i, st.2 !! k = Some i ↔ ∃ x, st.1 !! i = Some x ∧ key x = k.

Definition lookup_key (st : list A * gmap string nat) (k : string)
    : option A :=
  st.2 !! k ≫= λ i, st.1 !! i.

(** [m] wins against [x] wherever the two meet: it replaces [x], and [x]
    does not replace it. *)
Definition beats (m x : A) : Prop :=
  should_replace x m = true ∧ should_replace m x = false.

(** Every group of [l] has a candidate that beats all the others of the
    group. *)
Definition has_winner (l : list A) : Prop :=
  ∀ x, x ∈ l → ∃ m, m ∈ l ∧ key m = key x
    ∧ ∀ y, y ∈ l → key y = key x → y = m ∨ beats m y.
End Dedup.

(** [subtitle.number.lower()], the key of a Subtitle. *)
Definition subtitle_key (s : Subtitle) : string := lower (sub_number s).

(** The preference of the specification between two Sections of one
    citation, as a strict order: a body before no body, then more body
    lines, then the larger [end_page]. *)
Definition section_preferred_spec (a b : Section) : bool :=
  if has_body a && negb (has_body b) then true
  else if eqb (has_body a) (has_body b) then
    if (length (sec_body_lines b) <? length (sec_body_lines a))%nat then true
    else if (length (sec_body_lines a) =? length (sec_body_lines b))%nat
    then (sec_end_page b <? sec_end_page a)%Z
    else false
  else false.

(** The cleaning functions never raise (shown below); their results as
    total functions. *)
Definition cleaned_chapter (c : Chapter) : Chapter :=
  default c (clean_chapter c).

Definition cleaned_division (d : Division) : Division :=
  default d (clean_division d).

Definition cleaned_subtitle (s : Subtitle) : Subtitle :=
  default s (clean_subtitle s).

(** ** Properties of all the nodes of a tree

    A property of the nodes is given per level, on what identifies a node
    (its citation or number) and on its page range. *)

Record NodePred := {
  on_sec : string → Z → Z → Prop;
  on_ch : string → Z → Z → Prop;
  on_div : string → Z → Z → Prop;
  on_sub : string → Z → Z → Prop
}.

Definition sec_ok (P : NodePred) (s : Section) : Prop :=
  on_sec P (sec_citation s) (sec_start_page s) (sec_end_page s).

Definition ch_ok (P : NodePred) (c : Chapter) : Prop :=
  on_ch P (ch_citation c) (ch_start_page c) (ch_end_page c)
  ∧ Forall (sec_ok P) (ch_sections c).

Definition div_ok (P : NodePred) (d : Division) : Prop :=
  on_div P (div_number d) (div_start_page d) (div_end_page d)
  ∧ Forall (ch_ok P) (div_chapters d).

Definition sub_ok (P : NodePred) (s : Subtitle) : Prop :=
  on_sub P (sub_number s) (sub_start_page s) (sub_end_page s)
  ∧ Forall (div_ok P) (sub_divisions s)
  ∧ Forall (ch_ok P) (sub_chapters s).

Definition title_ok (P : NodePred) (t : TitleData) : Prop :=
  Forall (sub_ok P) (subtitles t).

Definition opt_ok {X} (Q : X → Prop) (o : option X) : Prop :=
  match o with Some x => Q x | None => True end.

(** All the nodes the builder holds: those attached to the document and
    those in the four slots, with what is attached to them. *)
Definition builder_ok (P : NodePred) (b : Builder) : Prop :=
  title_ok P (title b)
  ∧ opt_ok (sub_ok P) (current_subtitle b)
  ∧ opt_ok (div_ok P) (current_division b)
  ∧ opt_ok (ch_ok P) (current_chapter b)
  ∧ opt_ok (sec_ok P) (current_section b).

(** The Sections of a document. *)
Definition division_sections (d : Division) : list Section :=
  div_chapters d ≫= ch_sections.

Definition subtitle_sections (s : Subtitle) : list Section :=
  (sub_divisions s ≫= division_sections) ++ (sub_chapters s ≫= ch_sections).

Definition title_sections (t : TitleData) : list Section :=
  subtitles t ≫= subtitle_sections.

(** ** The shape of a Section citation *)

(** A non-empty run of [[0-9A-Za-z]]. *)
Definition segment (g : string) : Prop :=
  g ≠ "" ∧ all_chars Char.is_alnum g = true.

(** [str(title_number)], a dot, and at least two segments separated by
    dots. *)
Definition citation_shape (title_number : Z) (citation : string) : Prop :=
  ∃ seg1 seg2 more,
    segment seg1 ∧ segment seg2 ∧ Forall segment more
    ∧ citation
      = pretty title_number +:+ "." +:+ seg1 +:+ "." +:+ seg2
        +:+ Re.dotted_text more.

Definition citation_pred (title_number : Z) : NodePred :=
  {| on_sec := λ citation _ _, citation_shape title_number citation;
     on_ch := λ _ _ _, True;
     on_div := λ _ _ _, True;
     on_sub := λ _ _ _, True |}.

(** ** Page ranges *)

(** The page numbers of a stream do not decrease. *)
Fixpoint nondecreasing (pages : list Z) : bool :=
  match pages with
  | p :: (q :: _) as rest => (p <=? q)%Z && nondecreasing rest
  | _ => true
  end.

(** [start_page ≤ end_page ≤ p] at every level. *)
Definition pages_pred (p : Z) : NodePred :=
  {| on_sec := λ _ s e, (s ≤ e ≤ p)%Z;
     on_ch := λ _ s e, (s ≤ e ≤ p)%Z;
     on_div := λ _ s e, (s ≤ e ≤ p)%Z;
     on_sub := λ _ s e, (s ≤ e ≤ p)%Z |}.

(** [start_page ≤ end_page] at every level. *)
Definition ordered_pred : NodePred :=
  {| on_sec := λ _ s e, (s ≤ e)%Z;
     on_ch := λ _ s e, (s ≤ e)%Z;
     on_div := λ _ s e, (s ≤ e)%Z;
     on_sub := λ _ s e, (s ≤ e)%Z |}.

(** A list of children only grows at its end, and the children it has
    are in relation [R] with what they were. *)
Inductive list_grows {X} (R : X → X → Prop) : list X → list X → Prop :=
  | list_grows_nil l' : list_grows R [] l'
  | list_grows_cons x y l l' :
      R x y → list_grows R l l' → list_grows R (x :: l) (y :: l').

(** The same node later in the parse: same identity and [start_page], an
    [end_page] that did not shrink, and children that are the same nodes
    later, possibly followed by new ones. *)
Definition sec_grows (a b : Section) : Prop :=
  sec_citation a = sec_citation b
  ∧ sec_start_page a = sec_start_page b
  ∧ (sec_end_page a ≤ sec_end_page b)%Z.

Definition ch_grows (a b : Chapter) : Prop :=
  ch_citation a = ch_citation b
  ∧ ch_start_page a = ch_start_page b
  ∧ (ch_end_page a ≤ ch_end_page b)%Z
  ∧ list_grows sec_grows (ch_sections a) (ch_sections b).

Definition div_grows (a b : Division) : Prop :=
  div_number a = div_number b
  ∧ div_start_page a = div_start_page b
  ∧ (div_end_page a ≤ div_end_page b)%Z
  ∧ list_grows ch_grows (div_chapters a) (div_chapters b).

Definition sub_grows (a b : Subtitle) : Prop :=
  sub_number a = sub_number b
  ∧ sub_start_page a = sub_start_page b
  ∧ (sub_end_page a ≤ sub_end_page b)%Z
  ∧ list_grows div_grows (sub_divisions a) (sub_divisions b)
  ∧ list_grows ch_grows (sub_chapters a) (sub_chapters b).

(** The tree the builder would yield if the stream ended now: what
    [finalize_subtitle()] attaches to the document. *)
Definition view (b : Builder) : list Subtitle :=
  subtitles (title (finalize_subtitle b)).

(** What a slot holds after a line, if anything, is a node opened by that
    line (it starts and ends at the page of the line) or the node the slot
    held before, later. *)
Definition slot_grows {X} (R : X → X → Prop) (start_of end_of : X → Z)
    (page : Z) (o o' : option X) : Prop :=
  match o' with
  | None => True
  | Some a' =>
      (start_of a' = page ∧ end_of a' = page)
      ∨ (∃ a, o = Some a ∧ R a a')
  end.

Definition slots_grow (page : Z) (b b' : Builder) : Prop :=
  slot_grows sub_grows sub_start_page sub_end_page page
    (current_subtitle b) (current_subtitle b')
  ∧ slot_grows div_grows div_start_page div_end_page page
      (current_division b) (current_division b')
  ∧ slot_grows ch_grows ch_start_page ch_end_page page
      (current_chapter b) (current_chapter b')
  ∧ slot_grows sec_grows sec_start_page sec_end_page page
      (current_section b) (current_section b').

(** * The rest of the pipeline *)

(** ** LineNormalizer: [iter_lines_with_pages] *)

(** [s.split(sep)] for a separator of one character: the pieces between the
    separators, of which there is always at least one. *)
Fixpoint split_on (sep : ascii) (s : string) : list string :=
  match s with
  | EmptyString => [EmptyString]
  | String c s' =>
      if Ascii.eqb c sep then EmptyString :: split_on sep s'
      else match split_on sep s' with
           | piece :: pieces => String c piece :: pieces
           | [] => [String c EmptyString]
           end
  end.

(** [FOOTER_PATTERN.match]:
    [^\d{2}-\d+(?:\.\d+)?\s*\(Seattle\s+\d+-\d+\)$].  The optional group is
    taken when a dot and a digit follow; when it is not, a dot cannot be
    matched by what comes next, so no other attempt succeeds. *)
Definition FOOTER_PATTERN (s : string) : bool :=
  match s with
  | String a (String b r) =>
      Char.is_digit a && Char.is_digit b &&
      bool_decide (is_Some (
        '(_, r) ← Re.literal false "-" r;
        '(_, r) ← Re.class1 Char.is_digit r;
        let r :=
          match Re.literal false "." r ≫= λ '(_, r'), Re.class1 Char.is_digit r' with
          | Some (_, r') => r'
          | None => r
          end in
        '(_, r) ← Re.literal false "(Seattle" (Re.spaces r);
        r ← Re.spaces1 r;
        '(_, r) ← Re.class1 Char.is_digit r;
        '(_, r) ← Re.literal false "-" r;
        '(_, r) ← Re.class1 Char.is_digit r;
        '(_, r) ← Re.literal false ")" r;
        match r with
        | EmptyString => Some ()
        | String c EmptyString => if Char.is_newline c then Some () else None
        | _ => None
        end))
  | _ => false
  end.

(** The inner loop of [iter_lines_with_pages], on the lines of one page. *)
Definition page_lines (page_number : Z) (raw_lines : list string)
    : list (option string * Z) :=
  raw_lines ≫= λ raw_line,
    if is_empty (strip raw_line) then [(None, page_number)]
    else
      let line := rstrip raw_line in
      if FOOTER_PATTERN (strip line) then []
      else [(Some line, page_number)].

(** The generator, as the list of what it yields. *)
Definition iter_lines_with_pages (pages : list (Z * string))
    : list (option string * Z) :=
  pages ≫= λ '(page_number, raw_text),
    page_lines page_number
      (split_on "010" (normalize_page_text raw_text)).

(** ** The page-range locator: [locate_title_range] and [extract_pages]

    [PdfReader] is a library class.  What the program uses of a reader is
    the sequence [reader.pages] and, of each page, the result of
    [extract_text()], a string or [None]: a reader is the list of these
    results.  Indices are the natural numbers [enumerate] and [range]
    produce from it. *)

Abbreviation Reader := (list (option string)).

(** [re.compile(rf"^Title\s+{number}\b", re.IGNORECASE).match]: the number
    is put in the pattern as [str] prints it. *)
Definition title_page_pattern (number : Z) (text : string) : bool :=
  match
    '(_, r) ← Re.literal true "Title" text;
    r ← Re.spaces1 r;
    '(_, r) ← Re.literal true (pretty number) r;
    Some (Re.at_word_end r)
  with
  | Some b => b
  | None => false
  end.

(** [(page.extract_text() or "").strip()] *)
Definition page_text (page : option string) : string :=
  strip (default "" page).

(** The loop of [locate_title_range] from page [index] on, with the
    variables [start_index] and [end_index]; the result is their value when
    the loop is left, at the end of the pages or by [break]. *)
Fixpoint locate_loop (title_number : Z) (next_title_number : option Z)
    (index : nat) (start_index : option nat) (end_index : nat)
    (pages : list (option string)) : option nat * nat :=
  match pages with
  | [] => (start_index, end_index)
  | page :: rest =>
      let text := page_text page in
      match start_index with
      | None =>
          if title_page_pattern title_number text
          then locate_loop title_number next_title_number (S index)
                 (Some index) end_index rest
          else locate_loop title_number next_title_number (S index)
                 None end_index rest
      | Some _ =>
          match next_title_number with
          | Some next =>
              if title_page_pattern next text then (start_index, index)
              else locate_loop title_number next_title_number (S index)
                     start_index end_index rest
          | None =>
              locate_loop title_number next_title_number (S index)
                start_index end_index rest
          end
      end
  end.

(** What the program raises. *)
Inductive Error := ValueError | IndexError.

(** [locate_title_range]: [ValueError] when no page starts the title. *)
Definition locate_title_range (reader : Reader) (title_number : Z)
    (next_title_number : option Z) : Error + nat * nat :=
  match locate_loop title_number next_title_number 0 None (length reader)
          reader with
  | (Some start_index, end_index) => inr (start_index, end_index)
  | (None, _) => inl ValueError
  end.

(** [extract_pages]: [reader.pages[index]] raises [IndexError] past the
    last page. *)
Definition extract_pages (reader : Reader) (start end_ : nat)
    : Error + list (Z * string) :=
  match
    mapM (λ index,
            page ← reader !! index;
            Some (Z.of_nat (index + 1), default "" page))
         (seq start (end_ - start))
  with
  | Some pages => inr pages
  | None => inl IndexError
  end.

(** The [title] that [main] builds, from the reader and the arguments
    [--title], [--next-title] and [--label] (the last two optional).
    [pages[0]] and [pages[-1]] raise [IndexError] on an empty list. *)
Definition main_title (reader : Reader) (title_number : Z)
    (next_title : option Z) (label_arg : option string) : Error + TitleData :=
  let next_title_number := default (title_number + 1)%Z next_title in
  match locate_title_range reader title_number (Some next_title_number) with
  | inl e => inl e
  | inr (start_idx, end_idx) =>
      match extract_pages reader start_idx end_idx with
      | inl e => inl e
      | inr pages =>
          let label :=
            match label_arg with
            | Some (String c l) => String c l
            | _ => "Title " +:+ pretty title_number
            end in
          match head pages, last pages with
          | Some first, Some final =>
              match build_title_structure (iter_lines_with_pages pages)
                      label title_number first.1 final.1 with
              | Some title => inr title
              | None => inl IndexError
              end
          | _, _ => inl IndexError
          end
      end
  end.

(** [data = title.to_dict()], what [main] writes. *)
Definition main_document (reader : Reader) (title_number : Z)
    (next_title : option Z) (label_arg : option string) : Error + TitleDict :=
  match main_title reader title_number next_title label_arg with
  | inl e => inl e
  | inr title => inr (TitleData_to_dict title)
  end.

(** ** ChunkBuilder ([src/data_processing/build_ground_truth.py]) *)

(** [s.strip(chars)] for the characters that satisfy [p]. *)
Definition strip_by (p : ascii → bool) (s : string) : string :=
  rstrip_by p (span p s).2.

(** [re.sub(r"[^0-9a-zA-Z]+", "-", s)]: every maximal run of characters
    outside the class becomes one hyphen; [in_run] tells that the hyphen of
    the current run is written. *)
Fixpoint squeeze_non_alnum (in_run : bool) (s : string) : string :=
  match s with
  | EmptyString => EmptyString
  | String c s' =>
      if Char.is_alnum c then String c (squeeze_non_alnum false s')
      else if in_run then squeeze_non_alnum true s'
      else String "-" (squeeze_non_alnum true s')
  end.

Definition is_hyphen (c : ascii) : bool := Ascii.eqb c "-".

(** [sanitize_citation]: [not citation] holds of [None] and of the empty
    string, [x or "unknown"] takes ["unknown"] for an empty [x]. *)
Definition sanitize_citation (citation : option string) : string :=
  match citation with
  | None | Some EmptyString => "unknown"
  | Some citation =>
      match lower (strip_by is_hyphen (squeeze_non_alnum false citation)) with
      | EmptyString => "unknown"
      | slug => slug
      end
  end.

(** [build_chunk_id]; [str(title_number)] is [pretty]. *)
Definition build_chunk_id (title_number : Z) (chapter_citation : option string)
    (suffix : string) : string :=
  let chapter_part :=
    match chapter_citation with
    | None | Some EmptyString => "unknown"
    | Some _ => sanitize_citation chapter_citation
    end in
  "smc-" +:+ pretty title_number +:+ "-" +:+ chapter_part +:+ "-" +:+ suffix.

(** [s.split()]: the maximal runs of characters that are not white space. *)
Fixpoint py_split (s : string) : list string :=
  match s with
  | EmptyString => []
  | String c s' =>
      if Char.is_space c then py_split s'
      else
        match s' with
        | EmptyString => [String c EmptyString]
        | String d _ =>
            if Char.is_space d then String c EmptyString :: py_split s'
            else
              match py_split s' with
              | word :: words => String c word :: words
              | [] => [String c EmptyString]
              end
        end
  end.

(** [len(s)] as an [int]. *)
Definition len (s : string) : Z := Z.of_nat (String.length s).

(** The state of the two packing loops: [chunks], [current] and
    [current_len]. *)
Definition Packing : Type := list string * list string * Z.

(** [if current: chunks.append(sep.join(current))] *)
Definition flush (sep : string) (chunks current : list string) : list string :=
  match current with
  | [] => chunks
  | _ => chunks ++ [join sep current]
  end.

(** The body of the loop of [split_long_paragraph]; the test
    [current_len + additional > max_chars and current] fails on an empty
    [current]. *)
Definition long_paragraph_step (max_chars : Z) (st : Packing) (word : string)
    : Packing :=
  let '(chunks, current, current_len) := st in
  let additional :=
    (len word + match current with [] => 0 | _ => 1 end)%Z in
  match current with
  | _ :: _ =>
      if (max_chars <? current_len + additional)%Z
      then (chunks ++ [join " " current], [word], len word)
      else (chunks, current ++ [word], (current_len + additional)%Z)
  | [] => (chunks, current ++ [word], (current_len + additional)%Z)
  end.

Definition split_long_paragraph (paragraph : string) (max_chars : Z)
    : list string :=
  let '(chunks, current, _) :=
    foldl (long_paragraph_step max_chars) ([], [], 0%Z) (py_split paragraph) in
  flush " " chunks current.

(** The end of a match of [\s*\n] at the start of [s], taken as the regex
    engine does: the white space is taken as far as it goes and given back
    up to its last line feed.  [None] when it holds no line feed. *)
Fixpoint blank_gap (s : string) : option nat :=
  match s with
  | EmptyString => None
  | String c s' =>
      if Char.is_space c then
        match blank_gap s' with
        | Some n => Some (S n)
        | None => if Ascii.eqb c "010" then Some 1 else None
        end
      else None
  end.

(** [re.split(r"\n\s*\n", s)]: a match starts at a line feed that
    [blank_gap] can follow; [skip] counts the characters of the match that
    are still to be dropped.  There is always at least one piece. *)
Fixpoint split_blank_lines (skip : nat) (s : string) : list string :=
  match s with
  | EmptyString => [EmptyString]
  | String c s' =>
      match skip with
      | S k => split_blank_lines k s'
      | O =>
          match (if Ascii.eqb c "010" then blank_gap s' else None) with
          | Some n => EmptyString :: split_blank_lines n s'
          | None =>
              match split_blank_lines 0 s' with
              | piece :: pieces => String c piece :: pieces
              | [] => [String c EmptyString]
              end
          end
      end
  end.

(** The list comprehension at the head of [split_text]. *)
Definition paragraphs_of (text : string) : list string :=
  strip <$> filter (λ para, is_empty (strip para) = false)
              (split_blank_lines 0 text).

(** The body of the loop of [split_text]. *)
Definition text_step (max_chars : Z) (st : Packing) (paragraph : string)
    : Packing :=
  let '(chunks, current, current_len) := st in
  if (max_chars <? len paragraph)%Z then
    (flush (String "010" (String "010" "")) chunks current
       ++ split_long_paragraph paragraph max_chars, [], 0%Z)
  else
    let projected :=
      (current_len + match current with [] => 0 | _ => 2 end
       + len paragraph)%Z in
    if (projected <=? max_chars)%Z
    then (chunks, current ++ [paragraph], projected)
    else (flush (String "010" (String "010" "")) chunks current,
          [paragraph], len paragraph).

Definition split_text (text : string) (max_chars : Z) : list string :=
  let '(chunks, current, _) :=
    foldl (text_step max_chars) ([], [], 0%Z) (paragraphs_of text) in
  flush (String "010" (String "010" "")) chunks current.

(** The dataclass [ChunkRecord]. *)
Record ChunkRecord := mkChunkRecord {
  cr_chunk_id : string;
  cr_chunk_type : string;
  cr_text : string;
  cr_source_path : string;
  cr_title_number : Z;
  cr_title_label : string;
  cr_subtitle_number : option string;
  cr_subtitle_title : option string;
  cr_division_number : option string;
  cr_division_title : option string;
  cr_chapter_citation : string;
  cr_chapter_title : string;
  cr_section_citation : option string;
  cr_section_heading : option string;
  cr_start_page : option Z;
  cr_end_page : option Z
}.

(** The two entries that [to_json] computes for the payload, beside the
    fields themselves. *)
Definition full_citation (r : ChunkRecord) : option string :=
  build_full_citation (cr_title_number r) (cr_section_citation r).

Definition char_count (r : ChunkRecord) : Z := len (cr_text r).

(** [chapter_to_chunks], on a chapter as [Chapter.to_dict] writes it (every
    key is there, so no [get] falls back on its default); the generator as
    the list of what it yields. *)
Definition chapter_to_chunks (title_number : Z) (title_label : string)
    (subtitle_number subtitle_title division_number division_title
       : option string)
    (chapter : ChapterDict) (source_path : string) (max_chars : Z)
    : list ChunkRecord :=
  let chapter_citation := cd_citation chapter in
  let chapter_title := cd_title chapter in
  let intro_text := strip (cd_intro chapter) in
  (if is_empty intro_text then []
   else
     imap (λ idx chunk_text,
       mkChunkRecord
         (build_chunk_id title_number (Some chapter_citation)
            ("chapter-intro-" +:+ pretty idx))
         "chapter_intro" chunk_text source_path title_number title_label
         subtitle_number subtitle_title division_number division_title
         chapter_citation chapter_title None None
         (Some (cd_start_page chapter)) (Some (cd_end_page chapter)))
       (split_text intro_text max_chars))
  ++ (cd_sections chapter ≫= λ section,
        let section_text := strip (sd_text section) in
        if is_empty section_text then []
        else
          imap (λ idx chunk_text,
            mkChunkRecord
              (build_chunk_id title_number (Some chapter_citation)
                 ("section-" +:+ sanitize_citation (Some (sd_citation section))
                  +:+ "-" +:+ pretty idx))
              "section" chunk_text source_path title_number title_label
              subtitle_number subtitle_title division_number division_title
              chapter_citation chapter_title
              (Some (sd_citation section)) (Some (sd_heading section))
              (Some (sd_start_page section)) (Some (sd_end_page section)))
            (split_text section_text max_chars)).

(** [chunk_sections], on a document as [TitleData.to_dict] writes it: for
    every subtitle its own chapters, then those of its divisions. *)
Definition chunk_sections (title_data : TitleDict) (path : string)
    (max_chars : Z) : list ChunkRecord :=
  let title_number := td_number title_data in
  let title_label :=
    match strip (td_label title_data) with
    | EmptyString => "Title " +:+ pretty title_number
    | label => label
    end in
  td_subtitles title_data ≫= λ subtitle,
    let subtitle_number := Some (ud_number subtitle) in
    let subtitle_title := Some (ud_title subtitle) in
    (ud_chapters subtitle ≫= λ chapter,
       chapter_to_chunks title_number title_label subtitle_number
         subtitle_title None None chapter path max_chars)
    ++ (ud_divisions subtitle ≫= λ division,
          dd_chapters division ≫= λ chapter,
            chapter_to_chunks title_number title_label subtitle_number
              subtitle_title (Some (dd_number division))
              (Some (dd_title division)) chapter path max_chars).

(** The words of a text: what [split()] gives. *)
Definition word (w : string) : Prop :=
  w ≠ "" ∧ all_chars (λ c, negb (Char.is_space c)) w = true.

(** What [sanitize_citation] returns: lower-case letters, digits and single
    hyphens, none of them at an end. *)
Fixpoint single_hyphens (s : string) : bool :=
  match s with
  | String a ((String b _) as s') =>
      negb (is_hyphen a && is_hyphen b) && single_hyphens s'
  | _ => true
  end.

Definition slug_char (c : ascii) : bool :=
  Char.is_digit c || Char.is_lower c || is_hyphen c.

Definition slug (s : string) : Prop :=
  s ≠ ""
  ∧ all_chars slug_char s = true
  ∧ single_hyphens s = true
  ∧ strip_by is_hyphen s = s.

(** ** Predicates for the further properties *)

(** The fields of the document that the arguments of
    [build_title_structure] set. *)
Definition title_header (t : TitleData) : string * Z * Z * Z :=
  (label t, number t, start_page t, end_page t).

(** [lo ≤ start_page ≤ end_page ≤ hi] at every level. *)
Definition range_pred (lo hi : Z) : NodePred :=
  {| on_sec := λ _ s e, (lo ≤ s ∧ s ≤ e ∧ e ≤ hi)%Z;
     on_ch := λ _ s e, (lo ≤ s ∧ s ≤ e ∧ e ≤ hi)%Z;
     on_div := λ _ s e, (lo ≤ s ∧ s ≤ e ∧ e ≤ hi)%Z;
     on_sub := λ _ s e, (lo ≤ s ∧ s ≤ e ∧ e ≤ hi)%Z |}.

(** A property of every line of every text buffer: the body of a Section,
    the intro of a Chapter, a Division or a Subtitle, and the preface of
    the document. *)
Definition sec_lines (Q : string → Prop) (s : Section) : Prop :=
  Forall Q (sec_body_lines s).

Definition ch_lines (Q : string → Prop) (c : Chapter) : Prop :=
  Forall Q (ch_intro_lines c) ∧ Forall (sec_lines Q) (ch_sections c).

Definition div_lines (Q : string → Prop) (d : Division) : Prop :=
  Forall Q (div_intro_lines d) ∧ Forall (ch_lines Q) (div_chapters d).

Definition sub_lines (Q : string → Prop) (s : Subtitle) : Prop :=
  Forall Q (sub_intro_lines s)
  ∧ Forall (div_lines Q) (sub_divisions s)
  ∧ Forall (ch_lines Q) (sub_chapters s).

Definition title_lines (Q : string → Prop) (t : TitleData) : Prop :=
  Forall Q (preface_lines t) ∧ Forall (sub_lines Q) (subtitles t).

Definition builder_lines (Q : string → Prop) (b : Builder) : Prop :=
  title_lines Q (title b)
  ∧ opt_ok (sub_lines Q) (current_subtitle b)
  ∧ opt_ok (div_lines Q) (current_division b)
  ∧ opt_ok (ch_lines Q) (current_chapter b)
  ∧ opt_ok (sec_lines Q) (current_section b).

(** The slots are nested as the levels are: a Section is open only in an
    open Chapter, a Division only in an open Subtitle. *)
Definition slots_nested (b : Builder) : Prop :=
  (is_Some (current_section b) → is_Some (current_chapter b))
  ∧ (is_Some (current_division b) → is_Some (current_subtitle b)).

(** What the cleaning pass is to establish: no two Sections of a Chapter
    with one citation, no two Subtitles with one key, and the Subtitles in
    the order of their [start_page]. *)
Definition ch_distinct (c : Chapter) : Prop :=
  NoDup (sec_citation <$> ch_sections c).

Definition sub_distinct (s : Subtitle) : Prop :=
  Forall (λ d, Forall ch_distinct (div_chapters d)) (sub_divisions s)
  ∧ Forall ch_distinct (sub_chapters s).

Definition by_start_page (a b : Subtitle) : Prop :=
  (sub_start_page a ≤ sub_start_page b)%Z.

Definition title_clean (t : TitleData) : Prop :=
  NoDup (subtitle_key <$> subtitles t)
  ∧ StronglySorted by_start_page (subtitles t)
  ∧ Forall sub_distinct (subtitles t).

(** A chunk of [split_long_paragraph]: words with single spaces between
    them, within [max_chars] unless it is one word. *)
Definition word_chunk (max_chars : Z) (chunk : string) : Prop :=
  chunk = join " " (py_split chunk)
  ∧ py_split chunk ≠ []
  ∧ ((len chunk ≤ max_chars)%Z ∨ word chunk).

(** A chunk of [split_text]: not blank, within [max_chars] unless it is one
    word. *)
Definition text_chunk (max_chars : Z) (chunk : string) : Prop :=
  py_split chunk ≠ [] ∧ ((len chunk ≤ max_chars)%Z ∨ word chunk).

(** What the loop of [split_long_paragraph] keeps, after the words
    [seen]. *)
Definition long_paragraph_inv (max_chars : Z) (seen : list string)
    (st : Packing) : Prop :=
  let '(chunks, current, current_len) := st in
  Forall word current
  ∧ current_len = match current with [] => 0%Z | _ => len (join " " current) end
  ∧ match current with
    | [] | [_] => True
    | _ => (current_len ≤ max_chars)%Z
    end
  ∧ Forall (word_chunk max_chars) chunks
  ∧ concat (py_split <$> chunks) ++ current = seen.

(** What the loop of [split_text] keeps, after the paragraphs [seen]. *)
Definition text_inv (max_chars : Z) (seen : list string) (st : Packing)
    : Prop :=
  let '(chunks, current, current_len) := st in
  Forall (λ paragraph, py_split paragraph ≠ []) current
  ∧ current_len
    = match current with
      | [] => 0%Z
      | _ => len (join (String "010" (String "010" "")) current)
      end
  ∧ (current = [] ∨ (current_len ≤ max_chars)%Z)
  ∧ Forall (text_chunk max_chars) chunks
  ∧ concat (py_split <$> chunks) ++ concat (py_split <$> current)
    = concat (py_split <$> seen).

(** The words of the texts that [chapter_to_chunks] reads. *)
Definition chapter_words (chapter : ChapterDict) : list string :=
  py_split (cd_intro chapter)
  ++ concat (py_split ∘ sd_text <$> cd_sections chapter).

Definition title_words (title_data : TitleDict) : list string :=
  td_subtitles title_data ≫= λ subtitle,
    (ud_chapters subtitle ≫= chapter_words)
    ++ (ud_divisions subtitle ≫= λ division,
          dd_chapters division ≫= chapter_words).

(** The characters of [s] that satisfy [p], in their order. *)
Fixpoint keep_chars (p : ascii → bool) (s : string) : string :=
  match s with
  | EmptyString => EmptyString
  | String c s' => if p c then String c (keep_chars p s') else keep_chars p s'
  end.

(** Neither white space nor a hyphen. *)
Definition is_text_char (c : ascii) : bool :=
  negb (Char.is_space c) && negb (Ascii.eqb c "-").

(** The sanitized citations of the Sections of a chapter that have a text,
    those [chapter_to_chunks] writes into chunk identifiers. *)
Definition section_slugs (chapter : ChapterDict) : list string :=
  (λ section, sanitize_citation (Some (sd_citation section)))
  <$> filter (λ section, is_empty (strip (sd_text section)) = false)
        (cd_sections chapter).

(** * Properties *)

(** ** The embedding at work *)

Example parse_subtitle_line_inline :
  parse_subtitle_line "Subtitle I Construction Codes"
  = Some ("Subtitle I", "Construction Codes").
Proof. reflexivity. Qed.

Example parse_subtitle_line_bare :
  parse_subtitle_line "subtitle iva." = Some ("Subtitle IVA", "").
Proof. reflexivity. Qed.

Example parse_subtitle_line_prose :
  parse_subtitle_line "Subtitle I of this title applies" = None
  ∧ parse_subtitle_line "Subtitle foo" = None
  ∧ parse_subtitle_line "Subtitle" = None.
Proof. repeat split; reflexivity. Qed.

Example chapter_patterns_inline :
  chapter_full "23" "Chapter 23.42 Definitions" = Some ("23.42", "Definitions")
  ∧ chapter_short "23" "Chapter 23.42 Definitions" = None.
Proof. split; reflexivity. Qed.

Example chapter_patterns_bare :
  chapter_full "23" "Chapter 23.42A" = None
  ∧ chapter_short "23" "Chapter 23.42A" = Some "23.42A"
  ∧ chapter_short "23" "CHAPTER 23.42A" = None.
Proof. repeat split; reflexivity. Qed.

Example chapter_patterns_other_title :
  chapter_full "23" "Chapter 22.42 Definitions" = None
  ∧ chapter_full "23" "chapter 23.42 Definitions" = Some ("23.42", "Definitions").
Proof. split; reflexivity. Qed.

Example section_pattern_matches :
  section_pattern "23" "23.42.010 Scope." = Some ("23.42.010", "Scope.")
  ∧ section_pattern "23" "23.42.010.A Scope." = Some ("23.42.010.A", "Scope.").
Proof. split; reflexivity. Qed.

Example section_pattern_rejects :
  section_pattern "23" "23.42 Scope." = None
  ∧ section_pattern "23" "23.42.010. Scope." = None
  ∧ section_pattern "23" "23.42.010" = None
  ∧ section_pattern "23" "22.42.010 Scope." = None.
Proof. repeat split; reflexivity. Qed.

Example division_pattern_matches :
  DIVISION_PATTERN "Division 2 Land Use Regulations"
  = Some ("2", "Land Use Regulations")
  ∧ DIVISION_PATTERN "Division II Authority" = None.
Proof. split; reflexivity. Qed.

Example condense_runs : condense (String "a" (String "009" "  b c")) = "a b c".
Proof. reflexivity. Qed.

Example split_ws_2_keeps_tail :
  split_ws_2 " Subtitle  IV   Land  Use " = ["Subtitle"; "IV"; "Land  Use "].
Proof. reflexivity. Qed.

Example normalize_page_text_keeps_hyphen :
  normalize_page_text "single-family - detached" = "single-family - detached".
Proof. reflexivity. Qed.

(** Scenario C of the specification: of a table-of-contents entry without
    body and a populated Section of the same citation, the populated one is
    kept, in either order. *)
Example scenario_section_dedup :
  clean_chapter
    (mkChapter "23.42" "Definitions" 1 2 []
       [ mkSection "23.42.010" "Scope." 1 1 [];
         mkSection "23.42.010" "Scope." 2 2 ["This chapter applies to..."] ])
  = Some (mkChapter "23.42" "Definitions" 1 2 []
       [ mkSection "23.42.010" "Scope." 2 2 ["This chapter applies to..."] ])
  ∧ clean_chapter
      (mkChapter "23.42" "Definitions" 1 2 []
         [ mkSection "23.42.010" "Scope." 2 2 ["This chapter applies to..."];
           mkSection "23.42.010" "Scope." 1 1 [] ])
    = Some (mkChapter "23.42" "Definitions" 1 2 []
         [ mkSection "23.42.010" "Scope." 2 2 ["This chapter applies to..."] ]).
Proof. split; reflexivity. Qed.

(** Divisions, a deferred Chapter title, the ["Sections:"] marker, a
    duplicated Section and a duplicated Subtitle in one stream. *)
Example build_title_structure_divisions :
  TitleData_to_dict <$>
    build_title_structure
      [ (Some "Subtitle I Construction Codes", 1%Z);
        (Some "Division 1 General", 1%Z);
        (Some "Chapter 23.02", 1%Z); (Some "Title and purpose", 1%Z);
        (Some "Sections:", 1%Z); (Some "23.02.010 Title.", 1%Z);
        (Some "23.02.010 Title.", 2%Z); (Some "This is the title.", 2%Z);
        (None, 2%Z); (Some "Subtitle i Construction Codes", 3%Z) ]
      "Title 23" 23 1 3
  = Some (mkTitleDict "Title 23" 23 1 3 ""
      [ mkSubtitleDict "Subtitle I" "Construction Codes" 1 1 ""
          [ mkDivisionDict "1" "General" 1 1 ""
              [ mkChapterDict "23.02" "Title and purpose" 1 1 "Sections:"
                  [ mkSectionDict "23.02.010" "Title." 2 2
                      "This is the title." ] ] ]
          [] ]).
Proof. reflexivity. Qed.

(** ** Strings *)

Lemma app_nil_l_s (s : string) : "" +:+ s = s.
Proof. reflexivity. Qed.

Lemma app_cons_s (c : ascii) (s t : string) :
  String c s +:+ t = String c (s +:+ t).
Proof. reflexivity. Qed.

Lemma app_nil_r_s (s : string) : s +:+ "" = s.
Proof. induction s as [|c s IH]; [done|]. by rewrite app_cons_s, IH. Qed.

Lemma app_assoc_s (s t u : string) : (s +:+ t) +:+ u = s +:+ t +:+ u.
Proof. induction s as [|c s IH]; [done|]. by rewrite !app_cons_s, IH. Qed.

Lemma startswith_spec (s p : string) :
  startswith s p = true ↔ ∃ r, s = p +:+ r.
Proof.
  revert s.
  induction p as [|a p IH]; intros s; cbn [startswith].
  - split; [intros _; by exists s|by destruct s].
  - destruct s as [|b s]; cbn [startswith].
    + split; [done|]. intros [r Hr]. by rewrite app_cons_s in Hr.
    + destruct (Ascii.eqb_spec a b) as [Hab|Hab]; [subst a|]; simpl.
      * rewrite IH. split; intros [r Hr]; exists r.
        -- by rewrite app_cons_s, Hr.
        -- rewrite app_cons_s in Hr. by injection Hr.
      * split; [done|]. intros [r Hr]. rewrite app_cons_s in Hr.
        injection Hr as -> _. done.
Qed.

Lemma span_zeros (s : string) :
  ∃ k, s = zeros k +:+ (span (λ c, Ascii.eqb c "0") s).2
       ∧ ¬ starts_with_zero (span (λ c, Ascii.eqb c "0") s).2.
Proof.
  induction s as [|c s (k & Hk & Hz)]; simpl.
  - exists 0%nat. split; [done|]. by intros [r Hr].
  - destruct (Ascii.eqb_spec c "0") as [Hc|Hc]; [subst c|].
    + destruct (span _ s) as [a b] eqn:Hs. simpl in *.
      exists (S k). split; [|done]. simpl. by rewrite app_cons_s, <-Hk.
    + exists 0%nat. simpl. split; [done|]. intros [r Hr]. by injection Hr.
Qed.

Lemma known_prefix_spec (s : string) :
  startswith (lower s) "smc" || startswith (lower s) "title"
    || startswith (lower s) "chapter" = true ↔ known_prefix s.
Proof.
  unfold known_prefix.
  rewrite !orb_true_iff, !startswith_spec. split.
  - intros [[[r Hr]|[r Hr]]|[r Hr]]; eexists _, r; (split; [|exact Hr]);
      set_solver.
  - intros (p & r & Hp & Hr).
    rewrite !elem_of_cons, elem_of_nil in Hp.
    destruct Hp as [->|[->|[->|[]]]]; eauto.
Qed.

(** ** C7 *)

(** C7, as stated, fails: a present but empty citation gives an absent
    result, and a citation with a known prefix and trailing white space is
    not returned unchanged (it is stripped first). *)
Lemma build_full_citation_differs_from_spec :
  build_full_citation 23 (Some "") = None
  ∧ build_full_citation_spec (Some "") = Some "SMC "
  ∧ startswith (lower "SMC 23.42.010 ") "smc" = true
  ∧ build_full_citation 23 (Some "SMC 23.42.010 ") = Some "SMC 23.42.010"
  ∧ build_full_citation 23 (Some "SMC 23.42.010 ")
    ≠ build_full_citation_spec (Some "SMC 23.42.010 ").
Proof. repeat split; try reflexivity. vm_compute. discriminate. Qed.

(** C7 (amended): [build_full_citation] returns an absent result exactly
    when the citation is absent or the empty string.  Any other citation is
    first stripped of surrounding white space; if the stripped citation
    starts (ignoring case) with ["smc"], ["title"] or ["chapter"] it is
    returned, and otherwise the result is ["SMC "] followed by the stripped
    citation without its leading zeros. *)
Theorem build_full_citation_cases (title_number : Z) :
  build_full_citation title_number None = None
  ∧ build_full_citation title_number (Some "") = None
  ∧ ∀ c s, ∃ r,
      build_full_citation title_number (Some (String c s)) = Some r
      ∧ ((known_prefix (strip (String c s)) ∧ r = strip (String c s))
         ∨ (¬ known_prefix (strip (String c s))
            ∧ ∃ k z, strip (String c s) = zeros k +:+ z
                     ∧ ¬ starts_with_zero z ∧ r = "SMC " +:+ z)).
Proof.
  split; [done|]. split; [done|]. intros c s.
  unfold build_full_citation.
  destruct (startswith _ "smc" || startswith _ "title" || startswith _ "chapter")
    eqn:Hp.
  - eexists. split; [done|]. left. split; [|done]. by apply known_prefix_spec.
  - eexists. split; [done|]. right. split.
    + rewrite <-known_prefix_spec, Hp. done.
    + destruct (span_zeros (strip (String c s))) as (k & Hk & Hz). eauto.
Qed.

(** ** C5 *)

(** C5: scenario A.  With title number 23, and whatever the pages of the
    five lines, the label and the page range, the result holds exactly one
    Subtitle ["Subtitle I"] titled ["Construction Codes"], with no Division
    and exactly one Chapter ["23.42"] titled ["Definitions"], with exactly
    one Section ["23.42.010"] headed ["Scope."] whose serialised text is
    ["This chapter applies to..."].  The blank second line is the absent
    line of the normaliser; an empty string in its place gives the same
    tree, up to the Subtitle's [end_page]. *)
Theorem scenario_basic_nesting (p1 p2 p3 p4 p5 : Z) (title_label : string)
    (first_page last_page : Z) :
  build_title_structure
    [ (Some "Subtitle I Construction Codes", p1); (None, p2);
      (Some "Chapter 23.42 Definitions", p3); (Some "23.42.010 Scope.", p4);
      (Some "This chapter applies to...", p5) ]
    title_label 23 first_page last_page
  = Some (mkTitleData title_label 23 first_page last_page []
      [ mkSubtitle "Subtitle I" "Construction Codes" p1 p2 [""] []
          [ mkChapter "23.42" "Definitions" p3 p3 []
              [ mkSection "23.42.010" "Scope." p4 (Z.max p4 p5)
                  ["This chapter applies to..."] ] ] ])
  ∧ build_title_structure
      [ (Some "Subtitle I Construction Codes", p1); (Some "", p2);
        (Some "Chapter 23.42 Definitions", p3); (Some "23.42.010 Scope.", p4);
        (Some "This chapter applies to...", p5) ]
      title_label 23 first_page last_page
    = Some (mkTitleData title_label 23 first_page last_page []
        [ mkSubtitle "Subtitle I" "Construction Codes" p1 (Z.max p1 p2) [""] []
            [ mkChapter "23.42" "Definitions" p3 p3 []
                [ mkSection "23.42.010" "Scope." p4 (Z.max p4 p5)
                    ["This chapter applies to..."] ] ] ])
  ∧ Section_to_dict
      (mkSection "23.42.010" "Scope." p4 (Z.max p4 p5)
         ["This chapter applies to..."])
    = mkSectionDict "23.42.010" "Scope." p4 (Z.max p4 p5)
        "This chapter applies to...".
Proof. repeat split; reflexivity. Qed.

(** ** C6 *)

(** C6, as stated, fails: a line that matches no heading pattern and is not
    ["sections:"], read while a Subtitle without title is open and no
    Chapter is, is not taken as the title when it starts with the word
    ["Subtitle"] or with ["chapter "].  It is appended to the intro of the
    Subtitle, whose title stays empty; in a document it ends in the intro,
    and a later line can still become the title. *)
Lemma deferred_title_not_taken_for_heading_like_line :
  let pats := compile_heading_patterns 23 in
  let b :=
    mkBuilder (mkTitleData "Title 23" 23 1 9 [] [])
      (Some (mkSubtitle "Subtitle II" "" 1 1 [] [] [])) None None None in
  (parse_subtitle_line (condense (strip "Chapter 24.10 Other title")) = None
   ∧ DIVISION_PATTERN (condense (strip "Chapter 24.10 Other title")) = None
   ∧ chapter_full_pattern pats (condense (strip "Chapter 24.10 Other title"))
     = None
   ∧ chapter_short_pattern pats (condense (strip "Chapter 24.10 Other title"))
     = None
   ∧ section_pattern_of pats (condense (strip "Chapter 24.10 Other title"))
     = None
   ∧ lower (strip "Chapter 24.10 Other title") ≠ "sections:"
   ∧ step pats b (Some "Chapter 24.10 Other title", 2%Z)
     = mkBuilder (mkTitleData "Title 23" 23 1 9 [] [])
         (Some (mkSubtitle "Subtitle II" "" 1 2
                  ["Chapter 24.10 Other title"] [] []))
         None None None)
  ∧ (parse_subtitle_line (condense (strip "Subtitle of the code")) = None
     ∧ DIVISION_PATTERN (condense (strip "Subtitle of the code")) = None
     ∧ chapter_full_pattern pats (condense (strip "Subtitle of the code"))
       = None
     ∧ chapter_short_pattern pats (condense (strip "Subtitle of the code"))
       = None
     ∧ section_pattern_of pats (condense (strip "Subtitle of the code"))
       = None
     ∧ lower (strip "Subtitle of the code") ≠ "sections:"
     ∧ step pats b (Some "Subtitle of the code", 2%Z)
       = mkBuilder (mkTitleData "Title 23" 23 1 9 [] [])
           (Some (mkSubtitle "Subtitle II" "" 1 2
                    ["Subtitle of the code"] [] []))
           None None None)
  ∧ build_title_structure
      [ (Some "Subtitle II", 1%Z); (Some "chapter one of the book", 2%Z);
        (Some "Chapter 23.50 ...", 3%Z) ]
      "Title 23" 23 1 9
    = Some (mkTitleData "Title 23" 23 1 9 []
        [ mkSubtitle "Subtitle II" "" 1 2 ["chapter one of the book"] []
            [ mkChapter "23.50" "..." 3 3 [] [] ] ])
  ∧ build_title_structure
      [ (Some "Subtitle II", 1%Z); (Some "Chapter 24.10 Other title", 2%Z);
        (Some "Land Use Codes", 3%Z); (Some "Chapter 23.50 ...", 4%Z) ]
      "Title 23" 23 1 9
    = Some (mkTitleData "Title 23" 23 1 9 []
        [ mkSubtitle "Subtitle II" "Land Use Codes" 1 3
            ["Chapter 24.10 Other title"] []
            [ mkChapter "23.50" "..." 4 4 [] [] ] ]).
Proof.
  cbv zeta.
  repeat split; first [reflexivity | (vm_compute; discriminate)].
Qed.

(** C6 (amended): the deferred-subtitle-title heuristic.  Take a line read
    while a Subtitle with an empty title is open and no Chapter is, that no
    Subtitle, Division or Chapter heading pattern matches (a Section
    heading is not taken either, since no Chapter is open).  When the line
    does not start with the word ["Subtitle"] (ignoring case) nor, in lower
    case, with ["chapter "], and is not ["sections:"], it becomes the
    Subtitle's title; the Subtitle's [end_page] becomes the maximum of its
    old value and the page (the page itself when pages do not decrease); no
    buffer and no other slot changes.  When one of these three tests fails,
    the line is a plain line: it is appended to the buffer of the innermost
    open node and the title of the Subtitle stays empty.  Scenario B
    follows: the Subtitle gets the title ["Land Use Codes"]. *)
Theorem deferred_subtitle_title (pats : HeadingPatterns) (b : Builder)
    (s : Subtitle) (raw : string) (page : Z) :
  current_subtitle b = Some s →
  sub_title s = "" →
  current_chapter b = None →
  parse_subtitle_line (condense (strip raw)) = None →
  DIVISION_PATTERN (condense (strip raw)) = None →
  chapter_full_pattern pats (condense (strip raw)) = None →
  chapter_short_pattern pats (condense (strip raw)) = None →
  (subtitle_word (strip raw) = false →
   startswith (lower (strip raw)) "chapter " = false →
   lower (strip raw) ≠ "sections:" →
   step pats b (Some raw, page)
   = mkBuilder (title b)
       (Some (mkSubtitle (sub_number s) (strip raw) (sub_start_page s)
                (Z.max (sub_end_page s) page) (sub_intro_lines s)
                (sub_divisions s) (sub_chapters s)))
       (current_division b) None (current_section b)
   ∧ ((sub_end_page s ≤ page)%Z → Z.max (sub_end_page s) page = page))
  ∧ (subtitle_word (strip raw) = true
     ∨ startswith (lower (strip raw)) "chapter " = true
     ∨ lower (strip raw) = "sections:" →
     step pats b (Some raw, page) = text_line (strip raw) page b
     ∧ ∃ s', current_subtitle (step pats b (Some raw, page)) = Some s'
          ∧ sub_title s' = "")
  ∧ ∀ (p1 p2 p3 : Z) (title_label : string) (first_page last_page : Z),
      build_title_structure
        [ (Some "Subtitle II", p1); (Some "Land Use Codes", p2);
          (Some "Chapter 23.50 ...", p3) ]
        title_label 23 first_page last_page
      = Some (mkTitleData title_label 23 first_page last_page []
          [ mkSubtitle "Subtitle II" "Land Use Codes" p1 (Z.max p1 p2) [] []
              [ mkChapter "23.50" "..." p3 p3 [] [] ] ]).
Proof.
  intros Hs Ht Hc Hsub Hdiv Hfull Hshort.
  split; [|split; [|intros; reflexivity]].
  - intros Hword Hchap Hmark. split; [|lia].
    destruct b as [t cs cd cc csec]; simpl in *; subst cs cc.
    rewrite Hsub, Hdiv, Hfull, Hshort. simpl.
    unfold plain_line, subtitle_title_pending, not_sections_marker. simpl.
    rewrite Ht, Hword, Hchap, bool_decide_eq_false_2 by done. simpl.
    by destruct (section_pattern_of pats _) as [[??]|].
  - intros Hguard.
    assert (Hstep : step pats b (Some raw, page) = text_line (strip raw) page b).
    { destruct b as [t cs cd cc csec]; simpl in *; subst cs cc.
      rewrite Hsub, Hdiv, Hfull, Hshort. simpl.
      assert (Hplain : plain_line (strip raw) page
                         (mkBuilder t (Some s) cd None csec)
                       = text_line (strip raw) page
                           (mkBuilder t (Some s) cd None csec)).
      { unfold plain_line, subtitle_title_pending, chapter_title_pending,
          not_sections_marker. simpl. rewrite Ht. simpl.
        destruct Hguard as [->| [->| ->]]; simpl;
          by rewrite ?andb_false_r. }
      by destruct (section_pattern_of pats _) as [[??]|]. }
    split; [done|]. rewrite Hstep.
    destruct b as [t cs cd cc csec]; simpl in *; subst cs cc.
    unfold text_line, append_to_target. simpl.
    destruct csec, cd; simpl; eauto.
Qed.

Lemma deferred_subtitle_title_witness :
  step (compile_heading_patterns 23)
    (mkBuilder (mkTitleData "Title 23" 23 1 9 [] [])
       (Some (mkSubtitle "Subtitle II" "" 1 1 [] [] [])) None None None)
    (Some "Land Use Codes", 2%Z)
  = mkBuilder (mkTitleData "Title 23" 23 1 9 [] [])
      (Some (mkSubtitle "Subtitle II" "Land Use Codes" 1 2 [] [] []))
      None None None.
Proof.
  refine (proj1 (proj1 (deferred_subtitle_title (compile_heading_patterns 23)
    (mkBuilder (mkTitleData "Title 23" 23 1 9 [] [])
       (Some (mkSubtitle "Subtitle II" "" 1 1 [] [] [])) None None None)
    (mkSubtitle "Subtitle II" "" 1 1 [] [] []) "Land Use Codes" 2
    _ _ _ _ _ _ _) _ _ _)); try reflexivity.
  vm_compute. discriminate.
Defined.

(** ** The preface only grows *)

Lemma preface_finalize_section b : preface (finalize_section b) = preface b.
Proof. unfold finalize_section. by repeat case_match. Qed.

Lemma preface_finalize_chapter b :
  preface b `prefix_of` preface (finalize_chapter b).
Proof.
  unfold finalize_chapter. cbv zeta.
  repeat case_match; unfold preface; simpl;
    try (change (preface_lines (title (finalize_section b))) with
           (preface (finalize_section b));
         rewrite preface_finalize_section);
    try done; by apply prefix_app_r.
Qed.

Lemma preface_finalize_division b :
  preface b `prefix_of` preface (finalize_division b).
Proof.
  unfold finalize_division. cbv zeta.
  repeat case_match; apply preface_finalize_chapter.
Qed.

Lemma preface_finalize_subtitle b :
  preface b `prefix_of` preface (finalize_subtitle b).
Proof.
  unfold finalize_subtitle. cbv zeta.
  repeat case_match; apply preface_finalize_division.
Qed.

Lemma preface_append_to_target line new_end b :
  preface b `prefix_of` preface (append_to_target line new_end b).
Proof.
  unfold append_to_target.
  repeat case_match; unfold preface; simpl; try done. by apply prefix_app_r.
Qed.

Lemma preface_plain_line line page b :
  preface b `prefix_of` preface (plain_line line page b).
Proof.
  unfold plain_line, text_line.
  repeat case_match; try done; apply preface_append_to_target.
Qed.

Lemma preface_step pats b item :
  preface b `prefix_of` preface (step pats b item).
Proof.
  unfold step, blank_line. destruct item as [[raw|] page].
  - repeat case_match; subst;
      first [ apply preface_finalize_subtitle | apply preface_finalize_division
            | apply preface_finalize_chapter | apply preface_plain_line
            | by (unfold preface; simpl;
                  change (preface_lines (title (finalize_section b))) with
                    (preface (finalize_section b));
                  rewrite preface_finalize_section) ].
  - apply preface_append_to_target.
Qed.

Lemma preface_run_lines pats lines b :
  preface b `prefix_of` preface (run_lines pats b lines).
Proof.
  revert b. induction lines as [|item lines IH]; intros b; [done|].
  simpl. etrans; [apply preface_step|apply IH].
Qed.

Lemma preface_clean_title t t' :
  clean_title t = Some t' → preface_lines t' = preface_lines t.
Proof.
  unfold clean_title. intros H.
  destruct (foldlM _ _ _) as [[cleaned m]|]; simplify_eq/=. done.
Qed.

(** ** C8 and C9 *)

Lemma finalize_chapter_orphan (b : Builder) (c : Chapter) :
  current_chapter b = Some c →
  current_division b = None →
  current_subtitle b = None →
  finalize_chapter b
  = mkBuilder (title_extend_preface (title b) (ch_intro_lines c))
      None None None None.
Proof.
  destruct b as [t cs cd cc csec]. simpl. intros -> -> ->.
  unfold finalize_chapter, finalize_section. by destruct csec.
Qed.

(** C8: when a Chapter is finalized while neither a Division nor a Subtitle
    is open, the lines of its intro are appended, in their order, to the
    document preface; and whatever the stream holds after that, they stay
    there, at the same place, in the preface of the final document. *)
Theorem orphan_chapter_intro_folded (pats : HeadingPatterns) (b : Builder)
    (c : Chapter) :
  current_chapter b = Some c →
  current_division b = None →
  current_subtitle b = None →
  preface (finalize_chapter b) = preface b ++ ch_intro_lines c
  ∧ current_chapter (finalize_chapter b) = None
  ∧ ∀ b' lines t,
      preface b' = preface (finalize_chapter b) →
      finish pats b' lines = Some t →
      (preface b ++ ch_intro_lines c) `prefix_of` preface_lines t.
Proof.
  intros Hc Hd Hs. rewrite (finalize_chapter_orphan b c Hc Hd Hs).
  split; [done|]. split; [done|].
  intros b' lines t Hb' Ht. unfold finish in Ht.
  rewrite (preface_clean_title _ _ Ht).
  change (preface_lines (title ?x)) with (preface x).
  etrans; [|apply preface_finalize_subtitle].
  etrans; [|apply preface_run_lines].
  by rewrite Hb'.
Qed.

Lemma orphan_chapter_intro_folded_witness :
  preface (finalize_chapter
    (mkBuilder (mkTitleData "Title 23" 23 1 9 ["Front matter"] []) None None
       (Some (mkChapter "23.42" "Definitions" 1 1 ["Intro"; ""; "More"] []))
       None))
  = ["Front matter"; "Intro"; ""; "More"].
Proof.
  refine (proj1 (orphan_chapter_intro_folded (compile_heading_patterns 23)
    (mkBuilder (mkTitleData "Title 23" 23 1 9 ["Front matter"] []) None None
       (Some (mkChapter "23.42" "Definitions" 1 1 ["Intro"; ""; "More"] []))
       None)
    (mkChapter "23.42" "Definitions" 1 1 ["Intro"; ""; "More"] []) _ _ _));
    reflexivity.
Defined.

(** C9: when a Chapter is finalized while neither a Division nor a Subtitle
    is open, the builder keeps the lines of its intro (in the preface) and
    nothing else of it: the state after the finalization, and hence the
    document built from any continuation of the stream, is the same
    whatever Sections the Chapter held and whatever Section was open.  In
    the document of an orphaned Chapter with one Section, only the intro
    line is left. *)
Theorem orphan_chapter_sections_discarded (pats : HeadingPatterns)
    (b : Builder) (c : Chapter) :
  current_chapter b = Some c →
  current_division b = None →
  current_subtitle b = None →
  finalize_chapter b
  = mkBuilder (title_extend_preface (title b) (ch_intro_lines c))
      None None None None
  ∧ (∀ sections open_section lines,
       finish pats
         (finalize_chapter
            (mkBuilder (title b) None None
               (Some (ch_set_sections c sections)) open_section)) lines
       = finish pats (finalize_chapter b) lines)
  ∧ ∀ (p1 p2 p3 p4 : Z) (title_label : string) (first_page last_page : Z),
      TitleData_to_dict <$>
        build_title_structure
          [ (Some "Chapter 23.42 Definitions", p1); (Some "Intro text.", p2);
            (Some "23.42.010 Scope.", p3);
            (Some "This chapter applies to...", p4) ]
          title_label 23 first_page last_page
      = Some (mkTitleDict title_label 23 first_page last_page "Intro text." []).
Proof.
  intros Hc Hd Hs. rewrite (finalize_chapter_orphan b c Hc Hd Hs).
  split; [done|]. split; [|intros; reflexivity].
  intros sections open_section lines.
  by rewrite (finalize_chapter_orphan _ (ch_set_sections c sections)).
Qed.

Lemma orphan_chapter_sections_discarded_witness :
  finalize_chapter
    (mkBuilder (mkTitleData "Title 23" 23 1 9 [] []) None None
       (Some (mkChapter "23.42" "Definitions" 1 1 ["Intro text."] []))
       (Some (mkSection "23.42.010" "Scope." 1 1 ["This chapter applies to..."])))
  = mkBuilder (mkTitleData "Title 23" 23 1 9 ["Intro text."] [])
      None None None None.
Proof.
  refine (proj1 (orphan_chapter_sections_discarded (compile_heading_patterns 23)
    (mkBuilder (mkTitleData "Title 23" 23 1 9 [] []) None None
       (Some (mkChapter "23.42" "Definitions" 1 1 ["Intro text."] []))
       (Some (mkSection "23.42.010" "Scope." 1 1 ["This chapter applies to..."])))
    (mkChapter "23.42" "Definitions" 1 1 ["Intro text."] []) _ _ _));
    reflexivity.
Defined.

(** ** C10 *)

Lemma span_app_stop (p : ascii → bool) (a : string) (w : ascii) (r : string) :
  p w = false →
  span p (a +:+ String w r)
  = ((span p a).1, (span p a).2 +:+ String w r).
Proof.
  intros Hw. induction a as [|c a IH].
  - rewrite app_nil_l_s. simpl. by rewrite Hw.
  - rewrite app_cons_s. simpl. destruct (p c); [|done].
    rewrite IH. by destruct (span p a).
Qed.

Lemma is_word_not_space (w : ascii) :
  Char.is_word w = true → Char.is_space w = false.
Proof. destruct w as [[] [] [] [] [] [] [] []]; vm_compute; congruence. Qed.

Lemma is_word_not_hyphen (w : ascii) :
  Char.is_word w = true → Ascii.eqb w "-" = false.
Proof. destruct w as [[] [] [] [] [] [] [] []]; vm_compute; congruence. Qed.

Lemma is_word_not_cr (w : ascii) :
  Char.is_word w = true → Ascii.eqb w "013" = false.
Proof. destruct w as [[] [] [] [] [] [] [] []]; vm_compute; congruence. Qed.

(** What follows a word character does not change whether a hyphen before
    it ends a broken line. *)
Lemma hyphen_break_app (a : string) (w : ascii) (r : string) :
  Char.is_word w = true →
  hyphen_break (a +:+ String w r) = hyphen_break (a +:+ String w "").
Proof.
  intros Hw. unfold hyphen_break.
  rewrite !span_app_stop by by apply is_word_not_space.
  destruct (span Char.is_space a) as [ws [|d t]]; simpl.
  - rewrite ?app_nil_l_s. simpl. by rewrite Hw.
  - by rewrite ?app_cons_s.
Qed.

Lemma skip_ok_span (a : string) :
  skip_ok (String.length (span Char.is_space a).1) a.
Proof.
  induction a as [|c a IH]; simpl; [done|].
  destruct (Char.is_space c) eqn:Hc; [|done].
  destruct (span Char.is_space a) as [x y]. simpl in *. done.
Qed.

Lemma hyphen_break_skip_ok (a : string) (w : ascii) (r : string) (n : nat) :
  Char.is_word w = true →
  hyphen_break (a +:+ String w r) = Some n → skip_ok n a.
Proof.
  intros Hw. unfold hyphen_break.
  rewrite span_app_stop by by apply is_word_not_space.
  intros H. case_match; simplify_eq. apply skip_ok_span.
Qed.

(** The text up to and including a word character is mended on its own:
    no match reaches across a word character. *)
Lemma mend_hyphens_app (a : string) (w : ascii) (r : string) :
  Char.is_word w = true →
  ∀ prev_word skip, skip_ok skip a →
    mend_hyphens prev_word skip (a +:+ String w r)
    = mend_hyphens prev_word skip (a +:+ String w "")
      +:+ mend_hyphens true 0 r.
Proof.
  intros Hw. induction a as [|c a IH]; intros prev_word skip Hskip.
  - destruct skip; [|done]. rewrite !app_nil_l_s. simpl.
    rewrite (is_word_not_hyphen w Hw), Hw. simpl. by rewrite app_cons_s.
  - rewrite !app_cons_s. destruct skip as [|k]; simpl.
    + rewrite (hyphen_break_app a w r Hw).
      destruct (Ascii.eqb c "-" && prev_word).
      * destruct (hyphen_break (a +:+ String w "")) as [n|] eqn:Hn.
        -- apply IH. by eapply hyphen_break_skip_ok.
        -- rewrite app_cons_s. f_equal. by apply IH.
      * rewrite app_cons_s. f_equal. by apply IH.
    + apply IH. by destruct Hskip.
Qed.

Lemma mend_hyphens_skip (ws r : string) :
  mend_hyphens false (String.length ws) (ws +:+ r) = mend_hyphens false 0 r.
Proof.
  induction ws as [|c ws IH]; [done|]. by rewrite app_cons_s.
Qed.

Lemma span_all (p : ascii → bool) (ws r : string) :
  all_chars p ws = true →
  (∀ c r', r = String c r' → p c = false) →
  span p (ws +:+ r) = (ws, r).
Proof.
  intros Hws Hr. induction ws as [|c ws IH].
  - rewrite app_nil_l_s. destruct r as [|c r']; [done|].
    simpl. by rewrite (Hr c r').
  - rewrite app_cons_s. simpl in *. apply andb_true_iff in Hws as [-> Hws].
    by rewrite IH.
Qed.

(** The match itself: a hyphen after a word character, white space that
    holds a line feed, a word character. *)
Lemma mend_hyphens_break (ws : string) (w : ascii) (r : string) :
  all_chars Char.is_space ws = true →
  has_newline ws = true →
  Char.is_word w = true →
  mend_hyphens true 0 (String "-" (ws +:+ String w r))
  = mend_hyphens false 0 (String w r).
Proof.
  intros Hws Hnl Hw.
  assert (Hb : hyphen_break (ws +:+ String w r) = Some (String.length ws)).
  { unfold hyphen_break. rewrite span_all; [|done|].
    - simpl. by rewrite Hnl, Hw.
    - intros c r' [= <- _]. by apply is_word_not_space. }
  cbn [mend_hyphens]. simpl (Ascii.eqb _ _ && _). rewrite Hb.
  apply mend_hyphens_skip.
Qed.

Lemma remove_char_app (c : ascii) (a b : string) :
  remove_char c (a +:+ b) = remove_char c a +:+ remove_char c b.
Proof.
  induction a as [|d a IH]; [done|]. rewrite app_cons_s. simpl.
  destruct (Ascii.eqb d c); [done|]. by rewrite app_cons_s, IH.
Qed.

Lemma remove_cr_spaces (ws : string) :
  all_chars Char.is_space ws = true →
  all_chars Char.is_space (remove_char "013" ws) = true.
Proof.
  induction ws as [|c ws IH]; [done|]. simpl.
  intros [Hc Hws]%andb_true_iff. destruct (Ascii.eqb c "013"); simpl; auto.
  by rewrite Hc, IH.
Qed.

Lemma remove_cr_newline (ws : string) :
  has_newline (remove_char "013" ws) = has_newline ws.
Proof.
  induction ws as [|c ws IH]; [done|]. simpl.
  destruct (Ascii.eqb_spec c "013") as [->|Hc]; simpl; by rewrite IH.
Qed.

Lemma app_not_empty (a : string) (c : ascii) (r : string) :
  is_empty (a +:+ String c r) = false.
Proof. by destruct a. Qed.

(** C10: the hyphen merge of [normalize_page_text] fires whatever the white
    space between the hyphen and the continuation, provided it holds a line
    feed, several of them included: for a text made of any [before], a word
    character, a hyphen, white space [ws] with at least one line feed, a
    word character and any [after], the hyphen and all of [ws] are removed
    and the two fragments, each normalised as on its own, are joined. *)
Theorem hyphen_merge_spans_blank_lines (before ws after : string)
    (w1 w2 : ascii) :
  Char.is_word w1 = true →
  Char.is_word w2 = true →
  all_chars Char.is_space ws = true →
  has_newline ws = true →
  normalize_page_text
    (before +:+ String w1 (String "-" (ws +:+ String w2 after)))
  = normalize_page_text (before +:+ String w1 "")
    +:+ normalize_page_text (String w2 after).
Proof.
  intros Hw1 Hw2 Hws Hnl. unfold normalize_page_text.
  rewrite !app_not_empty. cbn [is_empty].
  rewrite !remove_char_app. cbn [remove_char].
  rewrite (is_word_not_cr w1 Hw1), (is_word_not_cr w2 Hw2).
  change (Ascii.eqb "-" "013") with false. cbv iota.
  rewrite remove_char_app. cbn [remove_char].
  rewrite (is_word_not_cr w2 Hw2).
  rewrite mend_hyphens_app by done.
  rewrite mend_hyphens_break;
    [done|by apply remove_cr_spaces|by rewrite remove_cr_newline|done].
Qed.

Lemma hyphen_merge_spans_blank_lines_witness :
  normalize_page_text (String "r" (String "e" (String "g" (String "u"
    (String "l" (String "a" (String "-" (String "010" (String "010"
    (String " " (String "t" (String "i" (String "o" (String "n" ""))))))))))))))
  = "regulation".
Proof.
  exact (hyphen_merge_spans_blank_lines "regul"
    (String "010" (String "010" (String " " ""))) "ion" "a" "t"
    eq_refl eq_refl eq_refl eq_refl).
Defined.

(** ** The deduplication loops *)

Section DedupFacts.
Context {A : Type} (key : A → string) (should_replace : A → A → bool).

Abbreviation step := (dedup_step key should_replace).
Abbreviation inv := (dedup_inv key).
Abbreviation pick := (λ k (o : option A) x,
  if decide (key x = k) then Some (choose should_replace o x) else o).

Lemma dedup_inv_empty : inv ([], ∅).
Proof.
  intros k i. simpl. rewrite lookup_empty. split; [done|].
  intros (x & Hx & _). by rewrite lookup_nil in Hx.
Qed.

Lemma dedup_step_ok st x :
  inv st →
  ∃ st', step st x = Some st' ∧ inv st'
    ∧ ∀ k, lookup_key st' k = pick k (lookup_key st k) x.
Proof.
  destruct st as [kept index]. intros Hinv. unfold dedup_step.
  destruct (index !! key x) as [idx|] eqn:Hidx.
  - destruct (proj1 (Hinv _ _) Hidx) as (e & He & Hke). simpl in He.
    rewrite He. simpl.
    assert (Hlt : idx < length kept) by by eapply lookup_lt_Some.
    destruct (should_replace e x) eqn:Hr.
    + eexists. split; [done|]. split.
      * intros k i. simpl. rewrite (Hinv k i). simpl.
        destruct (decide (i = idx)) as [->|Hne].
        -- rewrite list_lookup_insert_eq by done. rewrite He.
           split; intros (y & [= <-] & <-); eauto.
        -- by rewrite list_lookup_insert_ne.
      * intros k. unfold lookup_key. simpl.
        destruct (decide (key x = k)) as [<-|Hne].
        -- rewrite Hidx. simpl. rewrite list_lookup_insert_eq by done.
           by rewrite He; simpl; rewrite Hr.
        -- destruct (index !! k) as [j|] eqn:Hj; [|done]. simpl.
           rewrite list_lookup_insert_ne; [done|]. intros <-.
           destruct (proj1 (Hinv _ _) Hj) as (y & Hy & Hky).
           simpl in Hy. congruence.
    + eexists. split; [done|]. split; [done|].
      intros k. unfold lookup_key. simpl.
      destruct (decide (key x = k)) as [<-|Hne]; [|done].
      rewrite Hidx. simpl. by rewrite He; simpl; rewrite Hr.
  - eexists. split; [done|]. split.
    + intros k i. simpl.
      destruct (decide (key x = k)) as [<-|Hne].
      * rewrite lookup_insert_eq. split.
        -- intros [= <-]. exists x. by rewrite list_lookup_middle.
        -- intros (y & Hy & Hky). f_equal.
           apply lookup_app_Some in Hy as [Hy|[Hlen Hy]].
           ++ assert (index !! key x = Some i); [|congruence].
              apply Hinv. eauto.
           ++ apply list_lookup_singleton_Some in Hy as [? _]. lia.
      * rewrite lookup_insert_ne by done. rewrite (Hinv k i). simpl.
        split; intros (y & Hy & Hky).
        -- exists y. split; [|done]. by apply lookup_app_l_Some.
        -- exists y. split; [|done].
           apply lookup_app_Some in Hy as [Hy|[Hlen Hy]]; [done|].
           apply list_lookup_singleton_Some in Hy as [_ <-]. done.
    + intros k. unfold lookup_key. simpl.
      destruct (decide (key x = k)) as [<-|Hne].
      * rewrite lookup_insert_eq, Hidx. simpl.
        by rewrite list_lookup_middle.
      * rewrite lookup_insert_ne by done.
        destruct (index !! k) as [j|] eqn:Hj; [|done]. simpl.
        destruct (proj1 (Hinv _ _) Hj) as (y & Hy & Hky). simpl in Hy.
        rewrite Hy. by apply lookup_app_l_Some.
Qed.

Lemma dedup_loop_ok l : ∀ st,
  inv st →
  ∃ st', foldlM step st l = Some st' ∧ inv st'
    ∧ ∀ k, lookup_key st' k
           = survivor_from key should_replace (lookup_key st k) k l.
Proof.
  induction l as [|x l IH]; intros st Hinv.
  - exists st. split; [done|]. split; [done|]. done.
  - destruct (dedup_step_ok st x Hinv) as (st1 & Hst1 & Hinv1 & Hk1).
    destruct (IH st1 Hinv1) as (st' & Hst' & Hinv' & Hk').
    exists st'. simpl. rewrite Hst1. simpl. split; [done|]. split; [done|].
    intros k. rewrite Hk', Hk1. done.
Qed.

Lemma survivor_from_cons o k x l :
  survivor_from key should_replace o k (x :: l)
  = survivor_from key should_replace (pick k o x) k l.
Proof. done. Qed.

(** The kept candidate is one of the candidates, and of the right key. *)
Lemma survivor_from_elem l : ∀ o k x,
  survivor_from key should_replace o k l = Some x →
  o = Some x ∨ (x ∈ l ∧ key x = k).
Proof.
  induction l as [|y l IH]; intros o k x; [by left|].
  rewrite survivor_from_cons. intros [Ho|[Hx Hk]]%IH.
  - destruct (decide (key y = k)) as [Hy|Hy]; [|by left].
    injection Ho as Ho. destruct o as [e|]; simpl in Ho.
    + destruct (should_replace e y); subst.
      * right. split; [left|done].
      * by left.
    + subst. right. split; [left|done].
  - right. split; [by right|done].
Qed.

Lemma survivor_elem k l x :
  survivor key should_replace k l = Some x → x ∈ l ∧ key x = k.
Proof. by intros [?|?]%survivor_from_elem. Qed.

(** A group has a kept candidate exactly when it has a candidate. *)
Lemma survivor_from_is_Some l : ∀ o k,
  is_Some (survivor_from key should_replace o k l)
  ↔ is_Some o ∨ ∃ x, x ∈ l ∧ key x = k.
Proof.
  induction l as [|y l IH]; intros o k.
  - split; [by left|]. intros [?|(x & Hx & _)]; [done|].
    by apply elem_of_nil in Hx.
  - rewrite survivor_from_cons, IH. split.
    + intros [Ho|(x & Hx & Hk)].
      * destruct (decide (key y = k)) as [Hy|Hy]; [|by left].
        right. exists y. split; [left|done].
      * right. exists x. split; [by right|done].
    + intros [Ho|(x & [->|Hx]%elem_of_cons & Hk)].
      * left. by destruct (decide (key y = k)).
      * left. by rewrite decide_True.
      * right. eauto.
Qed.

Lemma survivor_is_Some k l :
  is_Some (survivor key should_replace k l) ↔ k ∈ key <$> l.
Proof.
  unfold survivor. rewrite survivor_from_is_Some, list_elem_of_fmap.
  split.
  - intros [[? [=]]|(x & Hx & Hk)]. eauto.
  - intros (x & Hk & Hx). right. eauto.
Qed.

(** A candidate that beats all the others of its group is kept, wherever
    it stands in the list. *)
Lemma survivor_from_winner m k l : ∀ o,
  key m = k →
  (∀ y, y ∈ l → key y = k → y = m ∨ beats should_replace m y) →
  (∀ e, o = Some e → e = m ∨ beats should_replace m e) →
  o = Some m ∨ m ∈ l →
  survivor_from key should_replace o k l = Some m.
Proof.
  intros o Hm. revert o.
  induction l as [|x l IH]; intros o Hl Ho Hin.
  - destruct Hin as [?|Hin]; [done|]. by apply elem_of_nil in Hin.
  - rewrite survivor_from_cons.
    assert (Hl' : ∀ y, y ∈ l → key y = k → y = m ∨ beats should_replace m y).
    { intros y Hy. apply Hl. by right. }
    destruct (decide (key x = k)) as [Hx|Hx].
    + destruct (Hl x) as [->|[Hr1 Hr2]]; [left|done| |].
      * assert (choose should_replace o m = m) as ->.
        { destruct o as [e|]; simpl; [|done].
          destruct (Ho e eq_refl) as [->|[Hr _]];
            [by destruct (should_replace _ _)|by rewrite Hr]. }
        apply IH; [done| |by left]. intros e [= <-]. by left.
      * apply IH; [done| |].
        -- intros e [= <-]. destruct o as [e|]; simpl; [|by right].
           destruct (should_replace e x); [by right|by apply Ho].
        -- destruct Hin as [->|[->|Hin]%elem_of_cons].
           ++ left. simpl. by rewrite Hr2.
           ++ rewrite Hr1 in Hr2. done.
           ++ by right.
    + apply IH; [done|done|].
      destruct Hin as [?|[->|Hin]%elem_of_cons]; [by left|done|by right].
Qed.

Lemma survivor_winner m l :
  m ∈ l →
  (∀ y, y ∈ l → key y = key m → y = m ∨ beats should_replace m y) →
  survivor key should_replace (key m) l = Some m.
Proof.
  intros Hm Hl. apply survivor_from_winner; [done|done|done|by right].
Qed.

(** What the loop computes, from the empty list and dictionary. *)
Lemma dedup_loop_result l :
  ∃ kept index,
    foldlM step ([], ∅) l = Some (kept, index)
    ∧ NoDup (key <$> kept)
    ∧ (∀ x, x ∈ kept ↔ survivor key should_replace (key x) l = Some x).
Proof.
  destruct (dedup_loop_ok l _ dedup_inv_empty)
    as ([kept index] & Hrun & Hinv & Hk).
  exists kept, index. split; [done|].
  assert (Hsurv : ∀ k, lookup_key (kept, index) k
                       = survivor key should_replace k l).
  { intros k. rewrite Hk. unfold lookup_key. simpl.
    by rewrite lookup_empty. }
  split.
  - apply NoDup_alt. intros i j k Hi Hj.
    apply list_lookup_fmap_Some in Hi as (x & -> & Hx).
    apply list_lookup_fmap_Some in Hj as (y & Hxy & Hy).
    assert (index !! key x = Some i) by (apply Hinv; eauto).
    assert (index !! key x = Some j) by (apply Hinv; eauto).
    congruence.
  - intros x. rewrite <-Hsurv. unfold lookup_key. simpl. split.
    + intros [i Hi]%list_elem_of_lookup.
      assert (index !! key x = Some i) as -> by (apply Hinv; eauto).
      done.
    + destruct (index !! key x) as [i|]; [|done]. simpl.
      intros Hi. apply list_elem_of_lookup. eauto.
Qed.

Lemma dedup_loop_keys l kept index :
  foldlM step ([], ∅) l = Some (kept, index) →
  ∀ k, k ∈ key <$> kept ↔ k ∈ key <$> l.
Proof.
  intros Hrun k.
  destruct (dedup_loop_result l) as (kept' & index' & Hrun' & _ & Hin).
  rewrite Hrun in Hrun'. injection Hrun' as <- <-.
  rewrite <-(survivor_is_Some k l), list_elem_of_fmap. split.
  - intros (x & -> & Hx%Hin). eauto.
  - intros [x Hx]. exists x.
    destruct (survivor_elem _ _ _ Hx) as [_ Hk]. split; [done|].
    apply Hin. by rewrite Hk.
Qed.

(** With a winner in every group, the kept candidates do not depend on
    the order of the candidates. *)
Lemma dedup_loop_permutation l1 l2 kept1 index1 kept2 index2 :
  l1 ≡ₚ l2 →
  has_winner key should_replace l1 →
  foldlM step ([], ∅) l1 = Some (kept1, index1) →
  foldlM step ([], ∅) l2 = Some (kept2, index2) →
  kept1 ≡ₚ kept2.
Proof.
  intros Hperm Hwin Hrun1 Hrun2.
  destruct (dedup_loop_result l1) as (? & ? & Hrun1' & Hnd1 & Hin1).
  rewrite Hrun1 in Hrun1'. injection Hrun1' as <- <-.
  destruct (dedup_loop_result l2) as (? & ? & Hrun2' & Hnd2 & Hin2).
  rewrite Hrun2 in Hrun2'. injection Hrun2' as <- <-.
  assert (Hsame : ∀ x k, survivor key should_replace k l1 = Some x →
                         survivor key should_replace k l2 = Some x).
  { intros x k Hx. destruct (survivor_elem _ _ _ Hx) as [Hxl <-].
    destruct (Hwin x Hxl) as (m & Hm & Hkm & Hbeat).
    assert (survivor key should_replace (key x) l1 = Some m) as Hm1.
    { rewrite <-Hkm. apply survivor_winner; [done|].
      intros y Hy Hky. apply Hbeat; [done|congruence]. }
    assert (x = m) as -> by congruence.
    apply survivor_winner; [by rewrite <-Hperm|].
    intros y Hy Hky. apply Hbeat; [by rewrite Hperm|done]. }
  apply NoDup_Permutation.
  - by eapply NoDup_fmap_1.
  - by eapply NoDup_fmap_1.
  - intros x. rewrite Hin1, Hin2. split; [apply Hsame|].
    intros Hx. destruct (survivor_elem _ _ _ Hx) as [Hxl _].
    rewrite <-Hperm in Hxl.
    destruct (Hwin x Hxl) as (m & Hm & Hkm & Hbeat).
    assert (survivor key should_replace (key x) l1 = Some m) as Hm1.
    { rewrite <-Hkm. apply survivor_winner; [done|].
      intros y Hy Hky. apply Hbeat; [done|congruence]. }
    pose proof (Hsame _ _ Hm1). congruence.
Qed.
End DedupFacts.

(** ** C1 *)

Lemma clean_chapter_step_shape :
  clean_chapter_step = dedup_step sec_citation should_replace_section.
Proof. reflexivity. Qed.

Lemma dedup_subtitle_step_shape :
  dedup_subtitle_step = dedup_step subtitle_key should_replace_subtitle.
Proof. reflexivity. Qed.

Lemma should_replace_section_spec (existing new : Section) :
  should_replace_section existing new = true
  ↔ (has_body new = true ∧ has_body existing = false)
    ∨ (has_body new = has_body existing
       ∧ (length (sec_body_lines existing) < length (sec_body_lines new)
          ∨ (sec_end_page existing ≤ sec_end_page new)%Z)).
Proof.
  unfold should_replace_section.
  destruct (has_body new), (has_body existing); simpl;
    repeat case_match; try (apply Nat.ltb_lt in H || apply Nat.ltb_ge in H);
    try (apply Z.leb_le in H0 || apply Z.leb_gt in H0);
    split; try done; intros; try (left; done);
    try (right; split; [done|lia]);
    try (intuition (congruence || lia)).
Qed.

(** Among the candidates of a citation, one with a body is kept whenever
    there is one. *)
Lemma survivor_from_has_body k l : ∀ o s,
  survivor_from sec_citation should_replace_section o k l = Some s →
  (∃ e, o = Some e ∧ has_body e = true)
  ∨ (∃ x, x ∈ l ∧ sec_citation x = k ∧ has_body x = true) →
  has_body s = true.
Proof.
  induction l as [|x l IH]; intros o s Hs Hb.
  - destruct Hb as [(e & -> & He)|(x & Hx & _)]; [by simplify_eq/=|].
    by apply elem_of_nil in Hx.
  - rewrite survivor_from_cons in Hs. apply (IH _ _ Hs).
    destruct Hb as [(e & -> & He)|(y & [->|Hy]%elem_of_cons & Hk & Hy')].
    + left. destruct (decide (sec_citation x = k)); [|eauto].
      eexists. split; [done|]. simpl.
      destruct (should_replace_section e x) eqn:Hr; [|done].
      apply should_replace_section_spec in Hr as [[? _]|[? _]]; congruence.
    + left. rewrite decide_True by done. eexists. split; [done|].
      destruct o as [e|]; simpl; [|done].
      destruct (should_replace_section e x) eqn:Hr; [done|].
      destruct (has_body e) eqn:He; [done|].
      assert (should_replace_section e x = true); [|congruence].
      apply should_replace_section_spec. by left.
    + right. eauto.
Qed.

(** C1, as stated, fails: of two Sections of one citation that both have a
    body, the later one replaces the earlier one although it has fewer body
    lines, because its [end_page] is not smaller. *)
Lemma section_dedup_keeps_fewer_lines :
  clean_chapter
    (mkChapter "23.42" "Definitions" 5 5 []
       [ mkSection "23.42.010" "Scope." 5 5 ["First line."; "Second line."];
         mkSection "23.42.010" "Scope." 5 5 ["Only line."] ])
  = Some (mkChapter "23.42" "Definitions" 5 5 []
            [ mkSection "23.42.010" "Scope." 5 5 ["Only line."] ])
  ∧ section_preferred_spec
      (mkSection "23.42.010" "Scope." 5 5 ["First line."; "Second line."])
      (mkSection "23.42.010" "Scope." 5 5 ["Only line."]) = true
  ∧ build_title_structure
      [ (Some "Subtitle I Construction Codes", 5%Z);
        (Some "Chapter 23.42 Definitions", 5%Z);
        (Some "23.42.010 Scope.", 5%Z); (Some "First line.", 5%Z);
        (Some "Second line.", 5%Z);
        (Some "23.42.010 Scope.", 5%Z); (Some "Only line.", 5%Z) ]
      "Title 23" 23 5 5
    = Some (mkTitleData "Title 23" 23 5 5 []
        [ mkSubtitle "Subtitle I" "Construction Codes" 5 5 [] []
            [ mkChapter "23.42" "Definitions" 5 5 []
                [ mkSection "23.42.010" "Scope." 5 5 ["Only line."] ] ] ]).
Proof. repeat split; reflexivity. Qed.

(** C1 (amended): section deduplication groups the Sections of a Chapter by
    exact citation and keeps exactly one Section per citation.  The
    candidates of a citation are taken in document order: the first is kept,
    and a later one replaces the kept one when it has a body and the kept
    one has none, or when both are equally (non-)empty and the later one has
    more body lines or an [end_page] not smaller than the kept one's.  A
    Section with a body is kept whenever the citation has one. *)
Theorem clean_chapter_keeps_one_per_citation (chapter : Chapter) :
  ∃ kept,
    clean_chapter chapter = Some (ch_set_sections chapter kept)
    ∧ NoDup (sec_citation <$> kept)
    ∧ (∀ k, k ∈ sec_citation <$> kept ↔ k ∈ sec_citation <$> ch_sections chapter)
    ∧ (∀ s, s ∈ kept
            ↔ survivor sec_citation should_replace_section (sec_citation s)
                (ch_sections chapter) = Some s)
    ∧ (∀ existing new,
         should_replace_section existing new = true
         ↔ (has_body new = true ∧ has_body existing = false)
           ∨ (has_body new = has_body existing
              ∧ (length (sec_body_lines existing) < length (sec_body_lines new)
                 ∨ (sec_end_page existing ≤ sec_end_page new)%Z)))
    ∧ (∀ s x, s ∈ kept → x ∈ ch_sections chapter →
         sec_citation x = sec_citation s → has_body x = true →
         has_body s = true).
Proof.
  destruct (dedup_loop_result sec_citation should_replace_section
              (ch_sections chapter)) as (kept & index & Hrun & Hnd & Hin).
  exists kept. unfold clean_chapter. rewrite clean_chapter_step_shape, Hrun.
  split; [done|]. split; [done|].
  split; [by eapply dedup_loop_keys|]. split; [done|].
  split; [apply should_replace_section_spec|].
  intros s x Hs%Hin Hx Hk Hb.
  eapply survivor_from_has_body; [exact Hs|]. right. eauto.
Qed.

(** ** The cleaning pass never raises *)

Lemma mapM_total {X Y} (f : X → option Y) (g : X → Y) (l : list X) :
  (∀ x, f x = Some (g x)) → mapM f l = Some (g <$> l).
Proof.
  intros Hf. induction l as [|x l IH]; [done|].
  simpl. rewrite Hf. simpl. rewrite IH. done.
Qed.

Lemma clean_chapter_sections (c : Chapter) :
  ∃ kept index,
    foldlM clean_chapter_step ([], ∅) (ch_sections c) = Some (kept, index)
    ∧ clean_chapter c = Some (ch_set_sections c kept)
    ∧ cleaned_chapter c = ch_set_sections c kept.
Proof.
  destruct (dedup_loop_result sec_citation should_replace_section
              (ch_sections c)) as (kept & index & Hrun & _).
  exists kept, index. unfold cleaned_chapter, clean_chapter.
  rewrite clean_chapter_step_shape, Hrun. done.
Qed.

Lemma clean_chapter_total (c : Chapter) :
  clean_chapter c = Some (cleaned_chapter c).
Proof.
  destruct (clean_chapter_sections c) as (kept & index & _ & -> & ->). done.
Qed.

Lemma clean_division_total (d : Division) :
  clean_division d = Some (cleaned_division d).
Proof.
  unfold cleaned_division, clean_division.
  rewrite (mapM_total _ _ _ clean_chapter_total). done.
Qed.

Lemma cleaned_division_eq (d : Division) :
  cleaned_division d
  = mkDivision (div_number d) (div_title d) (div_start_page d)
      (div_end_page d) (div_intro_lines d)
      (cleaned_chapter <$> div_chapters d).
Proof.
  unfold cleaned_division, clean_division.
  rewrite (mapM_total _ _ _ clean_chapter_total). done.
Qed.

Lemma clean_subtitle_total (s : Subtitle) :
  clean_subtitle s = Some (cleaned_subtitle s).
Proof.
  unfold cleaned_subtitle, clean_subtitle.
  rewrite (mapM_total _ _ _ clean_division_total).
  rewrite (mapM_total _ _ _ clean_chapter_total). done.
Qed.

Lemma cleaned_subtitle_eq (s : Subtitle) :
  cleaned_subtitle s
  = mkSubtitle (sub_number s) (sub_title s) (sub_start_page s)
      (sub_end_page s) (sub_intro_lines s)
      (cleaned_division <$> sub_divisions s)
      (cleaned_chapter <$> sub_chapters s).
Proof.
  unfold cleaned_subtitle, clean_subtitle.
  rewrite (mapM_total _ _ _ clean_division_total).
  rewrite (mapM_total _ _ _ clean_chapter_total). done.
Qed.

Lemma clean_title_step_eq st s :
  clean_title_step st s = dedup_subtitle_step st (cleaned_subtitle s).
Proof. unfold clean_title_step. by rewrite clean_subtitle_total. Qed.

Lemma clean_title_loop (l : list Subtitle) : ∀ st,
  foldlM clean_title_step st l
  = foldlM dedup_subtitle_step st (cleaned_subtitle <$> l).
Proof.
  induction l as [|s l IH]; intros st; [done|].
  rewrite fmap_cons. cbn [foldlM].
  rewrite clean_title_step_eq.
  destruct (dedup_subtitle_step st (cleaned_subtitle s)); [apply IH|done].
Qed.

Lemma clean_title_subtitles (t : TitleData) :
  ∃ kept index,
    foldlM dedup_subtitle_step ([], ∅) (cleaned_subtitle <$> subtitles t)
    = Some (kept, index)
    ∧ clean_title t = Some (title_set_subtitles t (sort_by_start_page kept)).
Proof.
  destruct (dedup_loop_result subtitle_key should_replace_subtitle
              (cleaned_subtitle <$> subtitles t)) as (kept & index & Hrun & _).
  exists kept, index. rewrite dedup_subtitle_step_shape. split; [done|].
  unfold clean_title. rewrite clean_title_loop, dedup_subtitle_step_shape, Hrun.
  done.
Qed.

(** [build_title_structure] always returns a document. *)
Lemma build_title_structure_total lines title_label title_number first last :
  is_Some (build_title_structure lines title_label title_number first last).
Proof.
  unfold build_title_structure.
  destruct (clean_title_subtitles
              (raw_title lines title_label title_number first last))
    as (kept & index & _ & ->). done.
Qed.

(** ** The sort is a permutation *)

Lemma insert_by_start_page_perm (s : Subtitle) (l : list Subtitle) :
  insert_by_start_page s l ≡ₚ s :: l.
Proof.
  induction l as [|x l IH]; [done|]. simpl.
  destruct (sub_start_page x <=? sub_start_page s)%Z; [|done].
  rewrite IH. apply perm_swap.
Qed.

Lemma sort_by_start_page_perm (l : list Subtitle) :
  sort_by_start_page l ≡ₚ l.
Proof.
  unfold sort_by_start_page.
  assert (∀ acc, foldl (λ acc s, insert_by_start_page s acc) acc l ≡ₚ l ++ acc)
    as H; [|by rewrite H, app_nil_r].
  induction l as [|s l IH]; intros acc; [done|]. simpl.
  rewrite IH, insert_by_start_page_perm. by rewrite Permutation_middle.
Qed.

(** ** C2 *)

Lemma cleaned_chapter_citation c : ch_citation (cleaned_chapter c) = ch_citation c.
Proof. by destruct (clean_chapter_sections c) as (? & ? & _ & _ & ->). Qed.

Lemma subtitle_weight_cleaned (s : Subtitle) :
  subtitle_weight (cleaned_subtitle s) = subtitle_weight s.
Proof.
  rewrite cleaned_subtitle_eq. unfold subtitle_weight. simpl.
  rewrite !length_fmap. f_equal. f_equal.
  rewrite <-list_fmap_compose. apply list_fmap_ext. intros i d _. simpl.
  rewrite cleaned_division_eq. simpl. by rewrite length_fmap.
Qed.

Lemma subtitle_key_cleaned (s : Subtitle) :
  subtitle_key (cleaned_subtitle s) = subtitle_key s.
Proof. by rewrite cleaned_subtitle_eq. Qed.

Lemma should_replace_subtitle_cleaned (a b : Subtitle) :
  should_replace_subtitle (cleaned_subtitle a) (cleaned_subtitle b)
  = should_replace_subtitle a b.
Proof.
  unfold should_replace_subtitle. rewrite !subtitle_weight_cleaned.
  by rewrite !cleaned_subtitle_eq.
Qed.

Lemma has_winner_fmap {X} (key : X → string) (repl : X → X → bool)
    (f : X → X) (l : list X) :
  (∀ x, key (f x) = key x) →
  (∀ x y, repl (f x) (f y) = repl x y) →
  has_winner key repl l → has_winner key repl (f <$> l).
Proof.
  intros Hk Hr Hwin x' (x & -> & Hx)%list_elem_of_fmap.
  destruct (Hwin x Hx) as (m & Hm & Hkm & Hbeat).
  exists (f m). split; [by apply list_elem_of_fmap_2|].
  split; [by rewrite !Hk|].
  intros y' (y & -> & Hy)%list_elem_of_fmap Hky. rewrite !Hk in Hky.
  destruct (Hbeat y Hy Hky) as [->|[H1 H2]]; [by left|right].
  split; by rewrite Hr.
Qed.

Lemma beats_section_spec (m x : Section) :
  beats should_replace_section m x
  ↔ (has_body m = true ∧ has_body x = false)
    ∨ (has_body m = has_body x
       ∧ length (sec_body_lines x) ≤ length (sec_body_lines m)
       ∧ (sec_end_page x < sec_end_page m)%Z).
Proof.
  unfold beats.
  rewrite <-(not_true_iff_false (should_replace_section m x)).
  rewrite !should_replace_section_spec.
  destruct (has_body m), (has_body x); split; intros; try done;
    intuition (try congruence; try lia).
Qed.

Lemma beats_subtitle_spec (m x : Subtitle) :
  beats should_replace_subtitle m x
  ↔ subtitle_weight x < subtitle_weight m
    ∨ (subtitle_weight x = subtitle_weight m
       ∧ (sub_end_page x < sub_end_page m)%Z).
Proof.
  unfold beats, should_replace_subtitle.
  repeat case_match;
    repeat match goal with
    | H : (_ <? _)%nat = true |- _ => apply Nat.ltb_lt in H
    | H : (_ <? _)%nat = false |- _ => apply Nat.ltb_ge in H
    | H : (_ =? _)%nat = true |- _ => apply Nat.eqb_eq in H
    | H : (_ =? _)%nat = false |- _ => apply Nat.eqb_neq in H
    | H : _ && _ = true |- _ => apply andb_true_iff in H as [??]
    | H : _ && _ = false |- _ => apply andb_false_iff in H as [?|?]
    | H : (_ <=? _)%Z = true |- _ => apply Z.leb_le in H
    | H : (_ <=? _)%Z = false |- _ => apply Z.leb_gt in H
    end; split; intros; try done; intuition (try congruence; try lia).
Qed.

(** C2, as stated, fails: two candidates that tie (here on everything but
    their heading, resp. their title) are permutations of each other in
    either order, and the later one survives in both orders. *)
Lemma dedup_survivor_depends_on_order :
  [ mkSection "23.42.010" "Scope." 1 1 [];
    mkSection "23.42.010" "Purpose." 1 1 [] ]
  ≡ₚ [ mkSection "23.42.010" "Purpose." 1 1 [];
       mkSection "23.42.010" "Scope." 1 1 [] ]
  ∧ clean_chapter
      (mkChapter "23.42" "Definitions" 1 1 []
         [ mkSection "23.42.010" "Scope." 1 1 [];
           mkSection "23.42.010" "Purpose." 1 1 [] ])
    = Some (mkChapter "23.42" "Definitions" 1 1 []
              [ mkSection "23.42.010" "Purpose." 1 1 [] ])
  ∧ clean_chapter
      (mkChapter "23.42" "Definitions" 1 1 []
         [ mkSection "23.42.010" "Purpose." 1 1 [];
           mkSection "23.42.010" "Scope." 1 1 [] ])
    = Some (mkChapter "23.42" "Definitions" 1 1 []
              [ mkSection "23.42.010" "Scope." 1 1 [] ])
  ∧ clean_title
      (mkTitleData "Title 23" 23 1 9 []
         [ mkSubtitle "Subtitle I" "Construction Codes" 1 1 [] [] [];
           mkSubtitle "SUBTITLE I" "Land Use Codes" 1 1 [] [] [] ])
    = Some (mkTitleData "Title 23" 23 1 9 []
              [ mkSubtitle "SUBTITLE I" "Land Use Codes" 1 1 [] [] [] ])
  ∧ clean_title
      (mkTitleData "Title 23" 23 1 9 []
         [ mkSubtitle "SUBTITLE I" "Land Use Codes" 1 1 [] [] [];
           mkSubtitle "Subtitle I" "Construction Codes" 1 1 [] [] [] ])
    = Some (mkTitleData "Title 23" 23 1 9 []
              [ mkSubtitle "Subtitle I" "Construction Codes" 1 1 [] [] [] ]).
Proof. split; [apply perm_swap|]. repeat split; reflexivity. Qed.

(** C2 (amended): when every duplicate group holds a candidate that wins
    against each other candidate of the group (for Sections: it has a body
    and the other has none, or both are equally (non-)empty and it has at
    least as many body lines and a larger [end_page]; for Subtitles: a
    larger weight, or the same weight and a larger [end_page]), the
    candidates that survive do not depend on the order in which the
    candidates are discovered: two lists of candidates that are permutations
    of each other leave the same survivors. *)
Theorem dedup_survivors_order_independent (c1 c2 : Chapter)
    (t1 t2 : TitleData) :
  ch_sections c1 ≡ₚ ch_sections c2 →
  has_winner sec_citation should_replace_section (ch_sections c1) →
  subtitles t1 ≡ₚ subtitles t2 →
  has_winner subtitle_key should_replace_subtitle (subtitles t1) →
  (∃ r1 r2, clean_chapter c1 = Some r1 ∧ clean_chapter c2 = Some r2
            ∧ ch_sections r1 ≡ₚ ch_sections r2)
  ∧ (∃ r1 r2, clean_title t1 = Some r1 ∧ clean_title t2 = Some r2
              ∧ subtitles r1 ≡ₚ subtitles r2)
  ∧ (∀ m x : Section,
       beats should_replace_section m x
       ↔ (has_body m = true ∧ has_body x = false)
         ∨ (has_body m = has_body x
            ∧ length (sec_body_lines x) ≤ length (sec_body_lines m)
            ∧ (sec_end_page x < sec_end_page m)%Z))
  ∧ (∀ m x : Subtitle,
       beats should_replace_subtitle m x
       ↔ subtitle_weight x < subtitle_weight m
         ∨ (subtitle_weight x = subtitle_weight m
            ∧ (sub_end_page x < sub_end_page m)%Z)).
Proof.
  intros Hc Hcw Ht Htw.
  split; [|split; [|split; [apply beats_section_spec|apply beats_subtitle_spec]]].
  - destruct (clean_chapter_sections c1) as (k1 & i1 & Hrun1 & -> & _).
    destruct (clean_chapter_sections c2) as (k2 & i2 & Hrun2 & -> & _).
    eexists _, _. split; [done|]. split; [done|]. simpl.
    rewrite clean_chapter_step_shape in Hrun1, Hrun2.
    by eapply dedup_loop_permutation.
  - destruct (clean_title_subtitles t1) as (k1 & i1 & Hrun1 & ->).
    destruct (clean_title_subtitles t2) as (k2 & i2 & Hrun2 & ->).
    eexists _, _. split; [done|]. split; [done|]. simpl.
    rewrite !sort_by_start_page_perm.
    rewrite dedup_subtitle_step_shape in Hrun1, Hrun2.
    eapply dedup_loop_permutation; [| |exact Hrun1|exact Hrun2].
    + by rewrite Ht.
    + apply has_winner_fmap;
        [apply subtitle_key_cleaned|apply should_replace_subtitle_cleaned|done].
Qed.

Lemma dedup_survivors_order_independent_witness :
  (∃ r1 r2,
     clean_chapter
       (mkChapter "23.42" "Definitions" 1 2 []
          [ mkSection "23.42.010" "Scope." 1 1 [];
            mkSection "23.42.010" "Scope." 2 2 ["This chapter applies."] ])
     = Some r1
     ∧ clean_chapter
         (mkChapter "23.42" "Definitions" 1 2 []
            [ mkSection "23.42.010" "Scope." 2 2 ["This chapter applies."];
              mkSection "23.42.010" "Scope." 1 1 [] ])
       = Some r2
     ∧ ch_sections r1 ≡ₚ ch_sections r2)
  ∧ (∃ r1 r2,
       clean_title
         (mkTitleData "Title 23" 23 1 9 []
            [ mkSubtitle "Subtitle I" "Construction Codes" 1 1 [] [] [];
              mkSubtitle "SUBTITLE I" "Construction Codes" 2 3 [] []
                [ mkChapter "23.42" "Definitions" 2 3 [] [] ] ])
       = Some r1
       ∧ clean_title
           (mkTitleData "Title 23" 23 1 9 []
              [ mkSubtitle "SUBTITLE I" "Construction Codes" 2 3 [] []
                  [ mkChapter "23.42" "Definitions" 2 3 [] [] ];
                mkSubtitle "Subtitle I" "Construction Codes" 1 1 [] [] [] ])
         = Some r2
       ∧ subtitles r1 ≡ₚ subtitles r2).
Proof.
  refine (let H := dedup_survivors_order_independent
    (mkChapter "23.42" "Definitions" 1 2 []
       [ mkSection "23.42.010" "Scope." 1 1 [];
         mkSection "23.42.010" "Scope." 2 2 ["This chapter applies."] ])
    (mkChapter "23.42" "Definitions" 1 2 []
       [ mkSection "23.42.010" "Scope." 2 2 ["This chapter applies."];
         mkSection "23.42.010" "Scope." 1 1 [] ])
    (mkTitleData "Title 23" 23 1 9 []
       [ mkSubtitle "Subtitle I" "Construction Codes" 1 1 [] [] [];
         mkSubtitle "SUBTITLE I" "Construction Codes" 2 3 [] []
           [ mkChapter "23.42" "Definitions" 2 3 [] [] ] ])
    (mkTitleData "Title 23" 23 1 9 []
       [ mkSubtitle "SUBTITLE I" "Construction Codes" 2 3 [] []
           [ mkChapter "23.42" "Definitions" 2 3 [] [] ];
         mkSubtitle "Subtitle I" "Construction Codes" 1 1 [] [] [] ])
    _ _ _ _ in conj (proj1 H) (proj1 (proj2 H))).
  - apply perm_swap.
  - intros x Hx.
    exists (mkSection "23.42.010" "Scope." 2 2 ["This chapter applies."]).
    split; [apply elem_of_cons; right; apply elem_of_cons; by left|].
    apply elem_of_cons in Hx as [->|Hx];
      [|apply elem_of_cons in Hx as [->|Hx]; [|by apply elem_of_nil in Hx]];
      (split; [reflexivity|]); intros y Hy _;
      (apply elem_of_cons in Hy as [->|Hy];
        [|apply elem_of_cons in Hy as [->|Hy]; [|by apply elem_of_nil in Hy]]);
      first [by left | right; split; reflexivity].
  - apply perm_swap.
  - intros x Hx.
    exists (mkSubtitle "SUBTITLE I" "Construction Codes" 2 3 [] []
              [ mkChapter "23.42" "Definitions" 2 3 [] [] ]).
    split; [apply elem_of_cons; right; apply elem_of_cons; by left|].
    apply elem_of_cons in Hx as [->|Hx];
      [|apply elem_of_cons in Hx as [->|Hx]; [|by apply elem_of_nil in Hx]];
      (split; [reflexivity|]); intros y Hy _;
      (apply elem_of_cons in Hy as [->|Hy];
        [|apply elem_of_cons in Hy as [->|Hy]; [|by apply elem_of_nil in Hy]]);
      first [by left | right; split; reflexivity].
Defined.

(** ** Invariants of the builder, per node *)

Section NodeInvariant.
Variable P : NodePred.
Variable pats : HeadingPatterns.
Variable page : Z.

(** Moving [end_page] to the page of the line, or to the maximum of the
    two, keeps the property; so does a node that starts and ends at the
    page of the line. *)
Hypothesis bump_sec : ∀ c s e,
  on_sec P c s e → on_sec P c s page ∧ on_sec P c s (Z.max e page).
Hypothesis bump_ch : ∀ c s e,
  on_ch P c s e → on_ch P c s page ∧ on_ch P c s (Z.max e page).
Hypothesis bump_div : ∀ c s e,
  on_div P c s e → on_div P c s page ∧ on_div P c s (Z.max e page).
Hypothesis bump_sub : ∀ c s e,
  on_sub P c s e → on_sub P c s page ∧ on_sub P c s (Z.max e page).
Hypothesis fresh_sec : ∀ line citation heading,
  section_pattern_of pats line = Some (citation, heading) →
  on_sec P citation page page.
Hypothesis fresh_ch : ∀ c, on_ch P c page page.
Hypothesis fresh_div : ∀ c, on_div P c page page.
Hypothesis fresh_sub : ∀ c, on_sub P c page page.

Lemma bump_sec_page c s e : on_sec P c s e → on_sec P c s page.
Proof. apply bump_sec. Qed.
Lemma bump_sec_max c s e : on_sec P c s e → on_sec P c s (Z.max e page).
Proof. apply bump_sec. Qed.
Lemma bump_ch_page c s e : on_ch P c s e → on_ch P c s page.
Proof. apply bump_ch. Qed.
Lemma bump_ch_max c s e : on_ch P c s e → on_ch P c s (Z.max e page).
Proof. apply bump_ch. Qed.
Lemma bump_div_page c s e : on_div P c s e → on_div P c s page.
Proof. apply bump_div. Qed.
Lemma bump_div_max c s e : on_div P c s e → on_div P c s (Z.max e page).
Proof. apply bump_div. Qed.
Lemma bump_sub_page c s e : on_sub P c s e → on_sub P c s page.
Proof. apply bump_sub. Qed.
Lemma bump_sub_max c s e : on_sub P c s e → on_sub P c s (Z.max e page).
Proof. apply bump_sub. Qed.

Ltac ok_unfold :=
  unfold builder_ok, title_ok, sub_ok, div_ok, ch_ok, sec_ok, opt_ok in *;
  simpl in *.

Ltac ok_solve :=
  ok_unfold; rewrite ?Forall_app, ?Forall_singleton in *; ok_unfold;
  intuition (eauto using bump_sec_page, bump_sec_max, bump_ch_page,
             bump_ch_max, bump_div_page, bump_div_max, bump_sub_page,
             bump_sub_max).

Lemma finalize_section_ok b : builder_ok P b → builder_ok P (finalize_section b).
Proof.
  destruct b as [t cs cd [c|] [s|]]; unfold finalize_section; simpl;
    intros; ok_solve.
Qed.

Lemma finalize_chapter_ok b : builder_ok P b → builder_ok P (finalize_chapter b).
Proof.
  intros H%finalize_section_ok. unfold finalize_chapter. cbv zeta.
  destruct (finalize_section b) as [t [s|] [d|] [c|] x]; simpl; ok_solve.
Qed.

Lemma finalize_division_ok b : builder_ok P b → builder_ok P (finalize_division b).
Proof.
  intros H%finalize_chapter_ok. unfold finalize_division. cbv zeta.
  destruct (finalize_chapter b) as [t [s|] [d|] c x]; simpl; ok_solve.
Qed.

Lemma finalize_subtitle_ok b : builder_ok P b → builder_ok P (finalize_subtitle b).
Proof.
  intros H%finalize_division_ok. unfold finalize_subtitle. cbv zeta.
  destruct (finalize_division b) as [t [s|] d c x]; simpl; ok_solve.
Qed.

Lemma append_to_target_ok line new_end b :
  (∀ e, new_end e = page ∨ new_end e = Z.max e page) →
  builder_ok P b → builder_ok P (append_to_target line new_end b).
Proof.
  intros Hend.
  assert (Hs : ∀ c s e, on_sec P c s e → on_sec P c s (new_end e)).
  { intros c s e H. destruct (Hend e) as [->| ->];
      eauto using bump_sec_page, bump_sec_max. }
  assert (Hc : ∀ c s e, on_ch P c s e → on_ch P c s (new_end e)).
  { intros c s e H. destruct (Hend e) as [->| ->];
      eauto using bump_ch_page, bump_ch_max. }
  assert (Hd : ∀ c s e, on_div P c s e → on_div P c s (new_end e)).
  { intros c s e H. destruct (Hend e) as [->| ->];
      eauto using bump_div_page, bump_div_max. }
  assert (Hu : ∀ c s e, on_sub P c s e → on_sub P c s (new_end e)).
  { intros c s e H. destruct (Hend e) as [->| ->];
      eauto using bump_sub_page, bump_sub_max. }
  destruct b as [t [s|] [d|] [c|] [x|]]; unfold append_to_target; simpl;
    intros; ok_solve.
Qed.

Lemma plain_line_ok line b :
  builder_ok P b → builder_ok P (plain_line line page b).
Proof.
  intros H. unfold plain_line, text_line.
  destruct (subtitle_title_pending line b && not_sections_marker line).
  { destruct b as [t [s|] d c x]; simpl; [|done]. ok_solve. }
  destruct (chapter_title_pending line b).
  { destruct b as [t s d [c|] x]; simpl; [|done]. ok_solve. }
  apply append_to_target_ok; [|done]. by right.
Qed.

Lemma step_ok b raw :
  builder_ok P b → builder_ok P (step pats b (raw, page)).
Proof.
  intros H. unfold step, blank_line. destruct raw as [raw|];
    [|apply append_to_target_ok; [by left|done]].
  cbv zeta.
  destruct (parse_subtitle_line _) as [[num ttl]|].
  { apply finalize_subtitle_ok in H.
    destruct (finalize_subtitle b) as [t s d c x]. ok_solve. }
  destruct (DIVISION_PATTERN _) as [[num ttl]|] eqn:Hdiv.
  - destruct (current_subtitle b) as [s0|] eqn:Hs0.
    { apply finalize_division_ok in H.
      destruct (finalize_division b) as [t s d c x]. ok_solve. }
    destruct (match chapter_full_pattern pats _ with
              | Some (cit, ttl0) => Some (cit, strip ttl0)
              | None => _ end) as [[cit ttl0]|].
    { apply finalize_chapter_ok in H.
      destruct (finalize_chapter b) as [t s d c x]. ok_solve. }
    destruct (section_pattern_of pats _) as [[cit hd]|] eqn:Hsec;
      [|by apply plain_line_ok].
    destruct (current_chapter b) as [c0|] eqn:Hc0; [|by apply plain_line_ok].
    apply finalize_section_ok in H. apply fresh_sec in Hsec.
    destruct (finalize_section b) as [t s d c x]. ok_solve.
  - destruct (match chapter_full_pattern pats _ with
              | Some (cit, ttl0) => Some (cit, strip ttl0)
              | None => _ end) as [[cit ttl0]|].
    { apply finalize_chapter_ok in H.
      destruct (finalize_chapter b) as [t s d c x]. ok_solve. }
    destruct (section_pattern_of pats _) as [[cit hd]|] eqn:Hsec;
      [|by apply plain_line_ok].
    destruct (current_chapter b) as [c0|] eqn:Hc0; [|by apply plain_line_ok].
    apply finalize_section_ok in H. apply fresh_sec in Hsec.
    destruct (finalize_section b) as [t s d c x]. ok_solve.
Qed.
End NodeInvariant.

Lemma run_lines_snoc pats b lines item :
  run_lines pats b (lines ++ [item]) = step pats (run_lines pats b lines) item.
Proof. unfold run_lines. by rewrite foldl_app. Qed.

(** ** The cleaning pass keeps the properties of the nodes *)

Lemma dedup_kept_elem {X} (key : X → string) (repl : X → X → bool)
    (l kept : list X) index :
  foldlM (dedup_step key repl) ([], ∅) l = Some (kept, index) →
  ∀ x, x ∈ kept → x ∈ l.
Proof.
  intros Hrun x Hx.
  destruct (dedup_loop_result key repl l) as (k' & i' & Hrun' & _ & Hin).
  rewrite Hrun in Hrun'. injection Hrun' as <- <-.
  apply Hin in Hx. by apply survivor_elem in Hx as [? _].
Qed.

Section CleanKeeps.
Variable P : NodePred.

Lemma cleaned_chapter_ok c : ch_ok P c → ch_ok P (cleaned_chapter c).
Proof.
  destruct (clean_chapter_sections c) as (kept & index & Hrun & _ & ->).
  intros [Hc Hs]. split; [done|]. simpl.
  rewrite Forall_forall in Hs |- *. intros s Hin. apply Hs.
  rewrite clean_chapter_step_shape in Hrun. by eapply dedup_kept_elem.
Qed.

Lemma cleaned_division_ok d : div_ok P d → div_ok P (cleaned_division d).
Proof.
  rewrite cleaned_division_eq. intros [Hd Hc]. split; [done|]. simpl.
  rewrite Forall_fmap. eapply Forall_impl; [exact Hc|].
  intros c. apply cleaned_chapter_ok.
Qed.

Lemma cleaned_subtitle_ok s : sub_ok P s → sub_ok P (cleaned_subtitle s).
Proof.
  rewrite cleaned_subtitle_eq. intros (Hs & Hd & Hc).
  split; [done|]. simpl. split; rewrite Forall_fmap.
  - eapply Forall_impl; [exact Hd|]. intros d. apply cleaned_division_ok.
  - eapply Forall_impl; [exact Hc|]. intros c. apply cleaned_chapter_ok.
Qed.

Lemma clean_title_ok t t' :
  title_ok P t → clean_title t = Some t' → title_ok P t'.
Proof.
  intros Ht. destruct (clean_title_subtitles t) as (kept & index & Hrun & ->).
  intros [= <-]. unfold title_ok. simpl.
  rewrite sort_by_start_page_perm.
  rewrite Forall_forall. intros s Hs.
  rewrite dedup_subtitle_step_shape in Hrun.
  eapply dedup_kept_elem in Hs; [|exact Hrun].
  apply list_elem_of_fmap in Hs as (s0 & -> & Hs0).
  apply cleaned_subtitle_ok.
  unfold title_ok in Ht. rewrite Forall_forall in Ht. by apply Ht.
Qed.

(** The property holds of every Section of the document. *)
Lemma title_ok_sections t :
  title_ok P t → ∀ s, s ∈ title_sections t → sec_ok P s.
Proof.
  unfold title_ok, title_sections. rewrite Forall_forall.
  intros Ht s (u & Hs & Hu)%list_elem_of_bind.
  destruct (Ht u Hu) as (_ & Hd & Hc).
  rewrite Forall_forall in Hd. rewrite Forall_forall in Hc.
  apply elem_of_app in Hs as [(d & Hs & Hin)%list_elem_of_bind
                             |(c & Hs & Hin)%list_elem_of_bind].
  - destruct (Hd d Hin) as [_ Hdc]. rewrite Forall_forall in Hdc.
    apply list_elem_of_bind in Hs as (c & Hs & Hc').
    destruct (Hdc c Hc') as [_ Hcs]. rewrite Forall_forall in Hcs. auto.
  - destruct (Hc c Hin) as [_ Hcs]. rewrite Forall_forall in Hcs. auto.
Qed.
End CleanKeeps.

(** ** C4 *)

Lemma literal_exact (lit s m r : string) :
  Re.literal false lit s = Some (m, r) → m = lit.
Proof.
  revert s m r. induction lit as [|a lit IH]; intros s m r.
  - simpl. by intros [= <- _].
  - destruct s as [|b s]; [done|]. simpl. unfold Char.eqb.
    destruct (Ascii.eqb_spec a b) as [Hab|Hab]; [subst b|done].
    destruct (Re.literal false lit s) as [[m' r']|] eqn:Hl; [|done].
    simpl. intros [= <- _]. f_equal. by eapply IH.
Qed.

Lemma is_empty_false (s : string) : is_empty s = false → s ≠ "".
Proof. by destruct s. Qed.

Lemma dotted_segments_ok (s : string) :
  all_chars Char.is_alnum (Re.dotted_segments s).1 = true
  ∧ Forall segment (Re.dotted_segments s).2.1.
Proof.
  induction s as [|c s [IH1 IH2]]; [by split|]. simpl.
  destruct (Re.dotted_segments s) as [run [segs rest]]. simpl in *.
  destruct (Char.is_alnum c) eqn:Hc; simpl.
  - by rewrite Hc, IH1.
  - destruct (Ascii.eqb c "."); [|by split].
    destruct run as [|d run]; simpl; [by split|].
    split; [done|]. constructor; [|done]. by split.
Qed.

Lemma section_pattern_shape (title_number : Z) (line citation heading : string) :
  section_pattern_of (compile_heading_patterns title_number) line
  = Some (citation, heading) →
  citation_shape title_number citation.
Proof.
  cbn [section_pattern_of compile_heading_patterns]. unfold section_pattern.
  destruct (Re.literal false _ (Re.spaces line)) as [[p r]|] eqn:Hp; [|done].
  cbn [mbind option_bind].
  destruct (Re.literal false "." r) as [[d r']|] eqn:Hd; [|done].
  cbn [mbind option_bind].
  pose proof (dotted_segments_ok r') as [Hrun Hsegs].
  destruct (Re.dotted_segments r') as [seg [segs rest]]. simpl in Hrun, Hsegs.
  destruct (is_empty seg) eqn:Hseg; [done|].
  destruct segs as [|g segs]; [done|].
  destruct (Re.spaces1 rest) as [r2|]; [|done]. cbn [mbind option_bind].
  destruct (Re.dot_star_eol r2) as [hd|]; [|done]. cbn [mbind option_bind].
  intros [= <- _].
  apply literal_exact in Hp as ->. apply literal_exact in Hd as ->.
  apply Forall_cons in Hsegs as [Hg Hsegs].
  exists seg, g, segs. split; [split; [by apply is_empty_false|done]|].
  split; [done|]. split; [done|].
  reflexivity.
Qed.

Lemma initial_builder_ok P title_label title_number first_page last_page :
  builder_ok P (initial_builder title_label title_number first_page last_page).
Proof. unfold builder_ok, title_ok. simpl. by repeat split. Qed.

Lemma run_lines_citations (title_number : Z) lines b :
  builder_ok (citation_pred title_number) b →
  builder_ok (citation_pred title_number)
    (run_lines (compile_heading_patterns title_number) b lines).
Proof.
  revert b. induction lines as [|[raw page] lines IH]; intros b Hb; [done|].
  apply IH. apply step_ok; try done.
  intros line citation heading. apply section_pattern_shape.
Qed.

(** C4: [build_title_structure] returns a document, and the citation of
    every Section of that document is [str(N)] for the configured title
    number [N], a dot, and at least two non-empty alphanumeric segments
    separated by dots. *)
Theorem section_citations_contain_title_number
    (lines : list (option string * Z)) (title_label : string)
    (title_number first_page last_page : Z) :
  ∃ t,
    build_title_structure lines title_label title_number first_page last_page
    = Some t
    ∧ ∀ s, s ∈ title_sections t →
        citation_shape title_number (sec_citation s)
        ∧ startswith (sec_citation s) (pretty title_number +:+ ".") = true.
Proof.
  destruct (build_title_structure_total lines title_label title_number
              first_page last_page) as [t Ht].
  exists t. split; [done|]. intros s Hs.
  assert (Hshape : citation_shape title_number (sec_citation s)).
  { eapply (title_ok_sections (citation_pred title_number)); [|exact Hs].
    eapply clean_title_ok; [|exact Ht].
    unfold raw_title.
    eapply (finalize_subtitle_ok (citation_pred title_number)).
    apply run_lines_citations, initial_builder_ok. }
  split; [done|].
  destruct Hshape as (seg1 & seg2 & more & _ & _ & _ & ->).
  apply startswith_spec.
  exists (seg1 +:+ "." +:+ seg2 +:+ Re.dotted_text more).
  by rewrite app_assoc_s.
Qed.

(** ** C3 *)

Lemma list_grows_refl {X} (R : X → X → Prop) (l : list X) :
  (∀ x, R x x) → list_grows R l l.
Proof. intros HR. induction l; constructor; auto. Qed.

Lemma list_grows_app {X} (R : X → X → Prop) (l l' k : list X) :
  list_grows R l l' → list_grows R l (l' ++ k).
Proof. induction 1; simpl; constructor; auto. Qed.

Lemma list_grows_snoc {X} (R : X → X → Prop) (l : list X) (a a' : X) :
  (∀ x, R x x) → R a a' → list_grows R (l ++ [a]) (l ++ [a']).
Proof.
  intros HR Ha. induction l; simpl; constructor; auto. constructor.
Qed.

Lemma sec_grows_refl s : sec_grows s s.
Proof. unfold sec_grows. intuition lia. Qed.

Lemma ch_grows_refl c : ch_grows c c.
Proof.
  unfold ch_grows. repeat split; try lia.
  apply list_grows_refl, sec_grows_refl.
Qed.

Lemma div_grows_refl d : div_grows d d.
Proof.
  unfold div_grows. repeat split; try lia.
  apply list_grows_refl, ch_grows_refl.
Qed.

Lemma sub_grows_refl s : sub_grows s s.
Proof.
  unfold sub_grows. repeat split; try lia.
  - apply list_grows_refl, div_grows_refl.
  - apply list_grows_refl, ch_grows_refl.
Qed.

Ltac grows_step :=
  match goal with
  | |- sec_grows ?x ?x => apply sec_grows_refl
  | |- ch_grows ?x ?x => apply ch_grows_refl
  | |- div_grows ?x ?x => apply div_grows_refl
  | |- sub_grows ?x ?x => apply sub_grows_refl
  | |- list_grows sec_grows ?l ?l => apply list_grows_refl, sec_grows_refl
  | |- list_grows ch_grows ?l ?l => apply list_grows_refl, ch_grows_refl
  | |- list_grows div_grows ?l ?l => apply list_grows_refl, div_grows_refl
  | |- list_grows sub_grows ?l ?l => apply list_grows_refl, sub_grows_refl
  | |- list_grows sec_grows (?l ++ [_]) (?l ++ [_]) =>
      apply list_grows_snoc; [apply sec_grows_refl|]
  | |- list_grows ch_grows (?l ++ [_]) (?l ++ [_]) =>
      apply list_grows_snoc; [apply ch_grows_refl|]
  | |- list_grows div_grows (?l ++ [_]) (?l ++ [_]) =>
      apply list_grows_snoc; [apply div_grows_refl|]
  | |- list_grows sub_grows (?l ++ [_]) (?l ++ [_]) =>
      apply list_grows_snoc; [apply sub_grows_refl|]
  | |- list_grows _ _ (_ ++ _) => apply list_grows_app
  | |- sec_grows _ _ => unfold sec_grows; simpl; repeat split
  | |- ch_grows _ _ => unfold ch_grows; simpl; repeat split
  | |- div_grows _ _ => unfold div_grows; simpl; repeat split
  | |- sub_grows _ _ => unfold sub_grows; simpl; repeat split
  | |- _ = _ => reflexivity
  | |- (_ ≤ _)%Z => lia
  end.

Ltac grows := repeat grows_step.

Ltac view_unfold :=
  cbv beta iota zeta delta
    [view finalize_subtitle finalize_division finalize_chapter
     finalize_section append_to_target blank_line text_line
     title current_subtitle current_division current_chapter current_section
     subtitles title_add_subtitle title_extend_preface
     sub_add_division sub_add_chapter div_add_chapter ch_add_section].

Ltac pages_facts H :=
  unfold builder_ok, title_ok, sub_ok, div_ok, ch_ok, sec_ok, opt_ok in H;
  simpl in H.


Ltac split_builder b :=
  destruct b as [[? ? ? ? ? ?] [?|] [?|] [?|] [?|]].

Lemma view_append_to_target line new_end p b :
  builder_ok (pages_pred p) b →
  (∀ e, (e ≤ p)%Z → (e ≤ new_end e)%Z) →
  list_grows sub_grows (view b) (view (append_to_target line new_end b)).
Proof.
  intros Hok Hend. split_builder b; pages_facts Hok; view_unfold; grows;
    apply Hend; intuition lia.
Qed.

Lemma view_open_subtitle b s' :
  list_grows sub_grows (view b)
    (view (mkBuilder (title (finalize_subtitle b)) (Some s') None None None)).
Proof. split_builder b; view_unfold; grows. Qed.

Lemma view_open_division b d' :
  list_grows sub_grows (view b)
    (view (mkBuilder (title (finalize_division b))
             (current_subtitle (finalize_division b)) (Some d') None None)).
Proof. split_builder b; view_unfold; grows. Qed.

Lemma view_open_chapter b c' :
  list_grows sub_grows (view b)
    (view (mkBuilder (title (finalize_chapter b))
             (current_subtitle (finalize_chapter b))
             (current_division (finalize_chapter b)) (Some c') None)).
Proof. split_builder b; view_unfold; grows. Qed.

Lemma view_open_section b x' :
  list_grows sub_grows (view b)
    (view (mkBuilder (title (finalize_section b))
             (current_subtitle (finalize_section b))
             (current_division (finalize_section b))
             (current_chapter (finalize_section b)) (Some x'))).
Proof. split_builder b; view_unfold; grows. Qed.

Lemma view_plain_line line p q b :
  builder_ok (pages_pred p) b → (p ≤ q)%Z →
  list_grows sub_grows (view b) (view (plain_line line q b)).
Proof.
  intros Hok Hpq. unfold plain_line.
  destruct (subtitle_title_pending line b && not_sections_marker line).
  { split_builder b; cbv beta iota delta [current_subtitle];
      view_unfold; grows. }
  destruct (chapter_title_pending line b).
  { split_builder b; cbv beta iota delta [current_chapter];
      view_unfold; grows. }
  apply view_append_to_target with p; [done|]. intros; lia.
Qed.

Lemma view_step pats p q raw b :
  builder_ok (pages_pred p) b → (p ≤ q)%Z →
  list_grows sub_grows (view b) (view (step pats b (raw, q))).
Proof.
  intros Hok Hpq. unfold step. destruct raw as [raw|];
    [|apply view_append_to_target with p; [done|intros; lia]].
  cbv zeta.
  destruct (parse_subtitle_line _) as [[num ttl]|];
    [apply view_open_subtitle|].
  assert (Hrest :
    list_grows sub_grows (view b)
      (view match
             match chapter_full_pattern pats (condense (strip raw)) with
             | Some (cit, ttl) => Some (cit, strip ttl)
             | None => (λ cit, (cit, "")) <$>
                         chapter_short_pattern pats (condense (strip raw))
             end
           with
           | Some (chapter_citation, chapter_title) =>
               mkBuilder (title (finalize_chapter b))
                 (current_subtitle (finalize_chapter b))
                 (current_division (finalize_chapter b))
                 (Some (mkChapter chapter_citation chapter_title q q [] []))
                 None
           | None =>
               match section_pattern_of pats (condense (strip raw)),
                     current_chapter b with
               | Some (section_citation, section_heading), Some _ =>
                   mkBuilder (title (finalize_section b))
                     (current_subtitle (finalize_section b))
                     (current_division (finalize_section b))
                     (current_chapter (finalize_section b))
                     (Some (mkSection section_citation (strip section_heading)
                              q q []))
               | _, _ => plain_line (strip raw) q b
               end
           end)).
  { destruct (match chapter_full_pattern pats _ with
              | Some (cit, ttl0) => Some (cit, strip ttl0)
              | None => _ end) as [[cit ttl0]|]; [apply view_open_chapter|].
    destruct (section_pattern_of pats _) as [[cit hd]|];
      [|by eapply view_plain_line].
    destruct (current_chapter b);
      [apply view_open_section|by eapply view_plain_line]. }
  destruct (DIVISION_PATTERN _) as [[num ttl]|]; [|exact Hrest].
  destruct (current_subtitle b); [apply view_open_division|exact Hrest].
Qed.

Ltac slot_solve :=
  cbv beta iota zeta delta
    [slots_grow slot_grows finalize_subtitle finalize_division
     finalize_chapter finalize_section append_to_target
     title current_subtitle current_division current_chapter current_section
     title_add_subtitle title_extend_preface
     sub_add_division sub_add_chapter div_add_chapter ch_add_section];
  repeat split;
  first [ exact I
        | left; split; reflexivity
        | right; eexists; split; [reflexivity|grows] ].

Lemma slots_append_to_target line new_end p q b :
  builder_ok (pages_pred p) b →
  (∀ e, (e ≤ p)%Z → (e ≤ new_end e)%Z) →
  slots_grow q b (append_to_target line new_end b).
Proof.
  intros Hok Hend. split_builder b; pages_facts Hok; slot_solve;
    apply Hend; intuition lia.
Qed.

Lemma slots_open_subtitle q b num ttl :
  slots_grow q b
    (mkBuilder (title (finalize_subtitle b))
       (Some (mkSubtitle num ttl q q [] [] [])) None None None).
Proof. split_builder b; slot_solve. Qed.

Lemma slots_open_division q b num ttl :
  slots_grow q b
    (mkBuilder (title (finalize_division b))
       (current_subtitle (finalize_division b))
       (Some (mkDivision num ttl q q [] [])) None None).
Proof. split_builder b; slot_solve. Qed.

Lemma slots_open_chapter q b cit ttl :
  slots_grow q b
    (mkBuilder (title (finalize_chapter b))
       (current_subtitle (finalize_chapter b))
       (current_division (finalize_chapter b))
       (Some (mkChapter cit ttl q q [] [])) None).
Proof. split_builder b; slot_solve. Qed.

Lemma slots_open_section q b cit hd :
  slots_grow q b
    (mkBuilder (title (finalize_section b))
       (current_subtitle (finalize_section b))
       (current_division (finalize_section b))
       (current_chapter (finalize_section b))
       (Some (mkSection cit hd q q []))).
Proof. split_builder b; slot_solve. Qed.

Lemma slots_plain_line line p q b :
  builder_ok (pages_pred p) b → (p ≤ q)%Z →
  slots_grow q b (plain_line line q b).
Proof.
  intros Hok Hpq. unfold plain_line.
  destruct (subtitle_title_pending line b && not_sections_marker line).
  { split_builder b; slot_solve. }
  destruct (chapter_title_pending line b).
  { split_builder b; slot_solve. }
  apply slots_append_to_target with p; [done|]. intros; lia.
Qed.

Lemma slots_step pats p q raw b :
  builder_ok (pages_pred p) b → (p ≤ q)%Z →
  slots_grow q b (step pats b (raw, q)).
Proof.
  intros Hok Hpq. unfold step. destruct raw as [raw|];
    [|apply slots_append_to_target with p; [done|intros; lia]].
  cbv zeta.
  destruct (parse_subtitle_line _) as [[num ttl]|];
    [apply slots_open_subtitle|].
  assert (Hrest :
    slots_grow q b
      match
        match chapter_full_pattern pats (condense (strip raw)) with
        | Some (cit, ttl) => Some (cit, strip ttl)
        | None => (λ cit, (cit, "")) <$>
                    chapter_short_pattern pats (condense (strip raw))
        end
      with
      | Some (chapter_citation, chapter_title) =>
          mkBuilder (title (finalize_chapter b))
            (current_subtitle (finalize_chapter b))
            (current_division (finalize_chapter b))
            (Some (mkChapter chapter_citation chapter_title q q [] []))
            None
      | None =>
          match section_pattern_of pats (condense (strip raw)),
                current_chapter b with
          | Some (section_citation, section_heading), Some _ =>
              mkBuilder (title (finalize_section b))
                (current_subtitle (finalize_section b))
                (current_division (finalize_section b))
                (current_chapter (finalize_section b))
                (Some (mkSection section_citation (strip section_heading)
                         q q []))
          | _, _ => plain_line (strip raw) q b
          end
      end).
  { destruct (match chapter_full_pattern pats _ with
              | Some (cit, ttl0) => Some (cit, strip ttl0)
              | None => _ end) as [[cit ttl0]|]; [apply slots_open_chapter|].
    destruct (section_pattern_of pats _) as [[cit hd]|];
      [|by eapply slots_plain_line].
    destruct (current_chapter b);
      [apply slots_open_section|by eapply slots_plain_line]. }
  destruct (DIVISION_PATTERN _) as [[num ttl]|]; [|exact Hrest].
  destruct (current_subtitle b); [apply slots_open_division|exact Hrest].
Qed.

(** *** Every node keeps [start_page ≤ end_page ≤] the page of the line *)

Section NodeImpl.
Variables P P' : NodePred.
Hypothesis impl_sec : ∀ c s e, on_sec P c s e → on_sec P' c s e.
Hypothesis impl_ch : ∀ c s e, on_ch P c s e → on_ch P' c s e.
Hypothesis impl_div : ∀ c s e, on_div P c s e → on_div P' c s e.
Hypothesis impl_sub : ∀ c s e, on_sub P c s e → on_sub P' c s e.

Lemma ch_ok_impl c : ch_ok P c → ch_ok P' c.
Proof.
  intros [Hc Hs]. split; [by apply impl_ch|].
  eapply Forall_impl; [exact Hs|]. intros s. apply impl_sec.
Qed.

Lemma div_ok_impl d : div_ok P d → div_ok P' d.
Proof.
  intros [Hd Hc]. split; [by apply impl_div|].
  eapply Forall_impl; [exact Hc|]. apply ch_ok_impl.
Qed.

Lemma sub_ok_impl s : sub_ok P s → sub_ok P' s.
Proof.
  intros (Hs & Hd & Hc). split; [by apply impl_sub|]. split.
  - eapply Forall_impl; [exact Hd|]. apply div_ok_impl.
  - eapply Forall_impl; [exact Hc|]. apply ch_ok_impl.
Qed.

Lemma title_ok_impl t : title_ok P t → title_ok P' t.
Proof. intros Ht. eapply Forall_impl; [exact Ht|]. apply sub_ok_impl. Qed.

Lemma builder_ok_impl b : builder_ok P b → builder_ok P' b.
Proof.
  intros (Ht & Hs & Hd & Hc & Hx).
  split; [by apply title_ok_impl|].
  split; [destruct (current_subtitle b); [by apply sub_ok_impl|done]|].
  split; [destruct (current_division b); [by apply div_ok_impl|done]|].
  split; [destruct (current_chapter b); [by apply ch_ok_impl|done]|].
  destruct (current_section b); [by apply impl_sec|done].
Qed.
End NodeImpl.

Lemma pages_pred_mono p q b :
  (p ≤ q)%Z → builder_ok (pages_pred p) b → builder_ok (pages_pred q) b.
Proof. intros Hpq. apply builder_ok_impl; simpl; intros; lia. Qed.

Lemma pages_step pats p q raw b :
  builder_ok (pages_pred p) b → (p ≤ q)%Z →
  builder_ok (pages_pred q) (step pats b (raw, q)).
Proof.
  intros Hok Hpq. apply step_ok; try (simpl; intros; lia).
  by apply pages_pred_mono with p.
Qed.

Lemma nondecreasing_sorted (l : list Z) :
  nondecreasing l = true → StronglySorted Z.le l.
Proof.
  intros H. apply Sorted_StronglySorted; [apply _|].
  induction l as [|p [|q l] IH]; [constructor|by repeat constructor|].
  cbn [nondecreasing] in H. apply andb_true_iff in H as [Hpq H].
  constructor; [by apply IH|]. constructor. by apply Z.leb_le.
Qed.

Lemma run_lines_pages pats b0 pre :
  (∀ p, builder_ok (pages_pred p) b0) →
  StronglySorted Z.le pre.*2 →
  ∀ q, Forall (λ p, (p ≤ q)%Z) pre.*2 →
    builder_ok (pages_pred q) (run_lines pats b0 pre).
Proof.
  intros Hb0. induction pre as [|[raw p] pre IH] using rev_ind;
    intros Hsorted q Hq; [apply Hb0|].
  rewrite fmap_app in Hsorted, Hq. simpl in Hsorted, Hq.
  apply StronglySorted_app in Hsorted as (Hle & Hpre & _).
  apply Forall_app in Hq as [_ Hp]. rewrite Forall_singleton in Hp.
  simpl in Hp. rewrite run_lines_snoc. apply pages_pred_mono with p; [lia|].
  apply pages_step with p; [|lia]. apply IH; [done|].
  apply Forall_forall. intros x Hx. apply Hle; [done|]. by left.
Qed.

Lemma upper_bound_exists (l : list Z) : ∃ q, Forall (λ p, (p ≤ q)%Z) l.
Proof.
  induction l as [|x l [q Hq]]; [by exists 0%Z|].
  exists (Z.max x q). constructor; [lia|].
  eapply Forall_impl; [exact Hq|]. simpl. intros; lia.
Qed.

(** C3: on a stream whose page numbers do not decrease, after every line
    every node the builder holds (attached or open) has
    [start_page ≤ end_page], and no [end_page] is above the page of the
    line; from before the line to after it, every node of the tree that
    would be yielded is the same node later (same identity and [start_page],
    [end_page] not smaller, children likewise), and so is what each slot
    holds unless the line opened it; the document returned in the end has
    [start_page ≤ end_page] at every node. *)
Theorem page_ranges_monotone (lines : list (option string * Z))
    (title_label : string) (title_number first_page last_page : Z) :
  nondecreasing lines.*2 = true →
  (∀ pre raw page post,
     lines = pre ++ (raw, page) :: post →
     builder_ok (pages_pred page)
       (step (compile_heading_patterns title_number)
          (run_lines (compile_heading_patterns title_number)
             (initial_builder title_label title_number first_page last_page)
             pre)
          (raw, page))
     ∧ list_grows sub_grows
         (view (run_lines (compile_heading_patterns title_number)
                  (initial_builder title_label title_number first_page
                     last_page) pre))
         (view (step (compile_heading_patterns title_number)
                  (run_lines (compile_heading_patterns title_number)
                     (initial_builder title_label title_number first_page
                        last_page) pre)
                  (raw, page)))
     ∧ slots_grow page
         (run_lines (compile_heading_patterns title_number)
            (initial_builder title_label title_number first_page last_page)
            pre)
         (step (compile_heading_patterns title_number)
            (run_lines (compile_heading_patterns title_number)
               (initial_builder title_label title_number first_page
                  last_page) pre)
            (raw, page)))
  ∧ ∃ t,
      build_title_structure lines title_label title_number first_page
        last_page = Some t
      ∧ title_ok ordered_pred t.
Proof.
  intros Hsorted%nondecreasing_sorted.
  pose proof (λ p, initial_builder_ok (pages_pred p) title_label title_number
                     first_page last_page) as Hinit.
  split.
  - intros pre raw page post ->.
    rewrite fmap_app, fmap_cons in Hsorted. simpl in Hsorted.
    apply StronglySorted_app in Hsorted as (Hle & Hpre & _).
    assert (Hb : builder_ok (pages_pred page)
                   (run_lines (compile_heading_patterns title_number)
                      (initial_builder title_label title_number first_page
                         last_page) pre)).
    { apply run_lines_pages; [done|done|].
      apply Forall_forall. intros x Hx. apply Hle; [done|]. by left. }
    split; [apply pages_step with page; [done|lia]|].
    split; [apply view_step with page; [done|lia]|].
    apply slots_step with page; [done|lia].
  - destruct (build_title_structure_total lines title_label title_number
                first_page last_page) as [t Ht].
    exists t. split; [done|].
    destruct (upper_bound_exists lines.*2) as [q Hq].
    eapply clean_title_ok; [|exact Ht].
    apply title_ok_impl with (pages_pred q); try (simpl; intros; lia).
    unfold raw_title.
    eapply (finalize_subtitle_ok (pages_pred q)).
    by apply run_lines_pages.
Qed.

Lemma page_ranges_monotone_witness :
  ∃ t,
    build_title_structure
      [ (Some "Subtitle I Construction Codes", 1%Z); (None, 1%Z);
        (Some "Chapter 23.42 Definitions", 1%Z);
        (Some "23.42.010 Scope.", 2%Z);
        (Some "This chapter applies to...", 3%Z) ]
      "Title 23" 23 1 3 = Some t
    ∧ title_ok ordered_pred t.
Proof.
  exact (proj2 (page_ranges_monotone
    [ (Some "Subtitle I Construction Codes", 1%Z); (None, 1%Z);
      (Some "Chapter 23.42 Definitions", 1%Z);
      (Some "23.42.010 Scope.", 2%Z);
      (Some "This chapter applies to...", 3%Z) ]
    "Title 23" 23 1 3 eq_refl)).
Defined.

(** * Further properties *)

(** ** Strings, continued *)

Lemma all_chars_impl (P Q : ascii → bool) (s : string) :
  (∀ c, P c = true → Q c = true) →
  all_chars P s = true → all_chars Q s = true.
Proof.
  intros HPQ. induction s as [|c s IH]; [done|]. simpl.
  intros [Hc Hs]%andb_true_iff. by rewrite (HPQ c Hc), IH.
Qed.

Lemma all_chars_app (P : ascii → bool) (s t : string) :
  all_chars P (s +:+ t) = all_chars P s && all_chars P t.
Proof.
  induction s as [|c s IH]; [done|]. rewrite app_cons_s. simpl.
  by rewrite IH, andb_assoc.
Qed.

Lemma span_all_chars (P Q : ascii → bool) (s : string) :
  all_chars P s = true →
  all_chars P (span Q s).1 = true ∧ all_chars P (span Q s).2 = true.
Proof.
  induction s as [|c s IH]; [done|]. simpl.
  intros [Hc Hs]%andb_true_iff. destruct (IH Hs) as [H1 H2].
  destruct (Q c); simpl; [|by rewrite Hc, Hs].
  destruct (span Q s) as [a b]. simpl in *. by rewrite Hc, H1.
Qed.

Lemma rstrip_by_all_chars (P q : ascii → bool) (s : string) :
  all_chars P s = true → all_chars P (rstrip_by q s) = true.
Proof.
  induction s as [|c s IH]; [done|]. simpl.
  intros [Hc Hs]%andb_true_iff. specialize (IH Hs).
  destruct (rstrip_by q s) as [|d r]; simpl.
  - destruct (q c); simpl; [done|by rewrite Hc].
  - simpl in IH. by rewrite Hc, IH.
Qed.

Lemma rstrip_by_cons (q : ascii → bool) (c : ascii) (s : string) :
  rstrip_by q (String c s)
  = match rstrip_by q s with
    | EmptyString => if q c then EmptyString else String c EmptyString
    | r => String c r
    end.
Proof. done. Qed.

Lemma rstrip_by_idemp (q : ascii → bool) (s : string) :
  rstrip_by q (rstrip_by q s) = rstrip_by q s.
Proof.
  induction s as [|c s IH]; [done|]. rewrite rstrip_by_cons.
  destruct (rstrip_by q s) as [|d r] eqn:Hr.
  - destruct (q c) eqn:Hc; simpl; [done|by rewrite Hc].
  - by rewrite rstrip_by_cons, IH.
Qed.

Lemma lstrip_cons (c : ascii) (s : string) :
  lstrip (String c s) = if Char.is_space c then lstrip s else String c s.
Proof.
  unfold lstrip. simpl. destruct (Char.is_space c); [|done].
  by destruct (span Char.is_space s).
Qed.

Lemma lstrip_rstrip (s : string) : lstrip (rstrip s) = rstrip (lstrip s).
Proof.
  unfold rstrip. induction s as [|c s IH]; [done|].
  rewrite lstrip_cons. cbn [rstrip_by].
  destruct (Char.is_space c) eqn:Hc.
  - rewrite <-IH. destruct (rstrip_by Char.is_space s) as [|d r]; [done|].
    by rewrite lstrip_cons, Hc.
  - cbn [rstrip_by].
    destruct (rstrip_by Char.is_space s) as [|d r];
      by rewrite lstrip_cons, Hc.
Qed.

Lemma strip_rstrip (s : string) : strip (rstrip s) = strip s.
Proof.
  unfold strip. rewrite lstrip_rstrip. apply rstrip_by_idemp.
Qed.

Lemma strip_idemp (s : string) : strip (strip s) = strip s.
Proof.
  unfold strip at 2. rewrite strip_rstrip. unfold strip.
  assert (Hl : ∀ t, lstrip (lstrip t) = lstrip t).
  { induction t as [|c t IH]; [done|]. rewrite lstrip_cons.
    destruct (Char.is_space c) eqn:Hc; [done|]. by rewrite lstrip_cons, Hc. }
  by rewrite Hl.
Qed.

(** ** The line stream of [iter_lines_with_pages] *)

Lemma split_on_all_chars (P : ascii → bool) (sep : ascii) (s : string) :
  all_chars P s = true → Forall (λ piece, all_chars P piece = true) (split_on sep s).
Proof.
  induction s as [|c s IH]; [by repeat constructor|]. simpl.
  intros [Hc Hs]%andb_true_iff. specialize (IH Hs).
  destruct (Ascii.eqb c sep); [by constructor|].
  destruct (split_on sep s) as [|piece pieces].
  - repeat constructor. simpl. by rewrite Hc.
  - apply Forall_cons in IH as [Hp Hps]. constructor; [|done].
    simpl. by rewrite Hc, Hp.
Qed.

Lemma split_on_no_sep (sep : ascii) (s : string) :
  Forall (λ piece, all_chars (λ c, negb (Ascii.eqb c sep)) piece = true)
    (split_on sep s).
Proof.
  induction s as [|c s IH]; [by repeat constructor|]. simpl.
  destruct (Ascii.eqb c sep) eqn:Hc; [by constructor|].
  destruct (split_on sep s) as [|piece pieces].
  - repeat constructor. simpl. by rewrite Hc.
  - apply Forall_cons in IH as [Hp Hps]. constructor; [|done].
    simpl. by rewrite Hc, Hp.
Qed.

Lemma remove_char_none (c : ascii) (s : string) :
  all_chars (λ d, negb (Ascii.eqb d c)) (remove_char c s) = true.
Proof.
  induction s as [|d s IH]; [done|]. simpl.
  destruct (Ascii.eqb d c) eqn:Hd; [done|]. simpl. by rewrite Hd, IH.
Qed.

Lemma mend_hyphens_all_chars (P : ascii → bool) (s : string) :
  all_chars P s = true →
  ∀ prev_word skip, all_chars P (mend_hyphens prev_word skip s) = true.
Proof.
  induction s as [|c s IH]; [done|]. simpl.
  intros [Hc Hs]%andb_true_iff prev_word [|k]; [|by apply IH].
  destruct (Ascii.eqb c "-" && prev_word);
    [destruct (hyphen_break s); [by apply IH|]|];
    simpl; by rewrite Hc, IH.
Qed.

Lemma normalize_page_text_no_cr (raw : string) :
  all_chars (λ c, negb (Ascii.eqb c "013")) (normalize_page_text raw) = true.
Proof.
  unfold normalize_page_text. destruct (is_empty raw); [done|].
  apply mend_hyphens_all_chars, remove_char_none.
Qed.

Lemma elem_of_page_lines (page p : Z) (o : option string)
    (raw_lines : list string) :
  (o, p) ∈ page_lines page raw_lines →
  p = page
  ∧ (o = None
     ∨ ∃ raw_line, raw_line ∈ raw_lines ∧ o = Some (rstrip raw_line)
         ∧ is_empty (strip raw_line) = false
         ∧ FOOTER_PATTERN (strip (rstrip raw_line)) = false).
Proof.
  unfold page_lines. intros (raw_line & Hin & Hraw)%list_elem_of_bind.
  destruct (is_empty (strip raw_line)) eqn:Hblank.
  - apply list_elem_of_singleton in Hin as [= -> ->]. by split; [|left].
  - destruct (FOOTER_PATTERN (strip (rstrip raw_line))) eqn:Hfoot;
      [by apply elem_of_nil in Hin|].
    apply list_elem_of_singleton in Hin as [= -> ->].
    split; [done|right]. eauto.
Qed.

Lemma elem_of_iter_lines (pages : list (Z * string)) (o : option string) (p : Z) :
  (o, p) ∈ iter_lines_with_pages pages →
  ∃ raw_text, (p, raw_text) ∈ pages
    ∧ (o, p) ∈ page_lines p (split_on "010" (normalize_page_text raw_text)).
Proof.
  unfold iter_lines_with_pages.
  intros ([page raw_text] & Hin & Hpage)%list_elem_of_bind.
  destruct (elem_of_page_lines _ _ _ _ Hin) as [-> _]. eauto.
Qed.

Lemma normalized_line_no_breaks (raw_text raw_line : string) :
  raw_line ∈ split_on "010" (normalize_page_text raw_text) →
  all_chars (λ c, negb (Ascii.eqb c "010") && negb (Ascii.eqb c "013")) raw_line
  = true.
Proof.
  intros Hraw.
  pose proof (split_on_no_sep "010" (normalize_page_text raw_text)) as Hlf.
  pose proof (split_on_all_chars _ "010" _ (normalize_page_text_no_cr raw_text))
    as Hcr.
  rewrite Forall_forall in Hlf. rewrite Forall_forall in Hcr.
  specialize (Hlf raw_line Hraw). specialize (Hcr raw_line Hraw).
  simpl in Hlf, Hcr.
  clear -Hlf Hcr. induction raw_line as [|c raw_line IH]; [done|]. simpl in *.
  apply andb_true_iff in Hlf as [-> Hlf].
  apply andb_true_iff in Hcr as [-> Hcr]. simpl. by apply IH.
Qed.

(** X1: what [iter_lines_with_pages] yields as a line is never blank, has no
    white space at its end, holds neither a line feed nor a carriage
    return, is not a footer stamp, and comes with the number of a page of
    the input. *)
Theorem iter_lines_yields_clean_lines (pages : list (Z * string))
    (line : string) (p : Z) :
  (Some line, p) ∈ iter_lines_with_pages pages →
  strip line ≠ ""
  ∧ rstrip line = line
  ∧ all_chars (λ c, negb (Ascii.eqb c "010") && negb (Ascii.eqb c "013")) line
    = true
  ∧ FOOTER_PATTERN (strip line) = false
  ∧ p ∈ pages.*1.
Proof.
  intros (raw_text & Hpage & Hin)%elem_of_iter_lines.
  apply elem_of_page_lines in Hin as [_ [[=]|(raw & Hraw & [= ->] & Hb & Hf)]].
  split; [|split; [|split; [|split]]].
  - rewrite strip_rstrip. by apply is_empty_false.
  - apply rstrip_by_idemp.
  - by eapply rstrip_by_all_chars, normalized_line_no_breaks.
  - done.
  - apply list_elem_of_fmap. by exists (p, raw_text).
Qed.

Lemma iter_lines_yields_clean_lines_witness :
  strip "Title 23" ≠ ""
  ∧ rstrip "Title 23" = "Title 23"
  ∧ all_chars (λ c, negb (Ascii.eqb c "010") && negb (Ascii.eqb c "013"))
      "Title 23" = true
  ∧ FOOTER_PATTERN (strip "Title 23") = false
  ∧ 7%Z ∈ [(7%Z, "Title 23  ")].*1.
Proof.
  apply (iter_lines_yields_clean_lines [(7%Z, "Title 23  ")] "Title 23" 7).
  vm_compute. left.
Defined.

Lemma iter_lines_cons (page_number : Z) (raw_text : string)
    (pages : list (Z * string)) :
  iter_lines_with_pages ((page_number, raw_text) :: pages)
  = page_lines page_number (split_on "010" (normalize_page_text raw_text))
    ++ iter_lines_with_pages pages.
Proof. done. Qed.

Lemma page_lines_pages (page : Z) (raw_lines : list string) :
  Forall (λ p, p = page) (page_lines page raw_lines).*2.
Proof.
  apply Forall_forall. intros p ([o p'] & -> & Hin)%list_elem_of_fmap.
  by apply elem_of_page_lines in Hin as [-> _].
Qed.

Lemma iter_lines_pages_elem (pages : list (Z * string)) (p : Z) :
  p ∈ (iter_lines_with_pages pages).*2 → p ∈ pages.*1.
Proof.
  intros ([o p'] & -> & Hin)%list_elem_of_fmap.
  apply elem_of_iter_lines in Hin as (raw & Hin & _).
  apply list_elem_of_fmap. by exists (p', raw).
Qed.

Lemma iter_lines_pages_sorted (pages : list (Z * string)) :
  StronglySorted Z.le pages.*1 →
  StronglySorted Z.le (iter_lines_with_pages pages).*2.
Proof.
  induction pages as [|[page raw] pages IH]; [done|].
  rewrite fmap_cons. cbn [fst]. intros Hs.
  inversion_clear Hs as [|? ? Hs' Hle].
  rewrite iter_lines_cons, fmap_app.
  pose proof (page_lines_pages page
                (split_on "010" (normalize_page_text raw))) as Hp.
  rewrite Forall_forall in Hp.
  apply StronglySorted_app_2; [| |by apply IH].
  - intros x1 x2 ->%Hp Hx2%iter_lines_pages_elem.
    rewrite Forall_forall in Hle. by apply Hle.
  - clear -Hp. induction (page_lines _ _).*2 as [|x l IHl]; constructor.
    + apply IHl. intros y Hy. apply Hp. by right.
    + apply Forall_forall. intros y Hy.
      rewrite (Hp x), (Hp y); [done|by right|by left].
Qed.

(** X2: the page numbers that [iter_lines_with_pages] yields are page numbers
    of its input, and they do not decrease when those of the input do not. *)
Theorem iter_lines_keeps_page_order (pages : list (Z * string)) :
  StronglySorted Z.le pages.*1 →
  StronglySorted Z.le (iter_lines_with_pages pages).*2
  ∧ nondecreasing (iter_lines_with_pages pages).*2 = true
  ∧ ∀ p, p ∈ (iter_lines_with_pages pages).*2 → p ∈ pages.*1.
Proof.
  intros Hs%iter_lines_pages_sorted. split; [done|].
  split; [|apply iter_lines_pages_elem].
  induction Hs as [|p l Hs IH Hle]; [done|].
  destruct l as [|q l]; [done|].
  change (nondecreasing (p :: q :: l))
    with ((p <=? q)%Z && nondecreasing (q :: l)).
  apply Forall_cons in Hle as [Hpq _]. rewrite IH.
  by apply Z.leb_le in Hpq as ->.
Qed.

Lemma iter_lines_keeps_page_order_witness :
  StronglySorted Z.le
    (iter_lines_with_pages
       [(4%Z, "Title 23" +:+ String "010" "" +:+ "LAND USE"); (5%Z, "")]).*2.
Proof.
  refine (proj1 (iter_lines_keeps_page_order
    [(4%Z, "Title 23" +:+ String "010" "" +:+ "LAND USE"); (5%Z, "")] _)).
  simpl. repeat (constructor; try lia).
Defined.

(** ** [locate_title_range] *)

Lemma locate_loop_started (title_number next : Z) (pages : list (option string))
    (index start end_index : nat) :
  ∃ e,
    locate_loop title_number (Some next) index (Some start) end_index pages
    = (Some start, e)
    ∧ ((e = end_index
        ∧ ∀ page, page ∈ pages →
            title_page_pattern next (page_text page) = false)
       ∨ ∃ j page,
           e = index + j ∧ pages !! j = Some page
           ∧ title_page_pattern next (page_text page) = true
           ∧ ∀ i page', i < j → pages !! i = Some page' →
               title_page_pattern next (page_text page') = false).
Proof.
  revert index. induction pages as [|page pages IH]; intros index.
  - exists end_index. split; [done|]. left. split; [done|].
    by intros page ?%elem_of_nil.
  - simpl. destruct (title_page_pattern next (page_text page)) eqn:Hnext.
    + exists index. split; [done|]. right. exists 0, page.
      split; [lia|]. split; [done|]. split; [done|]. intros; lia.
    + destruct (IH (S index)) as (e & -> & [[-> Hall]|(j & p & -> & Hj & Hp & Hlt)]).
      * exists end_index. split; [done|]. left. split; [done|].
        by intros p [->|?]%elem_of_cons; [|apply Hall].
      * exists (S index + j). split; [done|]. right. exists (S j), p.
        split; [lia|]. split; [done|]. split; [done|].
        intros [|i] page' Hi; simpl; [by intros [= <-]|].
        apply Hlt. lia.
Qed.

Lemma locate_loop_searching (title_number : Z) (next : option Z)
    (pages : list (option string)) (index end_index : nat) :
  (locate_loop title_number next index None end_index pages = (None, end_index)
   ∧ ∀ page, page ∈ pages →
       title_page_pattern title_number (page_text page) = false)
  ∨ ∃ j page,
      pages !! j = Some page
      ∧ title_page_pattern title_number (page_text page) = true
      ∧ (∀ i page', i < j → pages !! i = Some page' →
           title_page_pattern title_number (page_text page') = false)
      ∧ locate_loop title_number next index None end_index pages
        = locate_loop title_number next (index + S j) (Some (index + j))
            end_index (drop (S j) pages).
Proof.
  revert index. induction pages as [|page pages IH]; intros index.
  - left. split; [done|]. by intros page ?%elem_of_nil.
  - simpl. destruct (title_page_pattern title_number (page_text page)) eqn:Hm.
    + right. exists 0, page. split; [done|]. split; [done|].
      split; [intros; lia|]. simpl. rewrite drop_0.
      by rewrite Nat.add_1_r, Nat.add_0_r.
    + destruct (IH (S index)) as [[-> Hall]|(j & p & Hj & Hp & Hlt & ->)].
      * left. split; [done|].
        by intros p [->|?]%elem_of_cons; [|apply Hall].
      * right. exists (S j), p. split; [done|]. split; [done|]. split.
        -- intros [|i] page' Hi; simpl; [by intros [= <-]|]. apply Hlt. lia.
        -- simpl. by rewrite <-!Nat.add_succ_comm.
Qed.

(** What [locate_title_range] returns when a next title is given (as [main]
    always does). *)
Lemma locate_title_range_cases (reader : Reader) (title_number next : Z) :
  (locate_title_range reader title_number (Some next) = inl ValueError
   ∧ ∀ page, page ∈ reader →
       title_page_pattern title_number (page_text page) = false)
  ∨ ∃ start end_ page,
      locate_title_range reader title_number (Some next) = inr (start, end_)
      ∧ start < end_ ≤ length reader
      ∧ reader !! start = Some page
      ∧ title_page_pattern title_number (page_text page) = true
      ∧ (∀ i page', i < start → reader !! i = Some page' →
           title_page_pattern title_number (page_text page') = false)
      ∧ (∀ i page', start < i < end_ → reader !! i = Some page' →
           title_page_pattern next (page_text page') = false)
      ∧ (end_ < length reader →
           ∃ page', reader !! end_ = Some page'
             ∧ title_page_pattern next (page_text page') = true).
Proof.
  unfold locate_title_range.
  destruct (locate_loop_searching title_number (Some next) reader 0
              (length reader)) as [[-> Hall]|(j & p & Hj & Hp & Hlt & ->)];
    [by left|right].
  pose proof (lookup_lt_Some _ _ _ Hj) as Hjlen.
  destruct (locate_loop_started title_number next (drop (S j) reader)
              (0 + S j) (0 + j) (length reader))
    as (e & -> & [[-> Hall]|(k & q & -> & Hk & Hq & Hklt)]).
  - exists j, (length reader), p. simpl. split; [done|]. split; [lia|].
    split; [done|]. split; [done|]. split; [done|]. split; [|lia].
    intros i page' [Hi1 Hi2] Hi. apply Hall.
    apply list_elem_of_lookup. exists (i - S j). rewrite lookup_drop.
    by replace (S j + (i - S j)) with i by lia.
  - rewrite lookup_drop in Hk.
    pose proof (lookup_lt_Some _ _ _ Hk) as Hklen.
    exists j, (S j + k), p. simpl. split; [done|]. split; [lia|].
    split; [done|]. split; [done|]. split; [done|]. split.
    + intros i page' [Hi1 Hi2] Hi. apply (Hklt (i - S j)); [lia|].
      rewrite lookup_drop. by replace (S j + (i - S j)) with i by lia.
    + intros _. by exists q.
Qed.

(** X3: [locate_title_range] raises [ValueError] exactly when no page starts
    with the title's heading; otherwise [start] is the first such page and
    [end] is the first later page that starts with the next title's
    heading, or the number of pages when there is none (or no next title is
    given); so [start < end ≤ len(reader.pages)]. *)
Theorem locate_title_range_spec (reader : Reader) (title_number : Z)
    (next_title_number : option Z) :
  match locate_title_range reader title_number next_title_number with
  | inl e =>
      e = ValueError
      ∧ ∀ page, page ∈ reader →
          title_page_pattern title_number (page_text page) = false
  | inr (start, end_) =>
      start < end_ ≤ length reader
      ∧ (∃ page, reader !! start = Some page
           ∧ title_page_pattern title_number (page_text page) = true)
      ∧ (∀ i page, i < start → reader !! i = Some page →
           title_page_pattern title_number (page_text page) = false)
      ∧ (∀ i page next, start < i < end_ → next_title_number = Some next →
           reader !! i = Some page →
           title_page_pattern next (page_text page) = false)
      ∧ (end_ < length reader →
           ∃ page next, next_title_number = Some next
             ∧ reader !! end_ = Some page
             ∧ title_page_pattern next (page_text page) = true)
      ∧ (next_title_number = None → end_ = length reader)
  end.
Proof.
  destruct next_title_number as [next|].
  - destruct (locate_title_range_cases reader title_number next)
      as [[-> Hall]|(start & end_ & p & -> & Hlt & Hs & Hp & Hb & Hm & He)];
      [done|].
    split; [done|]. split; [by exists p|]. split; [done|].
    split; [by intros i page n Hi [= <-]; apply Hm|].
    split; [|done]. intros (q & Hq & Hqm)%He. by exists q, next.
  - unfold locate_title_range.
    destruct (locate_loop_searching title_number None reader 0
                (length reader)) as [[-> Hall]|(j & p & Hj & Hp & Hlt & ->)];
      [done|].
    pose proof (lookup_lt_Some _ _ _ Hj) as Hjlen.
    assert (Hrest : ∀ pages index,
              locate_loop title_number None index (Some (0 + j))
                (length reader) pages = (Some (0 + j), length reader)).
    { induction pages as [|x pages IH]; intros index; [done|]. apply IH. }
    rewrite Hrest. simpl. split; [lia|]. split; [by exists p|].
    split; [done|]. split; [done|]. split; [lia|done].
Qed.

(** ** [extract_pages] *)

Lemma mapM_elems {X Y} (f : X → option Y) (g : X → Y) (l : list X) :
  (∀ x, x ∈ l → f x = Some (g x)) → mapM f l = Some (g <$> l).
Proof.
  induction l as [|x l IH]; intros Hf; [done|].
  simpl. rewrite (Hf x) by left. simpl. rewrite IH; [done|].
  intros y Hy. apply Hf. by right.
Qed.

(** The page [extract_pages] makes of index [index]. *)
Lemma extract_pages_ok (reader : Reader) (start end_ : nat) :
  end_ ≤ length reader ∨ end_ ≤ start →
  extract_pages reader start end_
  = inr ((λ index, (Z.of_nat (index + 1), default "" (mjoin (reader !! index))))
           <$> seq start (end_ - start)).
Proof.
  intros Hend. unfold extract_pages. rewrite (mapM_elems _
    (λ index, (Z.of_nat (index + 1), default "" (mjoin (reader !! index)))));
    [done|].
  intros index [Hi1 Hi2]%elem_of_seq.
  destruct (lookup_lt_is_Some_2 reader index) as [page Hpage]; [lia|].
  by rewrite Hpage.
Qed.

(** X4: [extract_pages] returns the pages of the indices [start] to
    [end - 1], in order, each with its index plus one as its number and
    with the empty string for a page without text; when the range is not
    empty and goes past the last page it raises [IndexError]. *)
Theorem extract_pages_spec (reader : Reader) (start end_ : nat) :
  (end_ ≤ length reader ∨ end_ ≤ start →
   ∃ pages,
     extract_pages reader start end_ = inr pages
     ∧ length pages = end_ - start
     ∧ ∀ k, k < end_ - start →
         ∃ page, reader !! (start + k) = Some page
           ∧ pages !! k = Some ((Z.of_nat (start + k) + 1)%Z, default "" page))
  ∧ (start < end_ → length reader < end_ →
     extract_pages reader start end_ = inl IndexError).
Proof.
  split.
  - intros Hend. rewrite extract_pages_ok by done. eexists. split; [done|].
    split; [by rewrite length_fmap, length_seq|].
    intros k Hk.
    destruct (lookup_lt_is_Some_2 reader (start + k)) as [page Hpage]; [lia|].
    exists page. split; [done|].
    rewrite list_lookup_fmap, lookup_seq_lt by done. simpl.
    rewrite Hpage. simpl. do 2 f_equal. lia.
  - intros Hlt Hlen. unfold extract_pages. rewrite (mapM_None_2 _ _); [done|].
    apply Exists_exists. exists (end_ - 1). split.
    + apply elem_of_seq. lia.
    + rewrite (lookup_ge_None_2 reader (end_ - 1)) by lia. done.
Qed.

(** ** The page ranges of the document [main] builds *)

Lemma range_pred_mono lo p q b :
  (p ≤ q)%Z → builder_ok (range_pred lo p) b → builder_ok (range_pred lo q) b.
Proof. intros Hpq. apply builder_ok_impl; simpl; intros; lia. Qed.

Lemma range_step pats lo p q raw b :
  builder_ok (range_pred lo p) b → (p ≤ q)%Z → (lo ≤ q)%Z →
  builder_ok (range_pred lo q) (step pats b (raw, q)).
Proof.
  intros Hok Hpq Hlo. apply step_ok; try (simpl; intros; lia).
  by apply range_pred_mono with p.
Qed.

Lemma run_lines_range pats lo b0 pre :
  (∀ p, builder_ok (range_pred lo p) b0) →
  StronglySorted Z.le pre.*2 →
  Forall (λ p, (lo ≤ p)%Z) pre.*2 →
  ∀ q, Forall (λ p, (p ≤ q)%Z) pre.*2 →
    builder_ok (range_pred lo q) (run_lines pats b0 pre).
Proof.
  intros Hb0. induction pre as [|[raw p] pre IH] using rev_ind;
    intros Hsorted Hlo q Hq; [apply Hb0|].
  rewrite fmap_app in Hsorted, Hlo, Hq. simpl in Hsorted, Hlo, Hq.
  apply StronglySorted_app in Hsorted as (Hle & Hpre & _).
  apply Forall_app in Hq as [_ Hp]. rewrite Forall_singleton in Hp.
  apply Forall_app in Hlo as [Hlo Hlop]. rewrite Forall_singleton in Hlop.
  simpl in Hp. rewrite run_lines_snoc. apply range_pred_mono with p; [lia|].
  apply range_step with p; [|lia|done]. apply IH; [done|done|].
  apply Forall_forall. intros x Hx. apply Hle; [done|]. by left.
Qed.

Lemma header_finalize_section b :
  title_header (title (finalize_section b)) = title_header (title b).
Proof. unfold finalize_section. by repeat case_match. Qed.

Lemma header_finalize_chapter b :
  title_header (title (finalize_chapter b)) = title_header (title b).
Proof.
  unfold finalize_chapter. cbv zeta.
  repeat case_match; simpl; try apply header_finalize_section;
    rewrite <-(header_finalize_section b); done.
Qed.

Lemma header_finalize_division b :
  title_header (title (finalize_division b)) = title_header (title b).
Proof.
  unfold finalize_division. cbv zeta.
  repeat case_match; apply header_finalize_chapter.
Qed.

Lemma header_finalize_subtitle b :
  title_header (title (finalize_subtitle b)) = title_header (title b).
Proof.
  unfold finalize_subtitle. cbv zeta.
  repeat case_match; apply header_finalize_division.
Qed.

Lemma header_append_to_target line new_end b :
  title_header (title (append_to_target line new_end b))
  = title_header (title b).
Proof. unfold append_to_target. by repeat case_match. Qed.

Lemma header_plain_line line page b :
  title_header (title (plain_line line page b)) = title_header (title b).
Proof.
  unfold plain_line, text_line.
  repeat case_match; try done; apply header_append_to_target.
Qed.

Lemma header_step pats b item :
  title_header (title (step pats b item)) = title_header (title b).
Proof.
  unfold step, blank_line. destruct item as [[raw|] page].
  - repeat case_match; subst; simpl;
      first [ apply header_finalize_subtitle | apply header_finalize_division
            | apply header_finalize_chapter | apply header_finalize_section
            | apply header_plain_line ].
  - apply header_append_to_target.
Qed.

Lemma header_run_lines pats lines b :
  title_header (title (run_lines pats b lines)) = title_header (title b).
Proof.
  revert b. induction lines as [|item lines IH]; intros b; [done|].
  simpl. etrans; [apply IH|apply header_step].
Qed.

Lemma header_build_title_structure lines title_label title_number first last t :
  build_title_structure lines title_label title_number first last = Some t →
  title_header t = (title_label, title_number, first, last).
Proof.
  unfold build_title_structure, clean_title. intros H.
  destruct (foldlM _ _ _) as [[cleaned m]|]; simplify_eq/=.
  unfold raw_title.
  change (title_header (title (finalize_subtitle
            (run_lines (compile_heading_patterns title_number)
               (initial_builder title_label title_number first last) lines)))
          = (title_label, title_number, first, last)).
  by rewrite header_finalize_subtitle, header_run_lines.
Qed.

Lemma seq_pages_sorted (start n : nat) :
  StronglySorted Z.le ((λ index, Z.of_nat (index + 1)) <$> seq start n).
Proof.
  revert start. induction n as [|n IH]; intros start; [constructor|].
  simpl. constructor; [apply IH|].
  apply Forall_forall. intros p (i & -> & [Hi _]%elem_of_seq)%list_elem_of_fmap.
  lia.
Qed.

(** A page range builds a document whose nodes lie in the range. *)
Lemma build_in_range (pages : list (Z * string)) (lo hi : Z) title_label
    title_number first last t :
  StronglySorted Z.le pages.*1 →
  Forall (λ p, (lo ≤ p ∧ p ≤ hi)%Z) pages.*1 →
  build_title_structure (iter_lines_with_pages pages) title_label title_number
    first last = Some t →
  title_ok (range_pred lo hi) t.
Proof.
  intros Hsorted Hrange Ht.
  eapply clean_title_ok; [|exact Ht]. unfold raw_title.
  eapply (finalize_subtitle_ok (range_pred lo hi)); try (simpl; intros; lia).
  rewrite Forall_forall in Hrange.
  apply run_lines_range.
  - intros p. apply initial_builder_ok.
  - by apply iter_lines_pages_sorted.
  - apply Forall_forall. intros p Hp%iter_lines_pages_elem. by apply Hrange.
  - apply Forall_forall. intros p Hp%iter_lines_pages_elem. by apply Hrange.
Qed.

(** What [main] builds when the title is found. *)
Lemma main_title_found (reader : Reader) (title_number : Z)
    (next_title : option Z) (label_arg : option string) (start end_ : nat) :
  locate_title_range reader title_number
    (Some (default (title_number + 1)%Z next_title)) = inr (start, end_) →
  start < end_ ≤ length reader →
  ∃ t label,
    main_title reader title_number next_title label_arg = inr t
    ∧ build_title_structure
        (iter_lines_with_pages
           ((λ index, (Z.of_nat (index + 1), default "" (mjoin (reader !! index))))
              <$> seq start (end_ - start)))
        label title_number (Z.of_nat start + 1) (Z.of_nat end_) = Some t.
Proof.
  intros Hloc Hlt. unfold main_title. cbv zeta. rewrite Hloc.
  rewrite extract_pages_ok by lia.
  destruct (end_ - start) as [|n] eqn:Hn; [lia|].
  set (page_of := λ index : nat,
         (Z.of_nat (index + 1), default "" (mjoin (reader !! index)))).
  assert (Hhead : head (page_of <$> seq start (S n)) = Some (page_of start))
    by done.
  assert (Hlast : last (page_of <$> seq start (S n))
                  = Some (page_of (start + n))).
  { rewrite seq_S, fmap_app. apply last_snoc. }
  rewrite Hhead, Hlast. cbn [page_of fst].
  replace (Z.of_nat (start + 1)) with (Z.of_nat start + 1)%Z by lia.
  replace (Z.of_nat (start + n + 1)) with (Z.of_nat end_) by lia.
  match goal with
  | |- context [build_title_structure ?l ?lbl ?n ?f ?e] =>
      destruct (build_title_structure_total l lbl n f e) as [t Ht];
      exists t, lbl
  end.
  by rewrite Ht.
Qed.

(** The document of [main], when there is one. *)
Lemma main_title_inr (reader : Reader) (title_number : Z)
    (next_title : option Z) (label_arg : option string) (t : TitleData) :
  main_title reader title_number next_title label_arg = inr t →
  ∃ start end_,
    locate_title_range reader title_number
      (Some (default (title_number + 1)%Z next_title)) = inr (start, end_)
    ∧ start < end_ ≤ length reader
    ∧ number t = title_number
    ∧ start_page t = (Z.of_nat start + 1)%Z
    ∧ end_page t = Z.of_nat end_
    ∧ title_ok (range_pred (start_page t) (end_page t)) t.
Proof.
  destruct (locate_title_range_cases reader title_number
              (default (title_number + 1)%Z next_title))
    as [[Hloc Hall]|(start & end_ & p & Hloc & Hlt & _)].
  - unfold main_title. cbv zeta. by rewrite Hloc.
  - destruct (main_title_found reader title_number next_title label_arg
                start end_ Hloc Hlt) as (t' & lbl & -> & Ht).
    intros [= <-]. exists start, end_. split; [done|]. split; [done|].
    pose proof (header_build_title_structure _ _ _ _ _ _ Ht) as [= _ Hn Hs He].
    rewrite Hn, Hs, He. split; [done|]. split; [done|]. split; [done|].
    eapply build_in_range; [| |exact Ht].
    + rewrite <-list_fmap_compose. apply seq_pages_sorted.
    + rewrite <-list_fmap_compose. apply Forall_forall.
      intros q (i & -> & [Hi1 Hi2]%elem_of_seq)%list_elem_of_fmap. simpl. lia.
Qed.

(** X5: [main] fails only with the [ValueError] of [locate_title_range],
    when no page starts with the title's heading.  Otherwise it builds a
    document with the requested number, whose [start_page] is the number
    of the first page of the title and whose [end_page] is the number of
    its last page, both numbers of pages of the file; every Subtitle,
    Division, Chapter and Section of the document has
    [start_page ≤ end_page], both within the page range of the
    document. *)
Theorem main_title_spec (reader : Reader) (title_number : Z)
    (next_title : option Z) (label_arg : option string) :
  match main_title reader title_number next_title label_arg with
  | inl e =>
      e = ValueError
      ∧ ∀ page, page ∈ reader →
          title_page_pattern title_number (page_text page) = false
  | inr t =>
      ∃ start end_,
        locate_title_range reader title_number
          (Some (default (title_number + 1)%Z next_title)) = inr (start, end_)
        ∧ number t = title_number
        ∧ start_page t = (Z.of_nat start + 1)%Z
        ∧ end_page t = Z.of_nat end_
        ∧ (1 ≤ start_page t ∧ start_page t ≤ end_page t
           ∧ end_page t ≤ Z.of_nat (length reader))%Z
        ∧ title_ok (range_pred (start_page t) (end_page t)) t
  end.
Proof.
  destruct (main_title reader title_number next_title label_arg)
    as [e|t] eqn:Hmain.
  - destruct (locate_title_range_cases reader title_number
                (default (title_number + 1)%Z next_title))
      as [[Hloc Hall]|(start & end_ & p & Hloc & Hlt & _)].
    + unfold main_title in Hmain. cbv zeta in Hmain. rewrite Hloc in Hmain.
      by injection Hmain as <-.
    + destruct (main_title_found reader title_number next_title label_arg
                  start end_ Hloc Hlt) as (t' & lbl & Ht' & _).
      by rewrite Ht' in Hmain.
  - apply main_title_inr in Hmain
      as (start & end_ & Hloc & Hlt & Hn & Hs & He & Hok).
    exists start, end_. split; [done|]. split; [done|]. split; [done|].
    split; [done|]. split; [lia|done].
Qed.

(** ** What the text buffers hold *)

Section LineInvariant.
Variable Q : string → Prop.

Ltac lines_unfold :=
  unfold builder_lines, title_lines, sub_lines, div_lines, ch_lines,
    sec_lines, opt_ok in *;
  simpl in *.

Ltac lines_solve :=
  lines_unfold; rewrite ?Forall_app, ?Forall_singleton in *; lines_unfold;
  intuition eauto.

Lemma finalize_section_lines b :
  builder_lines Q b → builder_lines Q (finalize_section b).
Proof.
  destruct b as [t cs cd [c|] [s|]]; unfold finalize_section; simpl;
    intros; lines_solve.
Qed.

Lemma finalize_chapter_lines b :
  builder_lines Q b → builder_lines Q (finalize_chapter b).
Proof.
  intros H%finalize_section_lines. unfold finalize_chapter. cbv zeta.
  destruct (finalize_section b) as [t [s|] [d|] [c|] x]; simpl; lines_solve.
Qed.

Lemma finalize_division_lines b :
  builder_lines Q b → builder_lines Q (finalize_division b).
Proof.
  intros H%finalize_chapter_lines. unfold finalize_division. cbv zeta.
  destruct (finalize_chapter b) as [t [s|] [d|] c x]; simpl; lines_solve.
Qed.

Lemma finalize_subtitle_lines b :
  builder_lines Q b → builder_lines Q (finalize_subtitle b).
Proof.
  intros H%finalize_division_lines. unfold finalize_subtitle. cbv zeta.
  destruct (finalize_division b) as [t [s|] d c x]; simpl; lines_solve.
Qed.

Lemma append_to_target_lines line new_end b :
  Q line → builder_lines Q b →
  builder_lines Q (append_to_target line new_end b).
Proof.
  intros Hline.
  destruct b as [t [s|] [d|] [c|] [x|]]; unfold append_to_target; simpl;
    intros; lines_solve.
Qed.

Lemma plain_line_lines line page b :
  Q line → builder_lines Q b → builder_lines Q (plain_line line page b).
Proof.
  intros Hline H. unfold plain_line, text_line.
  destruct (subtitle_title_pending line b && not_sections_marker line).
  { destruct b as [t [s|] d c x]; simpl; [|done]. lines_solve. }
  destruct (chapter_title_pending line b).
  { destruct b as [t s d [c|] x]; simpl; [|done]. lines_solve. }
  by apply append_to_target_lines.
Qed.

Lemma step_lines pats b raw page :
  Q "" → (∀ line, raw = Some line → Q (strip line)) →
  builder_lines Q b → builder_lines Q (step pats b (raw, page)).
Proof.
  intros Hblank Hraw H. unfold step, blank_line. destruct raw as [raw|];
    [|by apply append_to_target_lines].
  specialize (Hraw raw eq_refl). cbv zeta.
  destruct (parse_subtitle_line _) as [[num ttl]|].
  { apply finalize_subtitle_lines in H.
    destruct (finalize_subtitle b) as [t s d c x]. lines_solve. }
  destruct (DIVISION_PATTERN _) as [[num ttl]|] eqn:Hdiv.
  - destruct (current_subtitle b) as [s0|] eqn:Hs0.
    { apply finalize_division_lines in H.
      destruct (finalize_division b) as [t s d c x]. lines_solve. }
    destruct (match chapter_full_pattern pats _ with
              | Some (cit, ttl0) => Some (cit, strip ttl0)
              | None => _ end) as [[cit ttl0]|].
    { apply finalize_chapter_lines in H.
      destruct (finalize_chapter b) as [t s d c x]. lines_solve. }
    destruct (section_pattern_of pats _) as [[cit hd]|] eqn:Hsec;
      [|by apply plain_line_lines].
    destruct (current_chapter b) as [c0|] eqn:Hc0;
      [|by apply plain_line_lines].
    apply finalize_section_lines in H.
    destruct (finalize_section b) as [t s d c x]. lines_solve.
  - destruct (match chapter_full_pattern pats _ with
              | Some (cit, ttl0) => Some (cit, strip ttl0)
              | None => _ end) as [[cit ttl0]|].
    { apply finalize_chapter_lines in H.
      destruct (finalize_chapter b) as [t s d c x]. lines_solve. }
    destruct (section_pattern_of pats _) as [[cit hd]|] eqn:Hsec;
      [|by apply plain_line_lines].
    destruct (current_chapter b) as [c0|] eqn:Hc0;
      [|by apply plain_line_lines].
    apply finalize_section_lines in H.
    destruct (finalize_section b) as [t s d c x]. lines_solve.
Qed.

Lemma run_lines_lines pats lines b :
  Q "" → (∀ line page, (Some line, page) ∈ lines → Q (strip line)) →
  builder_lines Q b → builder_lines Q (run_lines pats b lines).
Proof.
  intros Hblank. revert b.
  induction lines as [|[raw page] lines IH]; intros b Hraw H; [done|].
  simpl. apply IH.
  - intros line p Hin. apply (Hraw line p). by right.
  - apply step_lines; [done| |done]. intros line ->. apply (Hraw line page).
    by left.
Qed.

Lemma cleaned_chapter_lines c : ch_lines Q c → ch_lines Q (cleaned_chapter c).
Proof.
  destruct (clean_chapter_sections c) as (kept & index & Hrun & _ & ->).
  intros [Hc Hs]. split; [done|]. simpl.
  rewrite Forall_forall in Hs |- *. intros s Hin. apply Hs.
  rewrite clean_chapter_step_shape in Hrun. by eapply dedup_kept_elem.
Qed.

Lemma cleaned_division_lines d :
  div_lines Q d → div_lines Q (cleaned_division d).
Proof.
  rewrite cleaned_division_eq. intros [Hd Hc]. split; [done|]. simpl.
  rewrite Forall_fmap. eapply Forall_impl; [exact Hc|].
  intros c. apply cleaned_chapter_lines.
Qed.

Lemma cleaned_subtitle_lines s :
  sub_lines Q s → sub_lines Q (cleaned_subtitle s).
Proof.
  rewrite cleaned_subtitle_eq. intros (Hs & Hd & Hc).
  split; [done|]. simpl. split; rewrite Forall_fmap.
  - eapply Forall_impl; [exact Hd|]. intros d. apply cleaned_division_lines.
  - eapply Forall_impl; [exact Hc|]. intros c. apply cleaned_chapter_lines.
Qed.

Lemma clean_title_lines t t' :
  title_lines Q t → clean_title t = Some t' → title_lines Q t'.
Proof.
  intros [Hp Ht]. destruct (clean_title_subtitles t) as (kept & index & Hrun & ->).
  intros [= <-]. split; [done|]. simpl.
  rewrite sort_by_start_page_perm.
  rewrite Forall_forall. intros s Hs.
  rewrite dedup_subtitle_step_shape in Hrun.
  eapply dedup_kept_elem in Hs; [|exact Hrun].
  apply list_elem_of_fmap in Hs as (s0 & -> & Hs0).
  apply cleaned_subtitle_lines.
  rewrite Forall_forall in Ht. by apply Ht.
Qed.

Lemma build_title_structure_lines lines title_label title_number first last t :
  Q "" → (∀ line page, (Some line, page) ∈ lines → Q (strip line)) →
  build_title_structure lines title_label title_number first last = Some t →
  title_lines Q t.
Proof.
  intros Hblank Hraw Ht. eapply clean_title_lines; [|exact Ht].
  unfold raw_title. eapply finalize_subtitle_lines.
  apply run_lines_lines; [done|done|].
  unfold builder_lines, title_lines. simpl. by repeat split.
Qed.
End LineInvariant.

(** X6: the document holds no text of its own making: every line of every
    text buffer (Section bodies, the intros of Chapters, Divisions and
    Subtitles, the preface) is the empty string (a blank marker) or a line
    of the stream with the white space at its ends removed. *)
Theorem document_text_comes_from_lines (lines : list (option string * Z))
    (title_label : string) (title_number first_page last_page : Z) :
  ∃ t,
    build_title_structure lines title_label title_number first_page last_page
    = Some t
    ∧ title_lines
        (λ l, l = "" ∨ ∃ raw page, (Some raw, page) ∈ lines ∧ l = strip raw) t.
Proof.
  destruct (build_title_structure_total lines title_label title_number
              first_page last_page) as [t Ht].
  exists t. split; [done|].
  eapply build_title_structure_lines; [| |exact Ht]; [by left|].
  intros line page Hin. right. by exists line, page.
Qed.

Lemma lstrip_all_chars (P : ascii → bool) (s : string) :
  all_chars P s = true → all_chars P (lstrip s) = true.
Proof. intros H. unfold lstrip. by apply span_all_chars. Qed.

Lemma strip_all_chars (P : ascii → bool) (s : string) :
  all_chars P s = true → all_chars P (strip s) = true.
Proof.
  intros H. unfold strip, rstrip.
  by apply rstrip_by_all_chars, lstrip_all_chars.
Qed.

(** X7: no line that is a footer stamp reaches the document.  In the
    document built from the lines of any pages, no line of any text buffer
    is a footer stamp ([FOOTER_PATTERN] does not match it), none has white
    space at either end, and none holds a line feed or a carriage
    return. *)
Theorem document_text_has_no_footer (pages : list (Z * string))
    (title_label : string) (title_number first_page last_page : Z) :
  ∃ t,
    build_title_structure (iter_lines_with_pages pages) title_label
      title_number first_page last_page = Some t
    ∧ title_lines
        (λ l, FOOTER_PATTERN l = false
              ∧ strip l = l
              ∧ all_chars (λ c, negb (Ascii.eqb c "010")
                                && negb (Ascii.eqb c "013")) l = true) t.
Proof.
  destruct (build_title_structure_total (iter_lines_with_pages pages)
              title_label title_number first_page last_page) as [t Ht].
  exists t. split; [done|].
  eapply build_title_structure_lines; [| |exact Ht]; [done|].
  intros line page (raw_text & Hpage & Hin)%elem_of_iter_lines.
  apply elem_of_page_lines in Hin as [_ [[=]|(raw & Hraw & [= ->] & Hb & Hf)]].
  split; [done|]. split; [apply strip_idemp|].
  by eapply strip_all_chars, rstrip_by_all_chars, normalized_line_no_breaks.
Qed.

(** ** The slots stay nested *)

Lemma step_nested pats b item :
  slots_nested b → slots_nested (step pats b item).
Proof.
  unfold slots_nested.
  destruct b as [t [s|] [d|] [c|] [x|]], item as [[raw|] page]; simpl;
    intros [H1 H2];
    try (by destruct H1 as [? [=]]); try (by destruct H2 as [? [=]]);
    unfold plain_line, text_line, append_to_target, finalize_subtitle,
      finalize_division, finalize_chapter, finalize_section,
      subtitle_title_pending, chapter_title_pending; simpl;
    repeat case_match; simpl; split; intros [? [=]]; eauto.
Qed.

Lemma run_lines_nested pats lines b :
  slots_nested b → slots_nested (run_lines pats b lines).
Proof.
  revert b. induction lines as [|item lines IH]; intros b Hb; [done|].
  simpl. by apply IH, step_nested.
Qed.

(** X8: a Section is only ever open inside an open Chapter and a Division
    inside an open Subtitle, whatever the stream: so [finalize_section]
    always attaches the open Section to the open Chapter, and
    [finalize_division] the open Division to the open Subtitle; the guards
    that would drop them never fail. *)
Theorem sections_and_divisions_are_attached (pats : HeadingPatterns)
    (lines : list (option string * Z)) (title_label : string)
    (title_number first_page last_page : Z) :
  let b := run_lines pats
             (initial_builder title_label title_number first_page last_page)
             lines in
  slots_nested b
  ∧ (∀ s, current_section b = Some s →
       ∃ c, current_chapter b = Some c
         ∧ current_chapter (finalize_section b) = Some (ch_add_section c s))
  ∧ (∀ d, current_division b = Some d →
       ∃ s d', current_subtitle b = Some s
         ∧ current_division (finalize_chapter b) = Some d'
         ∧ div_number d' = div_number d
         ∧ current_subtitle (finalize_division b)
           = Some (sub_add_division s d')).
Proof.
  intros b.
  assert (Hb : slots_nested b).
  { apply run_lines_nested. split; by intros [? [=]]. }
  split; [done|]. destruct Hb as [Hsec Hdiv]. split.
  - intros s Hs. destruct Hsec as [c Hc]; [by rewrite Hs|].
    exists c. split; [done|]. unfold finalize_section. by rewrite Hs, Hc.
  - intros d Hd. destruct Hdiv as [s Hs]; [by rewrite Hd|].
    destruct b as [t cs cd cc cx]. simpl in *. subst cs cd.
    exists s. unfold finalize_division, finalize_chapter, finalize_section.
    destruct cc as [c|], cx as [x|]; simpl; eauto.
Qed.

(** ** What the cleaning pass establishes *)

Lemma insert_by_start_page_sorted (s : Subtitle) (l : list Subtitle) :
  StronglySorted by_start_page l →
  StronglySorted by_start_page (insert_by_start_page s l).
Proof.
  induction 1 as [|x l Hl IH Hx]; simpl; [by repeat constructor|].
  destruct (sub_start_page x <=? sub_start_page s)%Z eqn:Hle.
  - constructor; [done|]. rewrite insert_by_start_page_perm.
    constructor; [|done]. unfold by_start_page. lia.
  - constructor; [by constructor|].
    constructor; [unfold by_start_page; lia|].
    eapply Forall_impl; [exact Hx|]. unfold by_start_page. intros; lia.
Qed.

Lemma sort_by_start_page_sorted (l : list Subtitle) :
  StronglySorted by_start_page (sort_by_start_page l).
Proof.
  unfold sort_by_start_page.
  assert (H : ∀ acc, StronglySorted by_start_page acc →
            StronglySorted by_start_page
              (foldl (λ acc s, insert_by_start_page s acc) acc l));
    [|apply H; constructor].
  induction l as [|s l IH]; intros acc Hacc; [done|].
  simpl. by apply IH, insert_by_start_page_sorted.
Qed.

Lemma insert_by_start_page_last (s : Subtitle) (l : list Subtitle) :
  Forall (λ x, by_start_page x s) l → insert_by_start_page s l = l ++ [s].
Proof.
  induction 1 as [|x l Hx Hl IH]; [done|]. simpl.
  unfold by_start_page in Hx. apply Z.leb_le in Hx as ->. by rewrite IH.
Qed.

Lemma sort_by_start_page_id (l : list Subtitle) :
  StronglySorted by_start_page l → sort_by_start_page l = l.
Proof.
  unfold sort_by_start_page.
  assert (H : ∀ acc, StronglySorted by_start_page (acc ++ l) →
            foldl (λ acc s, insert_by_start_page s acc) acc l = acc ++ l);
    [|apply (H [])].
  induction l as [|s l IH]; intros acc Hs; [by rewrite app_nil_r|].
  simpl. rewrite insert_by_start_page_last.
  - rewrite IH; rewrite <-app_assoc; done.
  - apply Forall_forall. intros x Hx.
    eapply StronglySorted_app_1_elem_of; [exact Hs|done|by left].
Qed.

Lemma dedup_distinct_id {X} (key : X → string) (repl : X → X → bool)
    (l : list X) : ∀ st,
  dedup_inv key st → NoDup (key <$> st.1 ++ l) →
  ∃ index, foldlM (dedup_step key repl) st l = Some (st.1 ++ l, index).
Proof.
  induction l as [|x l IH]; intros [kept index] Hinv Hnd; simpl in *.
  - exists index. by rewrite app_nil_r.
  - destruct (index !! key x) as [idx|] eqn:Hidx.
    { apply Hinv in Hidx as (y & Hy & Hk). simpl in Hy.
      rewrite fmap_app, fmap_cons in Hnd.
      apply NoDup_app in Hnd as (_ & Hnd & _). exfalso.
      apply (Hnd (key x)); [|by left].
      rewrite <-Hk. apply list_elem_of_fmap. exists y. split; [done|].
      by eapply list_elem_of_lookup_2. }
    destruct (dedup_step_ok key repl (kept, index) x Hinv)
      as (st' & Hstep & Hinv' & _).
    unfold dedup_step in Hstep. rewrite Hidx in Hstep.
    injection Hstep as <-. simpl.
    destruct (IH _ Hinv') as [index' Hrun].
    { simpl. by rewrite <-app_assoc. }
    exists index'. simpl in Hrun. by rewrite Hrun, <-app_assoc.
Qed.

Lemma cleaned_chapter_distinct (c : Chapter) : ch_distinct (cleaned_chapter c).
Proof.
  destruct (clean_chapter_sections c) as (kept & index & Hrun & _ & ->).
  destruct (dedup_loop_result sec_citation should_replace_section
              (ch_sections c)) as (kept' & index' & Hrun' & Hnd & _).
  rewrite clean_chapter_step_shape in Hrun. rewrite Hrun in Hrun'.
  injection Hrun' as <- <-. done.
Qed.

Lemma cleaned_chapter_id (c : Chapter) : ch_distinct c → cleaned_chapter c = c.
Proof.
  intros Hnd.
  destruct (clean_chapter_sections c) as (kept & index & Hrun & _ & ->).
  destruct (dedup_distinct_id sec_citation should_replace_section
              (ch_sections c) ([], ∅)) as [index' Hrun'];
    [apply dedup_inv_empty|done|].
  rewrite clean_chapter_step_shape in Hrun. rewrite Hrun in Hrun'.
  injection Hrun' as -> _. by destruct c.
Qed.

Lemma fmap_id_on {X} (f : X → X) (P : X → Prop) (l : list X) :
  (∀ x, P x → f x = x) → Forall P l → f <$> l = l.
Proof.
  intros Hf. induction 1 as [|x l Hx Hl IH]; [done|].
  by rewrite fmap_cons, IH, Hf.
Qed.

Lemma cleaned_subtitle_distinct (s : Subtitle) :
  sub_distinct (cleaned_subtitle s).
Proof.
  rewrite cleaned_subtitle_eq. split; simpl.
  - apply Forall_fmap, Forall_true. intros d. simpl.
    rewrite cleaned_division_eq. simpl.
    apply Forall_fmap, Forall_true. intros c. apply cleaned_chapter_distinct.
  - apply Forall_fmap, Forall_true. intros c. apply cleaned_chapter_distinct.
Qed.

Lemma cleaned_subtitle_id (s : Subtitle) :
  sub_distinct s → cleaned_subtitle s = s.
Proof.
  intros [Hd Hc]. rewrite cleaned_subtitle_eq.
  rewrite (fmap_id_on cleaned_chapter ch_distinct) by
    (done || apply cleaned_chapter_id).
  rewrite (fmap_id_on cleaned_division
             (λ d, Forall ch_distinct (div_chapters d))); [by destruct s| |done].
  intros d Hdc. rewrite cleaned_division_eq.
  rewrite (fmap_id_on cleaned_chapter ch_distinct) by
    (done || apply cleaned_chapter_id).
  by destruct d.
Qed.

(** What [clean_title] returns. *)
Lemma clean_title_result (t : TitleData) :
  ∃ t', clean_title t = Some t'
    ∧ title_clean t'
    ∧ title_header t' = title_header t
    ∧ preface_lines t' = preface_lines t.
Proof.
  destruct (clean_title_subtitles t) as (kept & index & Hrun & ->).
  eexists. split; [done|]. split; [|done].
  destruct (dedup_loop_result subtitle_key should_replace_subtitle
              (cleaned_subtitle <$> subtitles t))
    as (kept' & index' & Hrun' & Hnd & _).
  rewrite dedup_subtitle_step_shape in Hrun. rewrite Hrun in Hrun'.
  injection Hrun' as <- <-.
  split; simpl; [by rewrite sort_by_start_page_perm|].
  split; [apply sort_by_start_page_sorted|].
  rewrite sort_by_start_page_perm. apply Forall_forall. intros s Hs.
  eapply dedup_kept_elem in Hs; [|exact Hrun].
  apply list_elem_of_fmap in Hs as (s0 & -> & _).
  apply cleaned_subtitle_distinct.
Qed.

(** A clean document is left as it is. *)
Lemma clean_title_id (t : TitleData) : title_clean t → clean_title t = Some t.
Proof.
  intros (Hnd & Hsorted & Hdist).
  destruct (clean_title_subtitles t) as (kept & index & Hrun & ->).
  rewrite (fmap_id_on cleaned_subtitle sub_distinct) in Hrun by
    (done || apply cleaned_subtitle_id).
  destruct (dedup_distinct_id subtitle_key should_replace_subtitle
              (subtitles t) ([], ∅)) as [index' Hrun'];
    [apply dedup_inv_empty|done|].
  rewrite dedup_subtitle_step_shape in Hrun. rewrite Hrun in Hrun'.
  injection Hrun' as -> _. rewrite sort_by_start_page_id by done.
  by destruct t.
Qed.

(** X9: in the document [build_title_structure] returns, no Chapter has two
    Sections with the same citation, no two Subtitles have the same number
    up to case, and the Subtitles come in the order of their
    [start_page]; label, number and page range are the arguments given. *)
Theorem built_document_is_clean (lines : list (option string * Z))
    (title_label : string) (title_number first_page last_page : Z) :
  ∃ t,
    build_title_structure lines title_label title_number first_page last_page
    = Some t
    ∧ title_clean t
    ∧ title_header t = (title_label, title_number, first_page, last_page).
Proof.
  unfold build_title_structure.
  destruct (clean_title_result
              (raw_title lines title_label title_number first_page last_page))
    as (t & Ht & Hclean & Hhead & _).
  exists t. split; [done|]. split; [done|].
  by apply header_build_title_structure with lines.
Qed.

(** X10: [clean_title] is idempotent: cleaning what it returns gives the same
    document again; and it leaves the label, the number, the page range and
    the preface of the document as they are. *)
Theorem clean_title_idempotent (t : TitleData) :
  ∃ t',
    clean_title t = Some t'
    ∧ clean_title t' = Some t'
    ∧ title_header t' = title_header t
    ∧ preface_lines t' = preface_lines t.
Proof.
  destruct (clean_title_result t) as (t' & Ht & Hclean & Hhead & Hpre).
  exists t'. split; [done|]. split; [by apply clean_title_id|done].
Qed.

(** ** Words: [str.split] *)

Lemma blank_strip (s : string) :
  is_empty (strip s) = all_chars Char.is_space s.
Proof.
  induction s as [|c s IH]; [done|].
  unfold strip in *. rewrite lstrip_cons. simpl.
  destruct (Char.is_space c) eqn:Hc; [done|].
  unfold rstrip. rewrite rstrip_by_cons.
  destruct (rstrip_by Char.is_space s); [by rewrite Hc|done].
Qed.

Lemma py_split_blank (s : string) :
  all_chars Char.is_space s = true → py_split s = [].
Proof.
  induction s as [|c s IH]; [done|]. simpl.
  intros [-> Hs]%andb_true_iff. by apply IH.
Qed.

Lemma py_split_cons_word (c : ascii) (s : string) :
  Char.is_space c = false → ∃ w ws, py_split (String c s) = String c w :: ws.
Proof.
  intros Hc. simpl. rewrite Hc. destruct s as [|d s]; [by eexists _, _|].
  destruct (Char.is_space d); [by eexists _, _|].
  destruct (py_split (String d s)); by eexists _, _.
Qed.

Lemma py_split_words (s : string) : Forall word (py_split s).
Proof.
  induction s as [|c s IH]; [constructor|]. simpl.
  destruct (Char.is_space c) eqn:Hc; [done|].
  assert (Hw : word (String c "")) by (split; [done|]; simpl; by rewrite Hc).
  destruct s as [|d s]; [by constructor|].
  destruct (Char.is_space d) eqn:Hd; [by constructor|].
  destruct (py_split (String d s)) as [|w ws]; [by constructor|].
  apply Forall_cons in IH as [[Hne Hw'] Hws]. constructor; [|done].
  split; [done|]. simpl. by rewrite Hc, Hw'.
Qed.

Lemma py_split_not_blank (s : string) :
  all_chars Char.is_space s = false → py_split s ≠ [].
Proof.
  induction s as [|c s IH]; [done|]. simpl.
  destruct (Char.is_space c) eqn:Hc; [done|]. intros _.
  by destruct (py_split_cons_word c s Hc) as (w & ws & Heq);
    simpl in Heq; rewrite Hc in Heq; rewrite Heq.
Qed.

Lemma py_split_app_space (a b : string) (sp : ascii) :
  Char.is_space sp = true →
  py_split (a +:+ String sp b) = py_split a ++ py_split b.
Proof.
  intros Hsp. induction a as [|c a IH]; [by simpl; rewrite Hsp|].
  rewrite app_cons_s.
  change (py_split (String c (a +:+ String sp b)))
    with (if Char.is_space c then py_split (a +:+ String sp b)
          else match a +:+ String sp b with
               | EmptyString => [String c EmptyString]
               | String d _ =>
                   if Char.is_space d
                   then String c EmptyString :: py_split (a +:+ String sp b)
                   else match py_split (a +:+ String sp b) with
                        | w :: ws => String c w :: ws
                        | [] => [String c EmptyString]
                        end
               end).
  change (py_split (String c a))
    with (if Char.is_space c then py_split a
          else match a with
               | EmptyString => [String c EmptyString]
               | String d _ =>
                   if Char.is_space d
                   then String c EmptyString :: py_split a
                   else match py_split a with
                        | w :: ws => String c w :: ws
                        | [] => [String c EmptyString]
                        end
               end).
  destruct (Char.is_space c); [done|]. rewrite IH.
  destruct a as [|d a]; [by simpl; rewrite Hsp|].
  rewrite app_cons_s. destruct (Char.is_space d) eqn:Hd; [done|].
  by destruct (py_split_cons_word d a Hd) as (w & ws & ->).
Qed.

Lemma py_split_app_spaces (a sep b : string) :
  all_chars Char.is_space sep = true → sep ≠ "" →
  py_split (a +:+ sep +:+ b) = py_split a ++ py_split b.
Proof.
  destruct sep as [|sp sep]; [done|]. simpl.
  intros [Hsp Hsep]%andb_true_iff _.
  rewrite app_cons_s, py_split_app_space by done. f_equal.
  clear Hsp. induction sep as [|c sep IH]; [done|].
  simpl in Hsep. apply andb_true_iff in Hsep as [Hc Hsep].
  rewrite app_cons_s. simpl. rewrite Hc. by apply IH.
Qed.

Lemma py_split_app_blank (a t : string) :
  all_chars Char.is_space t = true → py_split (a +:+ t) = py_split a.
Proof.
  destruct t as [|sp t]; [by rewrite app_nil_r_s|]. simpl.
  intros [Hsp Ht]%andb_true_iff.
  by rewrite py_split_app_space, (py_split_blank t), app_nil_r.
Qed.

Lemma py_split_word (w : string) : word w → py_split w = [w].
Proof.
  intros [Hne Hw]. induction w as [|c w IH]; [done|]. simpl in *.
  apply andb_true_iff in Hw as [Hc Hw]. apply negb_true_iff in Hc.
  rewrite Hc. destruct w as [|d w]; [done|].
  rewrite IH by done. simpl in Hw.
  apply andb_true_iff in Hw as [Hd _]. apply negb_true_iff in Hd.
  by rewrite Hd.
Qed.

Lemma py_split_join (sep : string) (parts : list string) :
  all_chars Char.is_space sep = true → sep ≠ "" →
  py_split (join sep parts) = concat (py_split <$> parts).
Proof.
  intros Hsep Hne. induction parts as [|p [|q parts] IH]; [done| |].
  - simpl. by rewrite app_nil_r.
  - change (join sep (p :: q :: parts))
      with (p +:+ sep +:+ join sep (q :: parts)).
    rewrite py_split_app_spaces, IH by done. done.
Qed.

Lemma concat_words (ws : list string) :
  Forall word ws → concat (py_split <$> ws) = ws.
Proof.
  induction 1 as [|w ws Hw Hws IH]; [done|].
  rewrite fmap_cons. cbn [concat]. by rewrite py_split_word, IH.
Qed.

Lemma py_split_join_words (sep : string) (ws : list string) :
  all_chars Char.is_space sep = true → sep ≠ "" →
  Forall word ws → py_split (join sep ws) = ws.
Proof. intros. by rewrite py_split_join, concat_words. Qed.

Lemma py_split_lstrip (s : string) : py_split (lstrip s) = py_split s.
Proof.
  induction s as [|c s IH]; [done|]. rewrite lstrip_cons.
  destruct (Char.is_space c) eqn:Hc; [|done]. simpl. by rewrite Hc.
Qed.

Lemma rstrip_by_decomp (p : ascii → bool) (s : string) :
  ∃ t, s = rstrip_by p s +:+ t ∧ all_chars p t = true.
Proof.
  induction s as [|c s (t & Hs & Ht)]; [by exists ""|].
  rewrite rstrip_by_cons. destruct (rstrip_by p s) as [|d r] eqn:Hr.
  - destruct (p c) eqn:Hc.
    + exists (String c s). split; [done|]. simpl. rewrite Hc.
      simpl in Hs. by rewrite Hs.
    + exists t. split; [|done]. rewrite app_nil_l_s in Hs.
      by rewrite app_cons_s, app_nil_l_s, <-Hs.
  - exists t. split; [|done]. rewrite app_cons_s. by rewrite <-Hs.
Qed.

Lemma py_split_rstrip (s : string) : py_split (rstrip s) = py_split s.
Proof.
  destruct (rstrip_by_decomp Char.is_space s) as (t & Hs & Ht).
  unfold rstrip. rewrite Hs at 2. by rewrite py_split_app_blank.
Qed.

Lemma py_split_strip (s : string) : py_split (strip s) = py_split s.
Proof. unfold strip. by rewrite py_split_rstrip, py_split_lstrip. Qed.

(** X11: a Section has a body exactly when the text [to_dict] writes for it
    is not empty; and that text holds the words of the body lines, in
    their order. *)
Theorem has_body_iff_text (s : Section) :
  has_body s = negb (is_empty (sd_text (Section_to_dict s)))
  ∧ py_split (sd_text (Section_to_dict s))
    = concat (py_split <$> sec_body_lines s).
Proof.
  unfold has_body, Section_to_dict, joined_text. simpl. split.
  - rewrite blank_strip. f_equal.
    induction (sec_body_lines s) as [|l [|l' ls] IH]; [done| |].
    + simpl. by rewrite blank_strip, orb_false_r.
    + change (join (String "010" "") (l :: l' :: ls))
        with (l +:+ String "010" "" +:+ join (String "010" "") (l' :: ls)).
      rewrite !all_chars_app. cbn [existsb] in *. rewrite IH.
      rewrite blank_strip. simpl.
      by destruct (all_chars Char.is_space l).
  - by rewrite py_split_strip, py_split_join.
Qed.

(** ** Packing words: [split_long_paragraph] *)

Lemma len_app (a b : string) : len (a +:+ b) = (len a + len b)%Z.
Proof.
  unfold len. induction a as [|c a IH]; [by rewrite app_nil_l_s|].
  rewrite app_cons_s. simpl String.length. lia.
Qed.

Lemma join_snoc (sep : string) (l : list string) (w : string) :
  l ≠ [] → join sep (l ++ [w]) = join sep l +:+ sep +:+ w.
Proof.
  induction l as [|p [|q l] IH]; [done|done|]. intros _.
  change (join sep ((p :: q :: l) ++ [w]))
    with (p +:+ sep +:+ join sep ((q :: l) ++ [w])).
  rewrite IH by done.
  change (join sep (p :: q :: l)) with (p +:+ sep +:+ join sep (q :: l)).
  by rewrite !app_assoc_s.
Qed.

Lemma flush_words (sep : string) (chunks current : list string) :
  all_chars Char.is_space sep = true → sep ≠ "" →
  concat (py_split <$> flush sep chunks current)
  = concat (py_split <$> chunks) ++ concat (py_split <$> current).
Proof.
  intros Hsep Hne. destruct current as [|p current];
    [simpl; by rewrite app_nil_r|].
  unfold flush. rewrite fmap_app, concat_app. f_equal.
  rewrite <-(py_split_join sep (p :: current)) by done.
  cbn [fmap list_fmap concat]. by rewrite app_nil_r.
Qed.

Lemma flush_Forall (P : string → Prop) (sep : string)
    (chunks current : list string) :
  Forall P chunks → (current ≠ [] → P (join sep current)) →
  Forall P (flush sep chunks current).
Proof.
  intros Hc Hj. destruct current as [|p current]; [done|].
  apply Forall_app. split; [done|]. apply Forall_singleton. by apply Hj.
Qed.

Lemma word_chunk_join (max_chars : Z) (current : list string) :
  Forall word current → current ≠ [] →
  match current with
  | [] | [_] => True
  | _ => (len (join " " current) ≤ max_chars)%Z
  end →
  word_chunk max_chars (join " " current).
Proof.
  intros Hw Hne Hlen. unfold word_chunk.
  rewrite (py_split_join_words " ") by done.
  split; [done|]. split; [done|].
  destruct current as [|w [|w' ws]]; [done| |by left].
  right. rewrite Forall_singleton in Hw. exact Hw.
Qed.

Lemma long_paragraph_step_inv (max_chars : Z) (seen : list string)
    (st : Packing) (w : string) :
  word w → long_paragraph_inv max_chars seen st →
  long_paragraph_inv max_chars (seen ++ [w])
    (long_paragraph_step max_chars st w).
Proof.
  destruct st as [[chunks current] current_len].
  intros Hw (Hcur & Hlen & Hmax & Hchunks & Hseen).
  unfold long_paragraph_step.
  destruct current as [|c cs].
  - simpl. rewrite app_nil_r in Hseen. subst.
    split; [by constructor|]. split; [lia|]. done.
  - destruct (max_chars <? current_len + (len w + 1))%Z eqn:Hcmp.
    + split; [by constructor|]. split; [done|]. split; [done|]. split.
      * apply Forall_app. split; [done|]. apply Forall_singleton.
        apply word_chunk_join; [done|done|]. by rewrite <-Hlen.
      * rewrite fmap_app, concat_app. cbn [fmap list_fmap concat].
        rewrite (py_split_join_words " " (c :: cs)) by done.
        by rewrite app_nil_r, <-Hseen, <-app_assoc.
    + apply Z.ltb_ge in Hcmp.
      split; [apply Forall_app; split; [done|by constructor]|].
      split; [|split; [|split; [done|by rewrite <-Hseen, app_assoc]]].
      * change ((c :: cs) ++ [w]) with (c :: (cs ++ [w])) at 1.
        cbv iota. rewrite join_snoc by done.
        rewrite !len_app, <-Hlen. change (len " ") with 1%Z. lia.
      * destruct cs; simpl; lia.
Qed.

Lemma long_paragraph_loop_inv (max_chars : Z) (ws : list string) :
  ∀ seen st,
    Forall word ws → long_paragraph_inv max_chars seen st →
    long_paragraph_inv max_chars (seen ++ ws)
      (foldl (long_paragraph_step max_chars) st ws).
Proof.
  induction ws as [|w ws IH]; intros seen st Hws Hinv;
    [by rewrite app_nil_r|].
  apply Forall_cons in Hws as [Hw Hws]. simpl.
  replace (seen ++ w :: ws) with ((seen ++ [w]) ++ ws)
    by by rewrite <-app_assoc.
  apply IH; [done|]. by apply long_paragraph_step_inv.
Qed.

Lemma split_long_paragraph_ok (paragraph : string) (max_chars : Z) :
  concat (py_split <$> split_long_paragraph paragraph max_chars)
  = py_split paragraph
  ∧ Forall (word_chunk max_chars) (split_long_paragraph paragraph max_chars).
Proof.
  unfold split_long_paragraph.
  pose proof (long_paragraph_loop_inv max_chars (py_split paragraph) []
                ([], [], 0%Z) (py_split_words paragraph)) as Hinv.
  destruct (foldl _ _ _) as [[chunks current] current_len].
  destruct Hinv as (Hcur & Hlen & Hmax & Hchunks & Hseen);
    [by repeat split|].
  split.
  - rewrite flush_words by done. by rewrite (concat_words current), Hseen.
  - apply flush_Forall; [done|]. intros Hne.
    apply word_chunk_join; [done|done|].
    destruct current as [|c [|c' cs]]; [done|done|]. by rewrite <-Hlen.
Qed.

(** X12: [split_long_paragraph] loses and reorders no word: the words of its
    chunks, one chunk after the other, are the words of the paragraph.
    Every chunk is a run of these words with single spaces between them,
    is not empty, and has at most [max_chars] characters unless it is one
    single word. *)
Theorem split_long_paragraph_spec (paragraph : string) (max_chars : Z) :
  concat (py_split <$> split_long_paragraph paragraph max_chars)
  = py_split paragraph
  ∧ ∀ chunk, chunk ∈ split_long_paragraph paragraph max_chars →
      chunk = join " " (py_split chunk)
      ∧ py_split chunk ≠ []
      ∧ ((len chunk ≤ max_chars)%Z ∨ word chunk).
Proof.
  destruct (split_long_paragraph_ok paragraph max_chars) as [Hwords Hchunks].
  split; [done|]. rewrite Forall_forall in Hchunks. exact Hchunks.
Qed.

(** ** Paragraphs: [split_text] *)

Lemma py_split_cons (c : ascii) (s : string) :
  py_split (String c s)
  = if Char.is_space c then py_split s
    else match s with
         | EmptyString => [String c EmptyString]
         | String d _ =>
             if Char.is_space d then String c EmptyString :: py_split s
             else match py_split s with
                  | w :: ws => String c w :: ws
                  | [] => [String c EmptyString]
                  end
         end.
Proof. done. Qed.

Lemma py_split_cons_congr (c : ascii) (piece s : string) (rest : list string) :
  match piece, s with
  | EmptyString, EmptyString => True
  | EmptyString, String d _ => Char.is_space d = true
  | String d _, String d' _ => d = d'
  | String _ _, EmptyString => False
  end →
  py_split piece ++ rest = py_split s →
  py_split (String c piece) ++ rest = py_split (String c s).
Proof.
  intros Hhead Heq. rewrite !py_split_cons.
  destruct (Char.is_space c); [done|].
  destruct piece as [|d piece], s as [|d' s]; try done.
  - simpl in Heq. by subst.
  - rewrite Hhead. simpl in Heq. by subst.
  - subst d'. destruct (Char.is_space d) eqn:Hd; [by rewrite <-Heq|].
    destruct (py_split_cons_word d piece Hd) as (w & ws & Hp).
    destruct (py_split_cons_word d s Hd) as (w' & ws' & Hs).
    rewrite Hp, Hs in *. by injection Heq as -> <-.
Qed.

Lemma split_blank_lines_head (s : string) :
  match split_blank_lines 0 s with
  | piece :: _ =>
      match piece, s with
      | EmptyString, EmptyString => True
      | EmptyString, String d _ => Char.is_space d = true
      | String d _, String d' _ => d = d'
      | String _ _, EmptyString => False
      end
  | [] => False
  end.
Proof.
  destruct s as [|c s]; [done|]. simpl.
  destruct (Ascii.eqb_spec c "010") as [->|Hc].
  - destruct (blank_gap s); [done|]. by destruct (split_blank_lines 0 s).
  - by destruct (split_blank_lines 0 s).
Qed.

Lemma blank_gap_skip_ok (s : string) (n : nat) :
  blank_gap s = Some n → skip_ok n s.
Proof.
  revert n. induction s as [|c s IH]; intros n; [done|]. simpl.
  destruct (Char.is_space c) eqn:Hc; [|done].
  destruct (blank_gap s) as [m|].
  - intros [= <-]. simpl. by split; [|apply IH].
  - destruct (Ascii.eqb c "010"); [|done]. intros [= <-]. by simpl.
Qed.

Lemma split_blank_lines_words (s : string) : ∀ skip,
  skip_ok skip s →
  concat (py_split <$> split_blank_lines skip s) = py_split s.
Proof.
  induction s as [|c s IH]; intros skip Hskip; [done|].
  destruct skip as [|k].
  - cbn [split_blank_lines].
    destruct (if Ascii.eqb c "010" then blank_gap s else None) as [n|] eqn:Hgap.
    + destruct (Ascii.eqb_spec c "010") as [->|Hc]; [|done].
      rewrite fmap_cons. cbn [concat py_split app].
      rewrite IH by by apply blank_gap_skip_ok. done.
    + pose proof (split_blank_lines_head s) as Hhead.
      specialize (IH 0 I).
      destruct (split_blank_lines 0 s) as [|piece pieces]; [done|].
      rewrite fmap_cons in IH |- *. cbn [concat] in IH |- *.
      by apply py_split_cons_congr.
  - destruct Hskip as [Hc Hskip]. cbn [split_blank_lines].
    rewrite IH by done. by rewrite py_split_cons, Hc.
Qed.

Lemma paragraphs_words (pieces : list string) :
  concat (py_split <$> (strip <$> filter (λ para, is_empty (strip para) = false)
                                    pieces))
  = concat (py_split <$> pieces).
Proof.
  induction pieces as [|p pieces IH]; [done|].
  rewrite filter_cons. destruct (decide (is_empty (strip p) = false)) as [Hp|Hp].
  - rewrite !fmap_cons. cbn [concat]. by rewrite IH, py_split_strip.
  - rewrite fmap_cons. cbn [concat]. rewrite IH.
    apply not_false_is_true in Hp. rewrite blank_strip in Hp.
    by rewrite (py_split_blank p).
Qed.

Lemma paragraphs_of_words (text : string) :
  concat (py_split <$> paragraphs_of text) = py_split text.
Proof.
  unfold paragraphs_of. rewrite paragraphs_words.
  by apply split_blank_lines_words.
Qed.

Lemma paragraphs_of_not_blank (text : string) :
  Forall (λ paragraph, py_split paragraph ≠ []) (paragraphs_of text).
Proof.
  unfold paragraphs_of. apply Forall_fmap, Forall_forall.
  intros p [Hp _]%list_elem_of_filter. simpl.
  rewrite py_split_strip. apply py_split_not_blank. by rewrite <-blank_strip.
Qed.

Lemma word_chunk_text_chunk (max_chars : Z) (chunk : string) :
  word_chunk max_chars chunk → text_chunk max_chars chunk.
Proof. by intros (_ & Hne & Hlen). Qed.

Lemma text_chunk_join (max_chars : Z) (current : list string) :
  Forall (λ paragraph, py_split paragraph ≠ []) current →
  current ≠ [] →
  (len (join (String "010" (String "010" "")) current) ≤ max_chars)%Z →
  text_chunk max_chars (join (String "010" (String "010" "")) current).
Proof.
  intros Hcur Hne Hlen. split; [|by left].
  rewrite py_split_join by done.
  destruct current as [|p current]; [done|].
  apply Forall_cons in Hcur as [Hp _]. rewrite fmap_cons. cbn [concat].
  by destruct (py_split p).
Qed.

Lemma text_step_inv (max_chars : Z) (seen : list string) (st : Packing)
    (paragraph : string) :
  py_split paragraph ≠ [] → text_inv max_chars seen st →
  text_inv max_chars (seen ++ [paragraph]) (text_step max_chars st paragraph).
Proof.
  destruct st as [[chunks current] current_len].
  intros Hp (Hcur & Hlen & Hmax & Hchunks & Hseen).
  assert (Hflush : Forall (text_chunk max_chars)
            (flush (String "010" (String "010" "")) chunks current)).
  { apply flush_Forall; [done|]. intros Hne.
    destruct Hmax as [?|Hmax]; [done|].
    apply text_chunk_join; [done|done|].
    destruct current; [done|]. by rewrite <-Hlen. }
  assert (Hwords : concat (py_split <$> (seen ++ [paragraph]))
                   = concat (py_split <$> chunks)
                     ++ concat (py_split <$> current) ++ py_split paragraph).
  { rewrite fmap_app, concat_app, <-Hseen. cbn [fmap list_fmap concat].
    by rewrite app_nil_r, <-app_assoc. }
  unfold text_step, text_inv.
  destruct (max_chars <? len paragraph)%Z eqn:Hlong.
  - destruct (split_long_paragraph_ok paragraph max_chars) as [Hw Hc].
    split; [done|]. split; [done|]. split; [by left|]. split.
    + apply Forall_app. split; [done|].
      eapply Forall_impl; [exact Hc|]. apply word_chunk_text_chunk.
    + rewrite fmap_app, concat_app, flush_words, Hw, Hwords by done.
      cbn [fmap list_fmap concat]. by rewrite app_nil_r, <-app_assoc.
  - apply Z.ltb_ge in Hlong.
    destruct (_ <=? max_chars)%Z eqn:Hfit.
    + apply Z.leb_le in Hfit.
      split; [apply Forall_app; split; [done|by constructor]|].
      split; [|split; [by right|split; [done|]]].
      * destruct current as [|c cs]; [simpl; lia|].
        change ((c :: cs) ++ [paragraph]) with (c :: (cs ++ [paragraph])) at 1.
        cbv iota. rewrite join_snoc by done.
        rewrite !len_app, <-Hlen.
        change (len (String "010" (String "010" ""))) with 2%Z. lia.
      * rewrite Hwords, fmap_app, concat_app. cbn [fmap list_fmap concat].
        by rewrite app_nil_r.
    + split; [by constructor|]. split; [done|]. split; [by right|].
      split; [done|].
      rewrite flush_words, Hwords by done. cbn [fmap list_fmap concat].
      by rewrite app_nil_r, <-app_assoc.
Qed.

Lemma text_loop_inv (max_chars : Z) (paragraphs : list string) :
  ∀ seen st,
    Forall (λ paragraph, py_split paragraph ≠ []) paragraphs →
    text_inv max_chars seen st →
    text_inv max_chars (seen ++ paragraphs)
      (foldl (text_step max_chars) st paragraphs).
Proof.
  induction paragraphs as [|p ps IH]; intros seen st Hps Hinv;
    [by rewrite app_nil_r|].
  apply Forall_cons in Hps as [Hp Hps]. simpl.
  replace (seen ++ p :: ps) with ((seen ++ [p]) ++ ps)
    by by rewrite <-app_assoc.
  apply IH; [done|]. by apply text_step_inv.
Qed.

Lemma split_text_ok (text : string) (max_chars : Z) :
  concat (py_split <$> split_text text max_chars) = py_split text
  ∧ Forall (text_chunk max_chars) (split_text text max_chars).
Proof.
  unfold split_text.
  pose proof (text_loop_inv max_chars (paragraphs_of text) []
                ([], [], 0%Z) (paragraphs_of_not_blank text)) as Hinv.
  destruct (foldl _ _ _) as [[chunks current] current_len].
  destruct Hinv as (Hcur & Hlen & Hmax & Hchunks & Hseen);
    [by repeat split; try left|].
  split.
  - rewrite flush_words by done. rewrite Hseen. apply paragraphs_of_words.
  - apply flush_Forall; [done|]. intros Hne.
    destruct Hmax as [?|Hmax]; [done|].
    apply text_chunk_join; [done|done|].
    destruct current; [done|]. by rewrite <-Hlen.
Qed.

(** X13: [split_text] loses and reorders no word: the words of its chunks,
    one chunk after the other, are the words of the text.  No chunk is
    blank, and every chunk has at most [max_chars] characters unless it is
    one single word; a blank text gives no chunk. *)
Theorem split_text_spec (text : string) (max_chars : Z) :
  concat (py_split <$> split_text text max_chars) = py_split text
  ∧ (∀ chunk, chunk ∈ split_text text max_chars →
       py_split chunk ≠ [] ∧ ((len chunk ≤ max_chars)%Z ∨ word chunk))
  ∧ (split_text text max_chars = [] ↔ is_empty (strip text) = true).
Proof.
  destruct (split_text_ok text max_chars) as [Hwords Hchunks].
  split; [done|]. rewrite Forall_forall in Hchunks. split; [exact Hchunks|].
  rewrite blank_strip. split.
  - intros Hnil. rewrite Hnil in Hwords. simpl in Hwords.
    destruct (all_chars Char.is_space text) eqn:Hb; [done|].
    by apply py_split_not_blank in Hb.
  - intros Hb%py_split_blank. rewrite Hb in Hwords.
    destruct (split_text text max_chars) as [|chunk chunks]; [done|].
    destruct (Hchunks chunk) as [Hne _]; [by left|].
    rewrite fmap_cons in Hwords. cbn [concat] in Hwords.
    by destruct (py_split chunk).
Qed.

(** ** [sanitize_citation] *)

Ltac by_cases_on c :=
  destruct c as [[] [] [] [] [] [] [] []]; vm_compute; intuition congruence.

Lemma alnum_lower_slug (c : ascii) :
  Char.is_alnum c || is_hyphen c = true → slug_char (Char.lower c) = true.
Proof. by_cases_on c. Qed.

Lemma is_hyphen_lower (c : ascii) : is_hyphen (Char.lower c) = is_hyphen c.
Proof. by_cases_on c. Qed.

Lemma alnum_not_hyphen (c : ascii) :
  Char.is_alnum c = true → is_hyphen c = false.
Proof. by_cases_on c. Qed.

Lemma slug_char_cases (c : ascii) :
  slug_char c = true → Char.is_alnum c = false → c = "-"%char.
Proof. by_cases_on c. Qed.

Lemma slug_char_lower (c : ascii) : slug_char c = true → Char.lower c = c.
Proof. by_cases_on c. Qed.

Lemma single_hyphens_cons (a : ascii) (s : string) :
  single_hyphens (String a s)
  = match s with
    | String b _ => negb (is_hyphen a && is_hyphen b)
    | EmptyString => true
    end && single_hyphens s.
Proof. by destruct s. Qed.

(** The head of a string is not a hyphen. *)
Lemma squeeze_shape (s : string) : ∀ in_run,
  single_hyphens (squeeze_non_alnum in_run s) = true
  ∧ all_chars (λ c, Char.is_alnum c || is_hyphen c)
      (squeeze_non_alnum in_run s) = true
  ∧ (in_run = true →
     match squeeze_non_alnum in_run s with
     | String c _ => is_hyphen c = false
     | EmptyString => True
     end).
Proof.
  induction s as [|c s IH]; intros in_run; [done|]. simpl.
  destruct (Char.is_alnum c) eqn:Hc.
  - destruct (IH false) as (Hs & Ha & _).
    pose proof (alnum_not_hyphen c Hc) as Hh.
    rewrite single_hyphens_cons. simpl. rewrite Hc, Hh, Hs, Ha. simpl.
    by destruct (squeeze_non_alnum false s).
  - destruct (IH true) as (Hs & Ha & Hhead). destruct in_run; [done|].
    rewrite single_hyphens_cons. simpl. rewrite Hs, Ha.
    specialize (Hhead eq_refl).
    destruct (squeeze_non_alnum true s); [done|]. by rewrite Hhead.
Qed.

Lemma squeeze_id (s : string) : ∀ in_run,
  all_chars slug_char s = true → single_hyphens s = true →
  (in_run = true →
   match s with String c _ => is_hyphen c = false | EmptyString => True end) →
  squeeze_non_alnum in_run s = s.
Proof.
  induction s as [|c s IH]; intros in_run Hall Hsingle Hhead; [done|].
  simpl in Hall. apply andb_true_iff in Hall as [Hc Hall].
  rewrite single_hyphens_cons in Hsingle.
  apply andb_true_iff in Hsingle as [Hcs Hsingle]. simpl.
  destruct (Char.is_alnum c) eqn:Halnum.
  - by rewrite (IH false).
  - pose proof (slug_char_cases c Hc Halnum) as ->.
    destruct in_run; [by specialize (Hhead eq_refl)|].
    rewrite (IH true); [done|done|done|]. intros _.
    destruct s as [|d s]; [done|]. simpl in Hcs.
    by apply negb_true_iff in Hcs.
Qed.

Lemma span_single_hyphens (p : ascii → bool) (s : string) :
  single_hyphens s = true → single_hyphens (span p s).2 = true.
Proof.
  induction s as [|c s IH]; [done|]. intros Hs. simpl.
  destruct (p c); [|done].
  rewrite single_hyphens_cons in Hs. apply andb_true_iff in Hs as [_ Hs].
  specialize (IH Hs). by destruct (span p s).
Qed.

Lemma rstrip_by_head (p : ascii → bool) (s : string) (d : ascii) (r : string) :
  rstrip_by p s = String d r → ∃ s', s = String d s'.
Proof.
  destruct s as [|c s]; [done|]. rewrite rstrip_by_cons.
  destruct (rstrip_by p s); [destruct (p c)|]; intros [= <- _]; eauto.
Qed.

Lemma rstrip_by_single_hyphens (p : ascii → bool) (s : string) :
  single_hyphens s = true → single_hyphens (rstrip_by p s) = true.
Proof.
  induction s as [|c s IH]; [done|]. intros Hs.
  rewrite single_hyphens_cons in Hs. apply andb_true_iff in Hs as [Hc Hs].
  specialize (IH Hs). rewrite rstrip_by_cons.
  destruct (rstrip_by p s) as [|d r] eqn:Hr; [by destruct (p c)|].
  rewrite single_hyphens_cons, IH.
  apply rstrip_by_head in Hr as [s' ->]. by rewrite Hc.
Qed.

Lemma span_head (p : ascii → bool) (s : string) :
  match (span p s).2 with String c _ => p c = false | EmptyString => True end.
Proof.
  induction s as [|c s IH]; [done|]. simpl.
  destruct (p c) eqn:Hc; [|done]. by destruct (span p s).
Qed.

Lemma span_id (p : ascii → bool) (s : string) :
  match s with String c _ => p c = false | EmptyString => True end →
  (span p s).2 = s.
Proof. destruct s as [|c s]; [done|]. simpl. by intros ->. Qed.

Lemma strip_by_idemp (p : ascii → bool) (s : string) :
  strip_by p (strip_by p s) = strip_by p s.
Proof.
  unfold strip_by. rewrite span_id, rstrip_by_idemp; [done|].
  pose proof (span_head p s) as Hhead.
  destruct (rstrip_by p (span p s).2) as [|d r] eqn:Hr; [done|].
  apply rstrip_by_head in Hr as [s' Hs']. by rewrite Hs' in Hhead.
Qed.

Lemma span_lower (s : string) :
  span is_hyphen (lower s)
  = (lower (span is_hyphen s).1, lower (span is_hyphen s).2).
Proof.
  induction s as [|c s IH]; [done|]. simpl.
  rewrite is_hyphen_lower. destruct (is_hyphen c); [|done].
  rewrite IH. by destruct (span is_hyphen s).
Qed.

Lemma rstrip_by_lower (s : string) :
  rstrip_by is_hyphen (lower s) = lower (rstrip_by is_hyphen s).
Proof.
  induction s as [|c s IH]; [done|].
  change (lower (String c s)) with (String (Char.lower c) (lower s)).
  rewrite !rstrip_by_cons, IH, is_hyphen_lower.
  destruct (rstrip_by is_hyphen s); [by destruct (is_hyphen c)|done].
Qed.

Lemma strip_by_lower (s : string) :
  strip_by is_hyphen (lower s) = lower (strip_by is_hyphen s).
Proof.
  unfold strip_by. rewrite span_lower. cbn [snd]. apply rstrip_by_lower.
Qed.

Lemma lower_single_hyphens (s : string) :
  single_hyphens (lower s) = single_hyphens s.
Proof.
  induction s as [|c s IH]; [done|].
  change (lower (String c s)) with (String (Char.lower c) (lower s)).
  rewrite !single_hyphens_cons, IH. destruct s as [|d s]; [done|].
  simpl. by rewrite !is_hyphen_lower.
Qed.

Lemma lower_slug_chars (s : string) :
  all_chars (λ c, Char.is_alnum c || is_hyphen c) s = true →
  all_chars slug_char (lower s) = true.
Proof.
  induction s as [|c s IH]; [done|]. simpl.
  intros [Hc Hs]%andb_true_iff. by rewrite alnum_lower_slug, IH.
Qed.

Lemma lower_id (s : string) : all_chars slug_char s = true → lower s = s.
Proof.
  induction s as [|c s IH]; [done|]. simpl.
  intros [Hc Hs]%andb_true_iff. by rewrite slug_char_lower, IH.
Qed.

(** X14: [sanitize_citation] always returns a slug: a non-empty string of
    digits, lower-case letters and hyphens, with no two hyphens in a row
    and none at either end; and it returns a slug as it is, so sanitizing
    twice is sanitizing once. *)
Theorem sanitize_citation_slug (citation : option string) :
  slug (sanitize_citation citation)
  ∧ (∀ s, slug s → sanitize_citation (Some s) = s)
  ∧ sanitize_citation (Some (sanitize_citation citation))
    = sanitize_citation citation.
Proof.
  assert (Hunknown : slug "unknown") by by repeat split.
  assert (Hfix : ∀ s, slug s → sanitize_citation (Some s) = s).
  { intros s (Hne & Hall & Hsingle & Hstrip).
    destruct s as [|c s]; [done|]. unfold sanitize_citation.
    rewrite squeeze_id, Hstrip, lower_id; done. }
  assert (Hslug : slug (sanitize_citation citation)).
  { destruct citation as [[|c s]|]; [done| |done]. unfold sanitize_citation.
    destruct (squeeze_shape (String c s) false) as (Hsingle & Hall & _).
    set (q := squeeze_non_alnum false (String c s)) in *.
    destruct (lower (strip_by is_hyphen q)) as [|d r] eqn:Hr; [done|].
    rewrite <-Hr. split; [by rewrite Hr|]. split; [|split].
    - apply lower_slug_chars. unfold strip_by.
      by apply rstrip_by_all_chars, span_all_chars.
    - rewrite lower_single_hyphens. unfold strip_by.
      by apply rstrip_by_single_hyphens, span_single_hyphens.
    - by rewrite strip_by_lower, strip_by_idemp. }
  split; [done|]. split; [done|]. by apply Hfix.
Qed.

(** ** The chunks of a document: [chapter_to_chunks] and [chunk_sections] *)

Lemma imap_proj {A B C} (f : nat → A → B) (g : B → C) (h : A → C)
    (l : list A) :
  (∀ i x, g (f i x) = h x) → g <$> imap f l = h <$> l.
Proof.
  revert f. induction l as [|x l IH]; intros f Hf; [done|].
  rewrite imap_cons, !fmap_cons, Hf. f_equal. apply IH.
  intros i y. apply Hf.
Qed.

Lemma concat_fmap_bind {A B C} (f : B → list C) (g : A → list B)
    (l : list A) :
  concat (f <$> (l ≫= g)) = l ≫= λ x, concat (f <$> g x).
Proof.
  induction l as [|x l IH]; [done|].
  by rewrite !bind_cons, fmap_app, concat_app, IH.
Qed.

Lemma concat_fmap_as_bind {A B} (f : A → list B) (l : list A) :
  concat (f <$> l) = l ≫= f.
Proof.
  induction l as [|x l IH]; [done|]. by rewrite fmap_cons, bind_cons, <-IH.
Qed.

Lemma bind_ext_list {A B} (f g : A → list B) (l : list A) :
  (∀ x, f x = g x) → l ≫= f = l ≫= g.
Proof.
  intros Hfg. induction l as [|x l IH]; [done|].
  by rewrite !bind_cons, Hfg, IH.
Qed.

Lemma split_text_strip_words (text : string) (max_chars : Z) :
  concat (py_split <$>
            (if is_empty (strip text) then []
             else split_text (strip text) max_chars))
  = py_split text.
Proof.
  destruct (is_empty (strip text)) eqn:Hb.
  - rewrite blank_strip in Hb. by rewrite py_split_blank.
  - destruct (split_text_ok (strip text) max_chars) as [-> _].
    apply py_split_strip.
Qed.

Lemma chapter_to_chunks_words (title_number : Z) (title_label : string)
    (subtitle_number subtitle_title division_number division_title
       : option string)
    (chapter : ChapterDict) (source_path : string) (max_chars : Z) :
  concat (py_split ∘ cr_text <$>
            chapter_to_chunks title_number title_label subtitle_number
              subtitle_title division_number division_title chapter
              source_path max_chars)
  = chapter_words chapter.
Proof.
  unfold chapter_to_chunks, chapter_words. cbv zeta.
  rewrite fmap_app, concat_app. f_equal.
  - rewrite <-(split_text_strip_words (cd_intro chapter) max_chars).
    destruct (is_empty (strip (cd_intro chapter))); [done|].
    f_equal. by apply imap_proj.
  - rewrite concat_fmap_bind, concat_fmap_as_bind. apply bind_ext_list.
    intros section. simpl.
    rewrite <-(split_text_strip_words (sd_text section) max_chars).
    destruct (is_empty (strip (sd_text section))); [done|].
    f_equal. by apply imap_proj.
Qed.

Lemma chunk_sections_words (title_data : TitleDict) (path : string)
    (max_chars : Z) :
  concat (py_split ∘ cr_text <$> chunk_sections title_data path max_chars)
  = title_words title_data.
Proof.
  unfold chunk_sections, title_words. cbv zeta.
  rewrite concat_fmap_bind. apply bind_ext_list. intros subtitle.
  rewrite fmap_app, concat_app. f_equal.
  - rewrite concat_fmap_bind. apply bind_ext_list. intros chapter.
    apply chapter_to_chunks_words.
  - rewrite concat_fmap_bind. apply bind_ext_list. intros division.
    rewrite concat_fmap_bind. apply bind_ext_list. intros chapter.
    apply chapter_to_chunks_words.
Qed.

(** X15: chunking loses and reorders no word of what it reads: the words of
    the chunks of a chapter, one chunk after the other, are the words of
    its intro and of the texts of its Sections; and the words of the chunks
    of [chunk_sections] are those of every Chapter, the Chapters of a
    Subtitle itself before those of its Divisions.  (The preface and the
    intros of Subtitles and Divisions are not read.) *)
Theorem chunk_sections_keeps_words (title_data : TitleDict) (path : string)
    (max_chars : Z) :
  (∀ chapter title_label subtitle_number subtitle_title division_number
     division_title,
     chapter_words chapter
     = concat (py_split ∘ cr_text <$>
                 chapter_to_chunks (td_number title_data) title_label
                   subtitle_number subtitle_title division_number
                   division_title chapter path max_chars))
  ∧ concat (py_split ∘ cr_text <$> chunk_sections title_data path max_chars)
    = title_words title_data.
Proof.
  split; [|apply chunk_sections_words].
  intros. symmetry. apply chapter_to_chunks_words.
Qed.

Lemma elem_of_split_text_strip (text chunk : string) (max_chars : Z)
    (idx : nat) :
  split_text (strip text) max_chars !! idx = Some chunk →
  text_chunk max_chars chunk.
Proof.
  intros Hin%list_elem_of_lookup_2.
  destruct (split_text_ok (strip text) max_chars) as [_ Hchunks].
  rewrite Forall_forall in Hchunks. by apply Hchunks.
Qed.

(** The chunks of one chapter. *)
Lemma elem_of_chapter_to_chunks (r : ChunkRecord) (title_number : Z)
    (title_label : string)
    (subtitle_number subtitle_title division_number division_title
       : option string)
    (chapter : ChapterDict) (source_path : string) (max_chars : Z) :
  r ∈ chapter_to_chunks title_number title_label subtitle_number
        subtitle_title division_number division_title chapter source_path
        max_chars →
  text_chunk max_chars (cr_text r)
  ∧ cr_title_number r = title_number
  ∧ cr_title_label r = title_label
  ∧ cr_source_path r = source_path
  ∧ cr_subtitle_number r = subtitle_number
  ∧ cr_subtitle_title r = subtitle_title
  ∧ cr_division_number r = division_number
  ∧ cr_division_title r = division_title
  ∧ cr_chapter_citation r = cd_citation chapter
  ∧ cr_chapter_title r = cd_title chapter
  ∧ ((cr_chunk_type r = "chapter_intro"
      ∧ cr_section_citation r = None ∧ cr_section_heading r = None
      ∧ cr_start_page r = Some (cd_start_page chapter)
      ∧ cr_end_page r = Some (cd_end_page chapter))
     ∨ ∃ section,
         section ∈ cd_sections chapter
         ∧ cr_chunk_type r = "section"
         ∧ cr_section_citation r = Some (sd_citation section)
         ∧ cr_section_heading r = Some (sd_heading section)
         ∧ cr_start_page r = Some (sd_start_page section)
         ∧ cr_end_page r = Some (sd_end_page section)).
Proof.
  unfold chapter_to_chunks. cbv zeta.
  intros [Hin|(section & Hin & Hsec)%list_elem_of_bind]%elem_of_app.
  - destruct (is_empty (strip (cd_intro chapter)));
      [by apply elem_of_nil in Hin|].
    apply elem_of_lookup_imap_1 in Hin as (idx & chunk & -> & Hchunk).
    apply elem_of_split_text_strip in Hchunk. simpl.
    repeat (split; [done|]). by left.
  - destruct (is_empty (strip (sd_text section)));
      [by apply elem_of_nil in Hin|].
    apply elem_of_lookup_imap_1 in Hin as (idx & chunk & -> & Hchunk).
    apply elem_of_split_text_strip in Hchunk. simpl.
    repeat (split; [done|]). right. by exists section.
Qed.

(** Where a chunk of [chunk_sections] comes from. *)
Lemma elem_of_chunk_sections (r : ChunkRecord) (title_data : TitleDict)
    (path : string) (max_chars : Z) :
  r ∈ chunk_sections title_data path max_chars →
  ∃ subtitle chapter title_label division_number division_title,
    subtitle ∈ td_subtitles title_data
    ∧ ((chapter ∈ ud_chapters subtitle
        ∧ division_number = None ∧ division_title = None)
       ∨ ∃ division,
           division ∈ ud_divisions subtitle
           ∧ chapter ∈ dd_chapters division
           ∧ division_number = Some (dd_number division)
           ∧ division_title = Some (dd_title division))
    ∧ r ∈ chapter_to_chunks (td_number title_data) title_label
            (Some (ud_number subtitle)) (Some (ud_title subtitle))
            division_number division_title chapter path max_chars.
Proof.
  unfold chunk_sections. cbv zeta.
  intros (subtitle & Hin & Hsub)%list_elem_of_bind.
  apply elem_of_app in Hin
    as [(chapter & Hin & Hch)%list_elem_of_bind
       |(division & Hin & Hdiv)%list_elem_of_bind].
  - eexists subtitle, chapter, _, None, None. split; [done|].
    split; [by left|]. exact Hin.
  - apply list_elem_of_bind in Hin as (chapter & Hin & Hch).
    eexists subtitle, chapter, _, _, _. split; [done|].
    split; [right; by exists division|]. exact Hin.
Qed.

(** X16: every chunk of [chunk_sections] carries a text that is not blank and
    has at most [max_chars] characters unless it is one single word; it
    names its Subtitle and its Chapter of the document, and its Division
    exactly when the Chapter is in one; it is either a chunk of the
    Chapter's intro, without Section citation and so without full citation,
    with the Chapter's pages, or a chunk of one of the Chapter's Sections,
    with that Section's citation, heading and pages. *)
Theorem chunk_sections_chunks (title_data : TitleDict) (path : string)
    (max_chars : Z) :
  Forall (λ r,
    text_chunk max_chars (cr_text r)
    ∧ cr_title_number r = td_number title_data
    ∧ cr_source_path r = path
    ∧ ∃ subtitle chapter,
        subtitle ∈ td_subtitles title_data
        ∧ cr_subtitle_number r = Some (ud_number subtitle)
        ∧ cr_subtitle_title r = Some (ud_title subtitle)
        ∧ cr_chapter_citation r = cd_citation chapter
        ∧ cr_chapter_title r = cd_title chapter
        ∧ ((chapter ∈ ud_chapters subtitle
            ∧ cr_division_number r = None ∧ cr_division_title r = None)
           ∨ ∃ division,
               division ∈ ud_divisions subtitle
               ∧ chapter ∈ dd_chapters division
               ∧ cr_division_number r = Some (dd_number division)
               ∧ cr_division_title r = Some (dd_title division))
        ∧ ((cr_chunk_type r = "chapter_intro"
            ∧ cr_section_citation r = None
            ∧ full_citation r = None
            ∧ cr_start_page r = Some (cd_start_page chapter)
            ∧ cr_end_page r = Some (cd_end_page chapter))
           ∨ ∃ section,
               section ∈ cd_sections chapter
               ∧ cr_chunk_type r = "section"
               ∧ cr_section_citation r = Some (sd_citation section)
               ∧ cr_section_heading r = Some (sd_heading section)
               ∧ cr_start_page r = Some (sd_start_page section)
               ∧ cr_end_page r = Some (sd_end_page section)))
    (chunk_sections title_data path max_chars).
Proof.
  apply Forall_forall. intros r Hr.
  apply elem_of_chunk_sections in Hr
    as (subtitle & chapter & lbl & dn & dt & Hsub & Hch & Hr).
  apply elem_of_chapter_to_chunks in Hr
    as (Htext & Hn & _ & Hp & Hsn & Hst & Hdn & Hdt & Hcc & Hct & Hkind).
  split; [done|]. split; [done|]. split; [done|].
  exists subtitle, chapter. split; [done|]. split; [done|]. split; [done|].
  split; [done|]. split; [done|]. split.
  - destruct Hch as [(Hin & -> & ->)|(division & Hd & Hin & -> & ->)];
      [by left|right; by exists division].
  - destruct Hkind as [(Hty & Hsc & Hsh & Hsp & Hep)|Hkind]; [left|by right].
    unfold full_citation. by rewrite Hsc.
Qed.

(** ** From the extractor to the chunks: full citations *)

Lemma pretty_N_go_digits (x : N) : ∀ s,
  (0 < x)%N →
  ∃ c r,
    pretty_N_go x s = String c r +:+ s
    ∧ Char.is_digit c && negb (Ascii.eqb c "0") = true
    ∧ all_chars Char.is_digit r = true.
Proof.
  induction (N.lt_wf_0 x) as [x _ IH]. intros s Hx.
  rewrite pretty_N_go_step by done.
  destruct (decide (x < 10)%N) as [Hlt|Hge].
  - rewrite N.div_small, pretty_N_go_0, N.mod_small by done.
    exists (pretty_N_char x), "". split; [done|]. split; [|done].
    assert (x = 1 ∨ x = 2 ∨ x = 3 ∨ x = 4 ∨ x = 5 ∨ x = 6
            ∨ x = 7 ∨ x = 8 ∨ x = 9)%N as Hcases by lia.
    by repeat (destruct Hcases as [->|Hcases]; [done|]); subst.
  - destruct (IH (x `div` 10)%N) with
      (s := String (pretty_N_char (x `mod` 10)) s)
      as (c & r & -> & Hc & Hr).
    { apply N.div_lt; lia. }
    { apply N.div_str_pos; lia. }
    exists c, (r +:+ String (pretty_N_char (x `mod` 10)) "").
    split; [by rewrite !app_cons_s, app_assoc_s|]. split; [done|].
    rewrite all_chars_app, Hr. simpl.
    assert (Hmod : (x `mod` 10 < 10)%N) by by apply N.mod_lt.
    generalize dependent (x `mod` 10)%N. intros m Hmod.
    assert (m = 0 ∨ m = 1 ∨ m = 2 ∨ m = 3 ∨ m = 4 ∨ m = 5 ∨ m = 6 ∨ m = 7
            ∨ m = 8 ∨ m = 9)%N as Hcases by lia.
    by repeat (destruct Hcases as [->|Hcases]; [done|]); rewrite Hcases.
Qed.

(** [str(n)] for a positive [n]: digits, the first of them not a zero. *)
Lemma pretty_positive_digits (n : Z) :
  (0 < n)%Z →
  ∃ c r,
    pretty n = String c r
    ∧ Char.is_digit c && negb (Ascii.eqb c "0") = true
    ∧ all_chars Char.is_digit r = true.
Proof.
  destruct n as [|p|p]; [lia| |lia]. intros _.
  destruct (pretty_N_go_digits (Npos p) "") as (c & r & Hp & Hc & Hr); [lia|].
  exists c, r. split; [|done].
  unfold pretty, pretty_Z, pretty, pretty_positive, pretty, pretty_N.
  rewrite decide_False by done. by rewrite Hp, app_nil_r_s.
Qed.

Lemma strip_id (s : string) :
  all_chars (λ c, negb (Char.is_space c)) s = true → strip s = s.
Proof.
  intros Hs. unfold strip, rstrip.
  assert (Hl : lstrip s = s).
  { destruct s as [|c s]; [done|]. rewrite lstrip_cons. simpl in Hs.
    apply andb_true_iff in Hs as [Hc _]. apply negb_true_iff in Hc.
    by rewrite Hc. }
  rewrite Hl. induction s as [|c s IH]; [done|]. simpl in Hs.
  apply andb_true_iff in Hs as [Hc Hs]. apply negb_true_iff in Hc.
  rewrite rstrip_by_cons, IH; [|done|].
  - destruct s; [by rewrite Hc|done].
  - destruct s as [|d s]; [done|]. rewrite lstrip_cons. simpl in Hs.
    apply andb_true_iff in Hs as [Hd _]. apply negb_true_iff in Hd.
    by rewrite Hd.
Qed.

Lemma citation_char_not_space (c : ascii) :
  Char.is_alnum c || Ascii.eqb c "." = true → negb (Char.is_space c) = true.
Proof. by_cases_on c. Qed.

Lemma digit_alnum (c : ascii) :
  Char.is_digit c = true → Char.is_alnum c || Ascii.eqb c "." = true.
Proof. by_cases_on c. Qed.

Lemma alnum_citation_char (c : ascii) :
  Char.is_alnum c = true → Char.is_alnum c || Ascii.eqb c "." = true.
Proof. by intros ->. Qed.

Lemma nonzero_digit_head (c : ascii) :
  Char.is_digit c && negb (Ascii.eqb c "0") = true →
  Char.is_digit c = true
  ∧ Ascii.eqb c "0" = false
  ∧ Ascii.eqb "s" (Char.lower c) = false
  ∧ Ascii.eqb "t" (Char.lower c) = false
  ∧ Ascii.eqb "c" (Char.lower c) = false.
Proof. by_cases_on c. Qed.

Lemma dotted_text_chars (segs : list string) :
  Forall segment segs →
  all_chars (λ c, Char.is_alnum c || Ascii.eqb c ".") (Re.dotted_text segs)
  = true.
Proof.
  induction 1 as [|g segs [_ Hg] Hsegs IH]; [done|].
  unfold Re.dotted_text in *. cbn [foldr].
  rewrite !all_chars_app, IH, andb_true_r. simpl.
  eapply all_chars_impl; [|exact Hg]. apply alnum_citation_char.
Qed.

(** The full citation of a Section citation of the extractor. *)
Lemma build_full_citation_of_shape (title_number n : Z) (citation : string) :
  (0 < title_number)%Z → citation_shape title_number citation →
  build_full_citation n (Some citation) = Some ("SMC " +:+ citation).
Proof.
  intros Hpos (seg1 & seg2 & more & [_ Hseg1] & [_ Hseg2] & Hmore & ->).
  destruct (pretty_positive_digits title_number Hpos) as (c & r & -> & Hc & Hr).
  apply nonzero_digit_head in Hc as (Hd & Hz & Hs & Ht & Hch).
  rewrite app_cons_s. unfold build_full_citation.
  rewrite strip_id.
  - cbn [lower startswith]. rewrite Hs, Ht, Hch. simpl. by rewrite Hz.
  - eapply all_chars_impl; [apply citation_char_not_space|].
    rewrite <-app_cons_s, !all_chars_app.
    rewrite (dotted_text_chars more Hmore), andb_true_r.
    rewrite (all_chars_impl _ _ seg1 alnum_citation_char Hseg1).
    rewrite (all_chars_impl _ _ seg2 alnum_citation_char Hseg2).
    simpl. rewrite (digit_alnum c Hd). simpl.
    by rewrite (all_chars_impl _ _ r digit_alnum Hr).
Qed.

(** The Section citations of a built document have the shape of the
    section pattern. *)
Lemma built_section_citations (lines : list (option string * Z))
    (title_label : string) (title_number first_page last_page : Z)
    (t : TitleData) :
  build_title_structure lines title_label title_number first_page last_page
  = Some t →
  ∀ s, s ∈ title_sections t → citation_shape title_number (sec_citation s).
Proof.
  intros Ht s Hs.
  eapply (title_ok_sections (citation_pred title_number)); [|exact Hs].
  eapply clean_title_ok; [|exact Ht].
  unfold raw_title.
  eapply (finalize_subtitle_ok (citation_pred title_number)).
  apply run_lines_citations, initial_builder_ok.
Qed.

(** The Sections that the dictionaries of a document hold are those of the
    document. *)
Lemma dict_sections (t : TitleData) (subtitle : SubtitleDict)
    (chapter : ChapterDict) (section : SectionDict) :
  subtitle ∈ td_subtitles (TitleData_to_dict t) →
  chapter ∈ ud_chapters subtitle
  ∨ (∃ division, division ∈ ud_divisions subtitle
       ∧ chapter ∈ dd_chapters division) →
  section ∈ cd_sections chapter →
  ∃ s, s ∈ title_sections t ∧ section = Section_to_dict s.
Proof.
  simpl. intros (u & -> & Hu)%list_elem_of_fmap Hch Hsec.
  assert (∃ c, chapter = Chapter_to_dict c
               ∧ ∀ s, s ∈ ch_sections c → s ∈ subtitle_sections u)
    as (c & -> & Hc).
  { destruct Hch as [Hch|(division & Hd & Hch)]; simpl in *.
    - apply list_elem_of_fmap in Hch as (c & -> & Hc). exists c.
      split; [done|]. intros s Hs. apply elem_of_app. right.
      apply list_elem_of_bind. eauto.
    - apply list_elem_of_fmap in Hd as (d & -> & Hd). simpl in Hch.
      apply list_elem_of_fmap in Hch as (c & -> & Hc). exists c.
      split; [done|]. intros s Hs. apply elem_of_app. left.
      apply list_elem_of_bind. exists d. split; [|done].
      apply list_elem_of_bind. eauto. }
  simpl in Hsec. apply list_elem_of_fmap in Hsec as (s & -> & Hs).
  exists s. split; [|done]. apply list_elem_of_bind. eauto.
Qed.

(** X17: for a positive title number, every chunk made from the document of
    [build_title_structure] has, when it is the chunk of a Section, a
    Section citation of the shape [N.seg.seg...] and the full citation
    ["SMC "] followed by that citation, unchanged; a chunk of a Chapter
    intro has neither. *)
Theorem section_chunks_full_citation (lines : list (option string * Z))
    (title_label : string) (title_number first_page last_page : Z)
    (path : string) (max_chars : Z) :
  (0 < title_number)%Z →
  ∃ t,
    build_title_structure lines title_label title_number first_page last_page
    = Some t
    ∧ Forall (λ r,
        match cr_section_citation r with
        | Some citation =>
            cr_chunk_type r = "section"
            ∧ citation_shape title_number citation
            ∧ full_citation r = Some ("SMC " +:+ citation)
        | None => cr_chunk_type r = "chapter_intro" ∧ full_citation r = None
        end)
        (chunk_sections (TitleData_to_dict t) path max_chars).
Proof.
  intros Hpos.
  destruct (build_title_structure_total lines title_label title_number
              first_page last_page) as [t Ht].
  exists t. split; [done|]. apply Forall_forall. intros r Hr.
  apply elem_of_chunk_sections in Hr
    as (subtitle & chapter & lbl & dn & dt & Hsub & Hch & Hr).
  apply elem_of_chapter_to_chunks in Hr
    as (_ & _ & _ & _ & _ & _ & _ & _ & _ & _ & Hkind).
  destruct Hkind as [(Hty & Hsc & _)|(section & Hsec & Hty & Hsc & _)].
  - unfold full_citation. by rewrite Hsc.
  - destruct (dict_sections t subtitle chapter section) as (s & Hs & ->);
      [done| |done|].
    { destruct Hch as [(Hc & _)|(division & Hd & Hc & _)];
        [by left|right; by exists division]. }
    pose proof (built_section_citations _ _ _ _ _ _ Ht s Hs) as Hshape.
    unfold full_citation. rewrite Hsc. cbv beta iota. split; [done|].
    split; [exact Hshape|].
    by apply (build_full_citation_of_shape title_number).
Qed.

Lemma section_chunks_full_citation_witness :
  ∃ t,
    build_title_structure
      [ (Some "Subtitle I Construction Codes", 1%Z);
        (Some "Chapter 23.42 Definitions", 1%Z);
        (Some "23.42.010 Scope.", 2%Z);
        (Some "This chapter applies.", 2%Z) ]
      "Title 23" 23 1 2 = Some t
    ∧ Forall (λ r,
        match cr_section_citation r with
        | Some citation =>
            cr_chunk_type r = "section"
            ∧ citation_shape 23 citation
            ∧ full_citation r = Some ("SMC " +:+ citation)
        | None => cr_chunk_type r = "chapter_intro" ∧ full_citation r = None
        end)
        (chunk_sections (TitleData_to_dict t) "title23.json" 900).
Proof.
  apply (section_chunks_full_citation
    [ (Some "Subtitle I Construction Codes", 1%Z);
      (Some "Chapter 23.42 Definitions", 1%Z);
      (Some "23.42.010 Scope.", 2%Z);
      (Some "This chapter applies.", 2%Z) ]
    "Title 23" 23 1 2 "title23.json" 900).
  lia.
Defined.

(** ** [normalize_page_text] only takes away *)

Lemma hyphen_break_skip (s : string) (n : nat) :
  hyphen_break s = Some n → skip_ok n s.
Proof.
  unfold hyphen_break. pose proof (skip_ok_span s) as Hs.
  destruct (span Char.is_space s) as [ws r]. simpl in Hs.
  by destruct (_ && _); intros [= <-].
Qed.

Lemma mend_hyphens_keeps (s : string) : ∀ prev_word skip,
  skip_ok skip s →
  keep_chars is_text_char (mend_hyphens prev_word skip s)
  = keep_chars is_text_char s
  ∧ list_ascii_of_string (mend_hyphens prev_word skip s)
    `sublist_of` list_ascii_of_string s.
Proof.
  induction s as [|c s IH]; intros prev_word skip Hskip; [done|].
  destruct skip as [|k].
  - cbn [mend_hyphens].
    destruct (Ascii.eqb c "-" && prev_word) eqn:Hc.
    + destruct (hyphen_break s) as [n|] eqn:Hb.
      * destruct (IH false n) as [Hk Hsub]; [by apply hyphen_break_skip|].
        apply andb_true_iff in Hc as [Hc _]. split.
        -- rewrite Hk. simpl. unfold is_text_char at 2. rewrite Hc.
           by rewrite andb_false_r.
        -- simpl. by apply sublist_cons.
      * destruct (IH (Char.is_word c) 0 I) as [Hk Hsub]. split.
        -- simpl. by rewrite Hk.
        -- simpl. by apply sublist_skip.
    + destruct (IH (Char.is_word c) 0 I) as [Hk Hsub]. split.
      * simpl. by rewrite Hk.
      * simpl. by apply sublist_skip.
  - destruct Hskip as [Hc Hskip]. cbn [mend_hyphens].
    destruct (IH false k Hskip) as [Hk Hsub]. split.
    + rewrite Hk. simpl. unfold is_text_char at 2. by rewrite Hc.
    + simpl. by apply sublist_cons.
Qed.

Lemma remove_char_keeps (s : string) :
  keep_chars is_text_char (remove_char "013" s) = keep_chars is_text_char s
  ∧ list_ascii_of_string (remove_char "013" s)
    `sublist_of` list_ascii_of_string s.
Proof.
  induction s as [|c s [Hk Hsub]]; [done|]. simpl.
  destruct (Ascii.eqb_spec c "013") as [->|Hc].
  - split; [done|]. by apply sublist_cons.
  - split; [simpl; by rewrite Hk|]. simpl. by apply sublist_skip.
Qed.

(** X18: [normalize_page_text] only takes characters away, and of those only
    carriage returns, hyphens and white space: what it returns is a
    subsequence of the text, with the same characters other than hyphens
    and white space, in the same order; and it holds no carriage
    return. *)
Theorem normalize_page_text_keeps_text (raw : string) :
  keep_chars is_text_char (normalize_page_text raw)
  = keep_chars is_text_char raw
  ∧ list_ascii_of_string (normalize_page_text raw)
    `sublist_of` list_ascii_of_string raw
  ∧ all_chars (λ c, negb (Ascii.eqb c "013")) (normalize_page_text raw) = true.
Proof.
  split; [|split; [|apply normalize_page_text_no_cr]].
  - unfold normalize_page_text. destruct raw as [|c raw]; [done|].
    cbn [is_empty].
    destruct (mend_hyphens_keeps (remove_char "013" (String c raw)) false 0 I)
      as [-> _].
    apply remove_char_keeps.
  - unfold normalize_page_text. destruct raw as [|c raw]; [done|].
    cbn [is_empty].
    destruct (mend_hyphens_keeps (remove_char "013" (String c raw)) false 0 I)
      as [_ Hsub].
    etrans; [exact Hsub|]. apply remove_char_keeps.
Qed.

(** ** Chunk identifiers *)

Lemma app_inv_head_s (p a b : string) : p +:+ a = p +:+ b → a = b.
Proof.
  induction p as [|c p IH]; [done|]. rewrite !app_cons_s.
  intros [= H]. by apply IH.
Qed.

Lemma build_chunk_id_inj (title_number : Z) (chapter_citation : option string)
    (suffix1 suffix2 : string) :
  build_chunk_id title_number chapter_citation suffix1
  = build_chunk_id title_number chapter_citation suffix2 →
  suffix1 = suffix2.
Proof.
  unfold build_chunk_id. cbv zeta.
  by intros H%app_inv_head_s%app_inv_head_s%app_inv_head_s%app_inv_head_s
              %app_inv_head_s.
Qed.

Lemma digit_not_hyphen (c : ascii) :
  Char.is_digit c = true → negb (is_hyphen c) = true.
Proof. by_cases_on c. Qed.

Lemma nonzero_digit_not_hyphen (c : ascii) :
  Char.is_digit c && negb (Ascii.eqb c "0") = true → negb (is_hyphen c) = true.
Proof. by_cases_on c. Qed.

(** [str(idx)] holds no hyphen. *)
Lemma pretty_nat_no_hyphen (idx : nat) :
  all_chars (λ c, negb (is_hyphen c)) (pretty idx) = true.
Proof.
  unfold pretty, pretty_nat, pretty, pretty_N.
  destruct (decide (N.of_nat idx = 0%N)) as [_|Hne]; [done|].
  destruct (pretty_N_go_digits (N.of_nat idx) "") as (c & r & -> & Hc & Hr);
    [lia|].
  rewrite app_nil_r_s. simpl.
  by rewrite (nonzero_digit_not_hyphen c Hc),
       (all_chars_impl _ _ r digit_not_hyphen Hr).
Qed.

(** The last hyphen of a string splits it in one way. *)
Lemma last_hyphen_inj (a b d1 d2 : string) :
  all_chars (λ c, negb (is_hyphen c)) d1 = true →
  all_chars (λ c, negb (is_hyphen c)) d2 = true →
  a +:+ "-" +:+ d1 = b +:+ "-" +:+ d2 → a = b ∧ d1 = d2.
Proof.
  intros Hd1 Hd2. revert b.
  induction a as [|c a IH]; intros [|c' b]; rewrite ?app_cons_s, ?app_nil_l_s.
  - by intros [= ->].
  - intros [= <- ->]. by rewrite all_chars_app, andb_comm in Hd1.
  - intros [= -> <-]. by rewrite all_chars_app, andb_comm in Hd2.
  - intros [= <- H]. by destruct (IH _ H) as [-> ->].
Qed.

Lemma section_suffix_inj (slug1 slug2 : string) (i j : nat) :
  "section-" +:+ slug1 +:+ "-" +:+ pretty i
  = "section-" +:+ slug2 +:+ "-" +:+ pretty j →
  slug1 = slug2 ∧ i = j.
Proof.
  intros H%app_inv_head_s.
  apply last_hyphen_inj in H as [-> Hij]; try apply pretty_nat_no_hyphen.
  split; [done|]. by apply (inj pretty).
Qed.

Lemma imap_ids_NoDup {A} (g : nat → string) (f : nat → A → ChunkRecord)
    (l : list A) :
  (∀ i x, cr_chunk_id (f i x) = g i) → Inj (=) (=) g →
  NoDup (cr_chunk_id <$> imap f l).
Proof.
  intros Hf Hg.
  rewrite fmap_imap, (imap_ext _ (λ i _, g i)) by (intros; apply Hf).
  rewrite imap_seq_0. apply NoDup_fmap_2; [done|]. apply NoDup_seq.
Qed.

(** X19: the chunks of one chapter have identifiers that differ from each
    other, provided the Sections of the chapter that have a text differ in
    their sanitized citations. *)
Theorem chapter_chunk_ids_distinct (title_number : Z) (title_label : string)
    (subtitle_number subtitle_title division_number division_title
       : option string)
    (chapter : ChapterDict) (source_path : string) (max_chars : Z) :
  NoDup (section_slugs chapter) →
  NoDup (cr_chunk_id <$>
           chapter_to_chunks title_number title_label subtitle_number
             subtitle_title division_number division_title chapter
             source_path max_chars).
Proof.
  unfold section_slugs, chapter_to_chunks. cbv zeta. intros Hslugs.
  rewrite fmap_app. apply NoDup_app. split; [|split].
  - destruct (is_empty (strip (cd_intro chapter))); [constructor|].
    apply imap_ids_NoDup with
      (g := λ idx, build_chunk_id title_number (Some (cd_citation chapter))
                     ("chapter-intro-" +:+ pretty idx)); [done|].
    intros i j Hij%build_chunk_id_inj%app_inv_head_s. by apply (inj pretty).
  - intros id Hintro Hsec.
    destruct (is_empty (strip (cd_intro chapter)));
      [by apply elem_of_nil in Hintro|].
    apply list_elem_of_fmap in Hintro as (r & -> & Hr).
    apply elem_of_lookup_imap_1 in Hr as (i & x & -> & _).
    apply list_elem_of_fmap in Hsec as (r' & Hid & Hr').
    apply list_elem_of_bind in Hr' as (section & Hr' & _).
    destruct (is_empty (strip (sd_text section)));
      [by apply elem_of_nil in Hr'|].
    apply elem_of_lookup_imap_1 in Hr' as (j & y & -> & _).
    cbn [cr_chunk_id] in Hid. by apply build_chunk_id_inj in Hid.
  - induction (cd_sections chapter) as [|section sections IH];
      [constructor|].
    rewrite bind_cons, fmap_app. rewrite filter_cons in Hslugs.
    destruct (decide (is_empty (strip (sd_text section)) = false)) as [Hb|Hb].
    + rewrite Hb. rewrite fmap_cons in Hslugs.
      apply NoDup_cons in Hslugs as [Hnew Hslugs].
      apply NoDup_app. split; [|split; [|by apply IH]].
      * apply imap_ids_NoDup with
          (g := λ idx, build_chunk_id title_number
                         (Some (cd_citation chapter))
                         ("section-"
                          +:+ sanitize_citation (Some (sd_citation section))
                          +:+ "-" +:+ pretty idx)); [done|].
        by intros i j [_ Hij]%build_chunk_id_inj%section_suffix_inj.
      * intros id Hhere Hrest. apply Hnew.
        apply list_elem_of_fmap in Hhere as (r & -> & Hr).
        apply elem_of_lookup_imap_1 in Hr as (i & x & -> & _).
        apply list_elem_of_fmap in Hrest as (r' & Hid & Hr').
        apply list_elem_of_bind in Hr' as (other & Hr' & Hother).
        destruct (is_empty (strip (sd_text other))) eqn:Hob;
          [by apply elem_of_nil in Hr'|].
        apply elem_of_lookup_imap_1 in Hr' as (j & y & -> & _).
        cbn [cr_chunk_id] in Hid.
        apply build_chunk_id_inj, section_suffix_inj in Hid as [Hslug _].
        rewrite Hslug.
        apply list_elem_of_fmap. exists other. split; [done|].
        by apply list_elem_of_filter.
    + apply not_false_is_true in Hb. rewrite Hb. simpl. by apply IH.
Qed.

Lemma chapter_chunk_ids_distinct_witness :
  NoDup (cr_chunk_id <$>
           chapter_to_chunks 23 "Title 23" (Some "Subtitle I")
             (Some "Construction Codes") None None
             (mkChapterDict "23.42" "Definitions" 1 2 "Intro of the chapter."
                [ mkSectionDict "23.42.010" "Scope." 1 1 "This chapter applies.";
                  mkSectionDict "23.42.020" "Terms." 2 2 "" ])
             "title23.json" 12).
Proof.
  apply chapter_chunk_ids_distinct.
  unfold section_slugs. simpl. repeat constructor. by intros ?%elem_of_nil.
Defined.

(** ** From the file to the chunks *)

(** The chapters that the dictionaries of a document hold are those of the
    document. *)
Lemma dict_chapters (t : TitleData) (subtitle : SubtitleDict)
    (chapter : ChapterDict) :
  subtitle ∈ td_subtitles (TitleData_to_dict t) →
  chapter ∈ ud_chapters subtitle
  ∨ (∃ division, division ∈ ud_divisions subtitle
       ∧ chapter ∈ dd_chapters division) →
  ∃ u c,
    u ∈ subtitles t ∧ chapter = Chapter_to_dict c
    ∧ (c ∈ sub_chapters u
       ∨ ∃ d, d ∈ sub_divisions u ∧ c ∈ div_chapters d).
Proof.
  simpl. intros (u & -> & Hu)%list_elem_of_fmap Hch. exists u.
  destruct Hch as [Hch|(division & Hd & Hch)]; simpl in *.
  - apply list_elem_of_fmap in Hch as (c & -> & Hc). exists c. eauto.
  - apply list_elem_of_fmap in Hd as (d & -> & Hd). simpl in Hch.
    apply list_elem_of_fmap in Hch as (c & -> & Hc). exists c.
    split; [done|]. split; [done|]. right. eauto.
Qed.

Lemma title_ok_chapter (P : NodePred) (t : TitleData) (u : Subtitle)
    (c : Chapter) :
  title_ok P t → u ∈ subtitles t →
  c ∈ sub_chapters u ∨ (∃ d, d ∈ sub_divisions u ∧ c ∈ div_chapters d) →
  ch_ok P c.
Proof.
  unfold title_ok. rewrite Forall_forall. intros Ht Hu Hc.
  destruct (Ht u Hu) as (_ & Hd & Hcs).
  rewrite Forall_forall in Hd. rewrite Forall_forall in Hcs.
  destruct Hc as [Hc|(d & Hin & Hc)]; [by apply Hcs|].
  destruct (Hd d Hin) as [_ Hdc]. rewrite Forall_forall in Hdc.
  by apply Hdc.
Qed.

Lemma title_lines_chapter (Q : string → Prop) (t : TitleData) (u : Subtitle)
    (c : Chapter) :
  title_lines Q t → u ∈ subtitles t →
  c ∈ sub_chapters u ∨ (∃ d, d ∈ sub_divisions u ∧ c ∈ div_chapters d) →
  ch_lines Q c.
Proof.
  intros [_ Ht] Hu Hc. rewrite Forall_forall in Ht.
  destruct (Ht u Hu) as (_ & Hd & Hcs).
  rewrite Forall_forall in Hd. rewrite Forall_forall in Hcs.
  destruct Hc as [Hc|(d & Hin & Hc)]; [by apply Hcs|].
  destruct (Hd d Hin) as [_ Hdc]. rewrite Forall_forall in Hdc.
  by apply Hdc.
Qed.

(** X20: the pages of the chunks.  Every chunk made from the document that
    [main] writes has a [start_page] and an [end_page], the first not above
    the second, both within the page range of the document, which is the
    range of the pages that [locate_title_range] found. *)
Theorem chunk_pages_in_title_range (reader : Reader) (title_number : Z)
    (next_title : option Z) (label_arg : option string) (path : string)
    (max_chars : Z) :
  match main_document reader title_number next_title label_arg with
  | inl _ => True
  | inr title_data =>
      (1 ≤ td_start_page title_data ∧ td_start_page title_data ≤ td_end_page title_data
       ∧ td_end_page title_data ≤ Z.of_nat (length reader))%Z
      ∧ Forall (λ r,
          ∃ first last,
            cr_start_page r = Some first ∧ cr_end_page r = Some last
            ∧ (td_start_page title_data ≤ first ∧ first ≤ last
               ∧ last ≤ td_end_page title_data)%Z)
          (chunk_sections title_data path max_chars)
  end.
Proof.
  unfold main_document.
  destruct (main_title reader title_number next_title label_arg)
    as [e|t] eqn:Hmain; [done|].
  apply main_title_inr in Hmain
    as (start & end_ & Hloc & Hlt & Hn & Hs & He & Hok).
  split; [simpl; lia|].
  apply Forall_forall. intros r Hr.
  apply elem_of_chunk_sections in Hr
    as (subtitle & chapter & lbl & dn & dt & Hsub & Hch & Hr).
  apply elem_of_chapter_to_chunks in Hr
    as (_ & _ & _ & _ & _ & _ & _ & _ & _ & _ & Hkind).
  destruct (dict_chapters t subtitle chapter) as (u & c & Hu & -> & Hc);
    [done| |].
  { destruct Hch as [(Hc & _)|(division & Hd & Hc & _)];
      [by left|right; by exists division]. }
  pose proof (title_ok_chapter _ t u c Hok Hu Hc) as [Hpages Hsecs].
  destruct Hkind as [(_ & _ & _ & -> & ->)|(section & Hsec & _ & _ & _ & -> & ->)].
  - eexists _, _. split; [done|]. split; [done|]. simpl in *. lia.
  - simpl in Hsec. apply list_elem_of_fmap in Hsec as (s & -> & Hs').
    rewrite Forall_forall in Hsecs. specialize (Hsecs s Hs').
    unfold sec_ok in Hsecs. simpl in Hsecs.
    eexists _, _. split; [done|]. split; [done|]. simpl. lia.
Qed.

Lemma elem_of_concat {X} (x : X) (ls : list (list X)) :
  x ∈ concat ls ↔ ∃ l, x ∈ l ∧ l ∈ ls.
Proof.
  induction ls as [|l ls IH]; simpl.
  - split; [by intros ?%elem_of_nil|]. by intros (l & _ & ?%elem_of_nil).
  - rewrite elem_of_app, IH. split.
    + intros [Hx|(l' & Hx & Hl')]; [exists l; split; [done|by left]|].
      exists l'. split; [done|by right].
    + intros (l' & Hx & [->|Hl']%elem_of_cons); [by left|right; eauto].
Qed.

Lemma elem_of_concat_words (lines : list string) (w : string) :
  w ∈ py_split (joined_text lines) → ∃ line, line ∈ lines ∧ w ∈ py_split line.
Proof.
  unfold joined_text. rewrite py_split_strip, py_split_join by done.
  intros (ws & Hw & (line & -> & Hline)%list_elem_of_fmap)%elem_of_concat.
  eauto.
Qed.

(** X21: chunking invents no text.  Every word of every chunk made from the
    document of [build_title_structure] is a word of a line of the
    stream. *)
Theorem chunk_words_come_from_lines (lines : list (option string * Z))
    (title_label : string) (title_number first_page last_page : Z)
    (path : string) (max_chars : Z) :
  ∃ t,
    build_title_structure lines title_label title_number first_page last_page
    = Some t
    ∧ ∀ r w,
        r ∈ chunk_sections (TitleData_to_dict t) path max_chars →
        w ∈ py_split (cr_text r) →
        ∃ raw page, (Some raw, page) ∈ lines ∧ w ∈ py_split raw.
Proof.
  destruct (build_title_structure_total lines title_label title_number
              first_page last_page) as [t Ht].
  exists t. split; [done|]. intros r w Hr Hw.
  assert (Hlines : title_lines
            (λ l, l = "" ∨ ∃ raw page, (Some raw, page) ∈ lines ∧ l = strip raw)
            t).
  { eapply build_title_structure_lines; [| |exact Ht]; [by left|].
    intros line page Hin. right. by exists line, page. }
  assert (Hfrom : ∀ ls, Forall
            (λ l, l = "" ∨ ∃ raw page, (Some raw, page) ∈ lines ∧ l = strip raw)
            ls →
            w ∈ py_split (joined_text ls) →
            ∃ raw page, (Some raw, page) ∈ lines ∧ w ∈ py_split raw).
  { intros ls Hls (line & Hline & Hwl)%elem_of_concat_words.
    rewrite Forall_forall in Hls.
    destruct (Hls line Hline) as [->|(raw & page & Hin & ->)];
      [by apply elem_of_nil in Hwl|].
    rewrite py_split_strip in Hwl. eauto. }
  assert (Hin : w ∈ concat (py_split ∘ cr_text <$>
                  chunk_sections (TitleData_to_dict t) path max_chars)).
  { apply elem_of_concat. exists (py_split (cr_text r)). split; [done|].
    apply list_elem_of_fmap. by exists r. }
  clear r Hr Hw. rewrite chunk_sections_words in Hin.
  unfold title_words in Hin.
  apply list_elem_of_bind in Hin as (subtitle & Hin & Hsub).
  assert (∃ chapter,
            w ∈ chapter_words chapter
            ∧ (chapter ∈ ud_chapters subtitle
               ∨ ∃ division, division ∈ ud_divisions subtitle
                   ∧ chapter ∈ dd_chapters division))
    as (chapter & Hwc & Hch).
  { apply elem_of_app in Hin as [(chapter & Hw & Hc)%list_elem_of_bind
                                |(division & Hw & Hd)%list_elem_of_bind].
    - exists chapter. eauto.
    - apply list_elem_of_bind in Hw as (chapter & Hw & Hc).
      exists chapter. split; [done|]. right. eauto. }
  destruct (dict_chapters t subtitle chapter Hsub Hch)
    as (u & c & Hu & -> & Hc).
  pose proof (title_lines_chapter _ t u c Hlines Hu Hc) as [Hintro Hsecs].
  unfold chapter_words in Hwc. simpl in Hwc.
  apply elem_of_app in Hwc as [Hwc|Hwc]; [by apply (Hfrom (ch_intro_lines c))|].
  apply elem_of_concat in Hwc as (ws & Hw & Hws).
  rewrite <-list_fmap_compose in Hws.
  apply list_elem_of_fmap in Hws as (s & -> & Hs).
  rewrite Forall_forall in Hsecs.
  apply (Hfrom (sec_body_lines s)); [by apply Hsecs|exact Hw].
Qed.
